(** * AirCat: the sample cache (src/cache.c) and the ALSA mixing output
      (src/outputs/output_alsa.c)

    A shallow embedding of the two C translation units.  The handle
    structures become records, pointers that may be NULL become [option],
    the linked list of format segments becomes a [list], and every C
    integer is a [Z] whose conversions and wrap-around are written out.
    The code is multi-threaded; the embedding is sequential: every locked
    section is one atomic function, the two pthread mutexes of the cache
    are reduced to what the sequential reading needs ([input_lock] is a
    boolean, the fine-grained [mutex] disappears), and the interleaving of
    the producer thread, the mixer thread and the API callers is a sequence
    of such functions.  malloc is assumed to succeed. *)

From Stdlib Require Import ZArith List Bool Lia.
Import ListNotations.
Local Open Scope Z_scope.

(** ** C integer types (LP64) *)

Module CInt.

Definition INT32_MAX : Z := 2147483647.
Definition INT32_MIN : Z := -2147483648.

(** [unsigned long], [size_t] and [uint64_t]: 64 bits, arithmetic modulo
    2^64. *)
Definition ulong (z : Z) : Z := z mod 2 ^ 64.

(** [unsigned int]: 32 bits. *)
Definition uint (z : Z) : Z := z mod 2 ^ 32.

(** Conversion to [int] / [int32_t] (two's complement wrap). *)
Definition int32 (z : Z) : Z := (z + 2 ^ 31) mod 2 ^ 32 - 2 ^ 31.

(** Conversion to [long] / [int64_t]. *)
Definition int64 (z : Z) : Z := (z + 2 ^ 63) mod 2 ^ 64 - 2 ^ 63.

Definition in_int32 (z : Z) : Prop := INT32_MIN <= z <= INT32_MAX.
Definition in_ulong (z : Z) : Prop := 0 <= z < 2 ^ 64.

End CInt.
Import CInt.

(** A sample: one 32-bit word of the interleaved stream.  The cache counts
    in units of four bytes, which it calls frames. *)
Definition sample := Z.

(** [memcpy(dst, src, n*4)] on the first [n] words of [dst]; [src] holds the
    [n] words. *)
Definition memcpy (dst src : list sample) : list sample :=
  src ++ skipn (length src) dst.

(** ** Format descriptor (format.h, which is not part of the sources) *)

Module Format.

Record a_format := { samplerate : Z; channels : Z }.

(** Modelled from the spec: the macro A_FORMAT_INIT of format.h is
    missing; the spec calls (0,0) the sentinel for an unspecified
    format. *)
Definition A_FORMAT_INIT : a_format := {| samplerate := 0; channels := 0 |}.

(** Modelled from the spec: format_cmp of format.h is missing; the spec
    says the comparison is field-wise and that a zero field is unequal to
    any nonzero field.  As in the callers, 0 means equal. *)
Definition format_cmp (a b : a_format) : Z :=
  if (samplerate a =? samplerate b) && (channels a =? channels b)
  then 0 else 1.

(** Modelled from the spec: format_cpy of format.h is missing; the spec
    describes it as a copy.  The destination takes the source's value. *)
Definition format_cpy (dst src : a_format) : a_format := src.

End Format.
Import Format.

(** ** The cache (src/cache.c) *)

Module Cache.

Definition BUFFER_SIZE : Z := 8192.

(** struct cache_format; the [next] pointer is the list structure. *)
Record cache_format := { cf_fmt : a_format; cf_len : Z }.

(** next_fmt->len -= size *)
Definition cf_sub (cf : cache_format) (n : Z) : cache_format :=
  {| cf_fmt := cf_fmt cf; cf_len := ulong (cf_len cf - n) |}.

Section WithUserData.

(** The state behind the [user_data] pointer of the input callback. *)
Variable U : Type.

(** What one call of the input callback leaves behind: its return
    value, the words it wrote at the address it was given, and the
    value of the format it was handed by reference. *)
Record cb_result := {
  cb_ret : Z;
  cb_data : list sample;
  cb_fmt : a_format
}.

(** a_read_cb: (user_data, buffer, size, fmt).  The callback receives
    the number of frames it may write and the current content of the
    format, and may change the state behind its user data. *)
Definition a_read_cb : Type := U -> Z -> a_format -> cb_result * U.

(** struct cache_handle, without the thread and mutex objects
    ([input_lock] says whether that mutex is held).  [buffer] holds the
    [len] frames that are valid in the allocation of [size] frames.
    [fmt_list] is the chain from fmt_first to fmt_last: the two pointers
    are NULL together, because only cache_flush empties the chain and
    cache_read drops a first segment only when a second one follows, so
    fmt_last always designates the last element of the list. *)
Record cache_handle := {
  use_thread : bool;
  input_callback : a_read_cb;
  user_data : U;
  buffer : list sample;
  size : Z;
  len : Z;
  pos : Z;
  is_ready : bool;
  fmt_list : list cache_format;
  fmt_len : Z;
  input_lock : bool;
  flush : bool;
  stop : bool
}.

Definition set_user_data h v :=
  {| use_thread := use_thread h; input_callback := input_callback h;
     user_data := v; buffer := buffer h; size := size h; len := len h;
     pos := pos h; is_ready := is_ready h; fmt_list := fmt_list h;
     fmt_len := fmt_len h; input_lock := input_lock h; flush := flush h;
     stop := stop h |}.

Definition set_buffer h v :=
  {| use_thread := use_thread h; input_callback := input_callback h;
     user_data := user_data h; buffer := v; size := size h; len := len h;
     pos := pos h; is_ready := is_ready h; fmt_list := fmt_list h;
     fmt_len := fmt_len h; input_lock := input_lock h; flush := flush h;
     stop := stop h |}.

Definition set_len h v :=
  {| use_thread := use_thread h; input_callback := input_callback h;
     user_data := user_data h; buffer := buffer h; size := size h;
     len := v; pos := pos h; is_ready := is_ready h;
     fmt_list := fmt_list h; fmt_len := fmt_len h;
     input_lock := input_lock h; flush := flush h; stop := stop h |}.

Definition set_is_ready h v :=
  {| use_thread := use_thread h; input_callback := input_callback h;
     user_data := user_data h; buffer := buffer h; size := size h;
     len := len h; pos := pos h; is_ready := v; fmt_list := fmt_list h;
     fmt_len := fmt_len h; input_lock := input_lock h; flush := flush h;
     stop := stop h |}.

Definition set_fmt_list h v :=
  {| use_thread := use_thread h; input_callback := input_callback h;
     user_data := user_data h; buffer := buffer h; size := size h;
     len := len h; pos := pos h; is_ready := is_ready h; fmt_list := v;
     fmt_len := fmt_len h; input_lock := input_lock h; flush := flush h;
     stop := stop h |}.

Definition set_fmt_len h v :=
  {| use_thread := use_thread h; input_callback := input_callback h;
     user_data := user_data h; buffer := buffer h; size := size h;
     len := len h; pos := pos h; is_ready := is_ready h;
     fmt_list := fmt_list h; fmt_len := v; input_lock := input_lock h;
     flush := flush h; stop := stop h |}.

Definition set_input_lock h v :=
  {| use_thread := use_thread h; input_callback := input_callback h;
     user_data := user_data h; buffer := buffer h; size := size h;
     len := len h; pos := pos h; is_ready := is_ready h;
     fmt_list := fmt_list h; fmt_len := fmt_len h; input_lock := v;
     flush := flush h; stop := stop h |}.

Definition set_flush h v :=
  {| use_thread := use_thread h; input_callback := input_callback h;
     user_data := user_data h; buffer := buffer h; size := size h;
     len := len h; pos := pos h; is_ready := is_ready h;
     fmt_list := fmt_list h; fmt_len := fmt_len h;
     input_lock := input_lock h; flush := v; stop := stop h |}.

Definition set_stop h v :=
  {| use_thread := use_thread h; input_callback := input_callback h;
     user_data := user_data h; buffer := buffer h; size := size h;
     len := len h; pos := pos h; is_ready := is_ready h;
     fmt_list := fmt_list h; fmt_len := fmt_len h;
     input_lock := input_lock h; flush := flush h; stop := v |}.

(** cache_open.  The [flush] field is not written by the function: it
    keeps whatever malloc returned, here [flush0].  The producer thread
    of a threaded cache is not started by the model; its iterations
    are [cache_read_thread] below. *)
Definition cache_open (size : Z) (use_thread : bool)
    (input_callback : option a_read_cb) (user_data : U)
    (flush0 : bool) : option cache_handle :=
  if size =? 0 then None
  else match input_callback with
       | None => None
       | Some cb =>
           Some {| use_thread := use_thread; input_callback := cb;
                   user_data := user_data; buffer := []; size := size;
                   len := 0; pos := 0; is_ready := false;
                   fmt_list := []; fmt_len := 0; input_lock := false;
                   flush := flush0; stop := false |}
       end.

(** cache_lock: pthread_mutex_lock on [input_lock].  A caller that
    finds the lock taken blocks: [None] is a call that has not
    returned. *)
Definition cache_lock (h : cache_handle) : option cache_handle :=
  if input_lock h then None else Some (set_input_lock h true).

(** pthread_mutex_trylock on [input_lock]: the flag says whether the
    lock was obtained. *)
Definition input_trylock (h : cache_handle) : bool * cache_handle :=
  if input_lock h then (false, h) else (true, set_input_lock h true).

(** cache_unlock. *)
Definition cache_unlock (h : cache_handle) : cache_handle :=
  set_input_lock h false.

(** cache_is_ready. *)
Definition cache_is_ready (h : cache_handle) : bool := is_ready h.

(** cache_get_filling; the result is converted to unsigned char. *)
Definition cache_get_filling (h : cache_handle) : Z :=
  let percent :=
    if is_ready h then 100 else ulong (len h * 100) / size h in
  percent mod 256.

(** cache_put_format: a new last segment that records the frames
    counted under the previous one.  The segment is fresh memory, into
    which the format is copied. *)
Definition cache_put_format (h : cache_handle) (fmt : a_format)
    : cache_handle :=
  let cf := {| cf_fmt := format_cpy A_FORMAT_INIT fmt;
               cf_len := fmt_len h |} in
  set_fmt_len (set_fmt_list h (fmt_list h ++ [cf])) 0.

(** cache_get_format: drop the first segment.  cache_read calls it only
    when a second segment follows. *)
Definition cache_get_format (h : cache_handle) : cache_handle :=
  match fmt_list h with
  | [] => h
  | _ :: rest => set_fmt_list h rest
  end.

(** The test that guards cache_put_format in both producers:
    fmt_last == NULL, or a nontrivial format that differs from the last
    one. *)
Definition format_changed (h : cache_handle) (in_fmt : a_format) : bool :=
  match rev (fmt_list h) with
  | [] => true
  | fmt_last :: _ =>
      (negb (samplerate in_fmt =? 0) || negb (channels in_fmt =? 0))
      && negb (format_cmp in_fmt (cf_fmt fmt_last) =? 0)
  end.

(** *** The producer thread: one iteration of the loop of
    cache_read_thread *)

(** The locals of cache_read_thread that live across iterations: the
    format handed to the callback and the [len] frames staged in the
    local buffer. *)
Record thread_locals := {
  t_in_fmt : a_format;
  t_buffer : list sample
}.

Definition thread_init : thread_locals :=
  {| t_in_fmt := A_FORMAT_INIT; t_buffer := [] |}.

(** The statements that both producers run, in the same words, once
    the new frames are known (cache_read_thread, "Copy data to cache"
    to "Cache is full"; the refill of cache_read, after the callback,
    to "Cache is full"): [k] frames [data] now lie behind the cached
    ones, [len] grows, the format list is updated, [is_ready] is raised
    when the cache is full. *)
Definition cache_append (h : cache_handle) (data : list sample) (k : Z)
    (in_fmt : a_format) : cache_handle :=
  let h := set_buffer h (buffer h ++ data) in
  let h := set_len h (ulong (len h + k)) in
  let h := if format_changed h in_fmt then cache_put_format h in_fmt
           else h in
  let h := set_fmt_len h (ulong (fmt_len h + k)) in
  if len h =? size h then set_is_ready h true else h.

(** The section of the iteration that runs under [mutex]: what fits of
    the staged frames goes into the cache.  Returns the number of
    frames taken from the staging buffer. *)
Definition cache_store (h : cache_handle) (staged : list sample)
    (in_fmt : a_format) : cache_handle * Z :=
  let len_staged := Z.of_nat (length staged) in
  let in_size := ulong (size h - len h) in
  let in_size := if in_size >? len_staged then len_staged else in_size in
  (cache_append h (firstn (Z.to_nat in_size) staged) in_size in_fmt,
   in_size).

Inductive thread_step :=
| Blocked                       (* waiting in cache_lock *)
| Exited (h : cache_handle)     (* the loop was left *)
| Continue (h : cache_handle) (t : thread_locals).

(** One iteration.  The callback is expected to return at most the
    count it was given and to have written that many frames; the loop
    is left with [input_lock] taken when the callback fails. *)
Definition cache_read_thread (h : cache_handle) (t : thread_locals)
    : thread_step :=
  if stop h then Exited h
  else
    match cache_lock h with
    | None => Blocked
    | Some h =>
        let '(h, t) :=
          if flush h
          then (set_flush h false,
                {| t_in_fmt := t_in_fmt t; t_buffer := [] |})
          else (h, t) in
        let finish (h : cache_handle) (t : thread_locals) :=
          let '(h, in_size) := cache_store h (t_buffer t) (t_in_fmt t) in
          let t := {| t_in_fmt := t_in_fmt t;
                      t_buffer := skipn (Z.to_nat in_size) (t_buffer t) |} in
          Continue (cache_unlock h) t in
        let len_staged := Z.of_nat (length (t_buffer t)) in
        if len_staged <? BUFFER_SIZE / 4 then
          let '(r, u) :=
            input_callback h (user_data h)
              (BUFFER_SIZE / 4 - len_staged) (t_in_fmt t) in
          let h := set_user_data h u in
          if cb_ret r <? 0 then Exited h
          else
            finish h
              {| t_in_fmt := cb_fmt r;
                 t_buffer := t_buffer t
                             ++ firstn (Z.to_nat (cb_ret r)) (cb_data r) |}
        else finish h t
    end.

(** *** cache_read *)

(** What cache_read leaves behind: the return value, the caller's
    buffer, the caller's format, and the handle. *)
Record read_result := {
  r_ret : Z;
  r_buffer : list sample;
  r_fmt : a_format;
  r_cache : option cache_handle
}.

(** The section of cache_read that runs under [mutex].  Returns the
    handle, the caller's buffer, the caller's format and the local
    [size] (here [count]). *)
Definition cache_read_locked (h : cache_handle) (buf : list sample)
    (count : Z) (fmt : a_format)
    : cache_handle * list sample * a_format * Z :=
  if is_ready h then
    let count := if count >? len h then len h else count in
    let '(h, fmt, count) :=
      match fmt_list h with
      | fmt_first :: rest =>
          let fmt := format_cpy fmt (cf_fmt fmt_first) in
          match rest with
          | next_fmt :: rest' =>
              if cf_len next_fmt <? count then
                let count := cf_len next_fmt in
                let h := cache_get_format h in
                (set_fmt_list h
                   (cf_sub next_fmt count :: tl (fmt_list h)),
                 fmt, count)
              else
                (set_fmt_list h
                   (fmt_first :: cf_sub next_fmt count :: rest'),
                 fmt, count)
          | [] => (set_fmt_len h (ulong (fmt_len h - count)), fmt, count)
          end
      | [] => (h, fmt, count)
      end in
    let buf := memcpy buf (firstn (Z.to_nat count) (buffer h)) in
    let h := set_len h (ulong (len h - count)) in
    let h := set_buffer h (firstn (Z.to_nat (len h))
                             (skipn (Z.to_nat count) (buffer h))) in
    let h := if len h =? 0 then set_is_ready h false else h in
    (h, buf, fmt, count)
  else (h, buf, fmt, 0).

(** cache_read.  The first argument is the [user_data] pointer, NULL
    or a handle; [buf] and [count] are the C parameters [buffer] and
    [size]. *)
Definition cache_read (handle : option cache_handle)
    (buf : list sample) (count : Z) (fmt : a_format) : read_result :=
  match handle with
  | None =>
      {| r_ret := -1; r_buffer := buf; r_fmt := fmt; r_cache := None |}
  | Some h =>
      let '(h, buf, fmt, count) := cache_read_locked h buf count fmt in
      let result (ret : Z) (h : cache_handle) :=
        {| r_ret := ret; r_buffer := buf; r_fmt := fmt;
           r_cache := Some h |} in
      if negb (use_thread h) && (len h <? size h) then
        match input_trylock h with
        | (false, h) => result (int32 count) h
        | (true, h) =>
            let in_size := ulong (size h - len h) in
            let '(r, u) :=
              input_callback h (user_data h) in_size A_FORMAT_INIT in
            let h := set_user_data h u in
            let in_fmt := cb_fmt r in
            let len_in := cb_ret r in
            if len_in <? 0 then
              if len h =? 0 then result (-1) h
              else result (int32 count) h
            else
              let h := cache_append h
                         (firstn (Z.to_nat len_in) (cb_data r))
                         len_in in_fmt in
              result (int32 count) (cache_unlock h)
        end
      else result (int32 count) h
  end.

(** *** cache_flush *)

(** The loop that frees the format list one head at a time. *)
Fixpoint free_formats (l : list cache_format) : list cache_format :=
  match l with
  | [] => []
  | _ :: rest => free_formats rest
  end.

(** cache_flush: takes [input_lock] and returns with it held.  With
    [len] at zero no frame of [buffer] is valid any more. *)
Definition cache_flush (h : cache_handle) : option cache_handle :=
  match cache_lock h with
  | None => None
  | Some h =>
      let h := set_is_ready h false in
      let h := set_buffer (set_len h 0) [] in
      let h := set_fmt_list h (free_formats (fmt_list h)) in
      let h := if use_thread h then set_flush h true else h in
      Some h
  end.

(** *** Vocabulary for stating properties of the cache *)

(** Sum of the lengths stored in a chain of segments. *)
Fixpoint seg_sum (l : list cache_format) : Z :=
  match l with
  | [] => 0
  | cf :: l => cf_len cf + seg_sum l
  end.

(** The producer thread storing a sequence of batches that all arrived
    under the same format: the locked section of the iteration, once
    per batch. *)
Definition produce (h : cache_handle) (in_fmt : a_format)
    (batches : list (list sample)) : cache_handle :=
  fold_left (fun h staged => fst (cache_store h staged in_fmt)) batches h.

(** A handle in a consistent state: the counters are within their C
    types, [buffer] holds [len] frames, and the segments after the
    first one, together with [fmt_len], account for the cached
    frames. *)
Record cache_inv (h : cache_handle) : Prop := {
  inv_size : 0 < size h < 2 ^ 64;
  inv_len : 0 <= len h <= size h;
  inv_buffer : Z.of_nat (length (buffer h)) = len h;
  inv_fmt_len : 0 <= fmt_len h < 2 ^ 64;
  inv_segs : Forall (fun cf => 0 <= cf_len cf) (fmt_list h);
  inv_sum : fmt_list h <> [] ->
            seg_sum (tl (fmt_list h)) + fmt_len h = len h;
  inv_empty : fmt_list h = [] -> len h = 0;
  inv_ready : is_ready h = true -> 0 < len h
}.

(** The cache holds, oldest first, [N1] frames stored under [A]
    followed by [N2] frames stored under [B], and nothing else: the
    format list is the segment of [A] followed by the segment of [B],
    which records the [N1] frames that precede the switch, and [fmt_len]
    counts the frames stored since. *)
Definition holds_two_formats (h : cache_handle) (A B : a_format)
    (N1 N2 : Z) : Prop :=
  exists l0,
    fmt_list h = [{| cf_fmt := A; cf_len := l0 |};
                  {| cf_fmt := B; cf_len := N1 |}]
    /\ fmt_len h = N2.

(** What the callback owes the cache when asked for [n] frames: it
    returns an error, or a count of at most [n] and that many
    frames. *)
Definition cb_honours (r : cb_result) (n : Z) : Prop :=
  cb_ret r < 0 \/
  (cb_ret r <= n /\ cb_ret r <= Z.of_nat (length (cb_data r))).

End WithUserData.

Arguments set_user_data {U}.
Arguments produce {U}.
Arguments cache_inv {U}.
Arguments set_buffer {U}.
Arguments set_len {U}.
Arguments set_is_ready {U}.
Arguments set_fmt_list {U}.
Arguments set_fmt_len {U}.
Arguments set_input_lock {U}.
Arguments set_flush {U}.
Arguments set_stop {U}.
Arguments cache_open {U}.
Arguments cache_lock {U}.
Arguments input_trylock {U}.
Arguments cache_unlock {U}.
Arguments cache_is_ready {U}.
Arguments cache_get_filling {U}.
Arguments cache_put_format {U}.
Arguments cache_get_format {U}.
Arguments format_changed {U}.
Arguments cache_append {U}.
Arguments cache_store {U}.
Arguments Blocked {U}.
Arguments Exited {U}.
Arguments Continue {U}.
Arguments cache_read_thread {U}.
Arguments cache_read_locked {U}.
Arguments cache_read {U}.
Arguments cache_flush {U}.
Arguments Build_cache_handle {U}.
Arguments Build_read_result {U}.
Arguments use_thread {U}.
Arguments input_callback {U}.
Arguments user_data {U}.
Arguments buffer {U}.
Arguments size {U}.
Arguments len {U}.
Arguments pos {U}.
Arguments is_ready {U}.
Arguments fmt_list {U}.
Arguments fmt_len {U}.
Arguments input_lock {U}.
Arguments flush {U}.
Arguments stop {U}.
Arguments r_ret {U}.
Arguments r_buffer {U}.
Arguments r_fmt {U}.
Arguments r_cache {U}.
Arguments holds_two_formats {U}.

End Cache.

(** ** The ALSA output and its mixer (src/outputs/output_alsa.c) *)

Module Output.

Definition BUFFER_SIZE : Z := 8192 / 2.
Definition MIN_LATENCY : Z := 10.
Definition MAX_SILENCE : Z := 5.

(** enum stream_event of output.h. *)
Inductive stream_event :=
| STREAM_EVENT_BUFFERING
| STREAM_EVENT_READY
| STREAM_EVENT_END.

(** enum output_stream_key of output.h. *)
Inductive output_stream_key :=
| OUTPUT_STREAM_STATUS
| OUTPUT_STREAM_PLAYED
| OUTPUT_STREAM_CACHE_STATUS
| OUTPUT_STREAM_CACHE_FILLING
| OUTPUT_STREAM_CACHE_DELAY.

Section WithExternals.

(** The state behind the cache's input callback, and the state of a
    resample handle (resample.c is not part of the sources). *)
Variable U : Type.
Variable R : Type.

Abbreviation cache_handle := (Cache.cache_handle U).

(** Constants of output.h, which is not part of the sources. *)
Variable OUTPUT_VOLUME_MAX : Z.
Variables STREAM_PLAYING STREAM_PAUSED STREAM_ENDED : Z.
Variables CACHE_BUFFERING CACHE_READY : Z.

(** The resampler, and the two cache functions this file calls that
    cache.c does not define.  resample_write reaches the stream's cache
    through the write callback it was opened with, so it is given the
    cache as well. *)
Variable resample_write :
  option R -> option cache_handle -> list sample -> Z -> a_format ->
  Z * option R * option cache_handle.
Variable resample_flush : option R -> option R.
Variable resample_delay : option R -> Z.
Variable cache_delay : option cache_handle -> Z.
Variable cache_set_time :
  option cache_handle -> Z -> Z * option cache_handle.

(** struct output_stream; [next] is the list structure of
    [streams].  [event_cb] says whether a callback is registered
    (non-NULL); calling it appends to a log of (event_ud, event).  When
    the stream pulls from an input callback, the user data of its cache
    is the resample handle [res] itself; the two are kept apart here, as
    nothing below depends on what the resampler does. *)
Record output_stream := {
  res : option R;
  s_samplerate : Z;
  s_channels : Z;
  is_playing : bool;
  end_of_stream : bool;
  played : Z;
  abort : bool;
  s_volume : Z;
  cache : option cache_handle;
  delay : Z;
  event_cb : bool;
  event_ud : Z;
  buffering : Z
}.

(** struct output, without the device and the thread objects. *)
Record output := {
  o_samplerate : Z;
  o_channels : Z;
  o_volume : Z;
  o_stop : bool;
  streams : list output_stream
}.

Definition event_log := list (Z * stream_event).

Definition set_res (s : output_stream) v : output_stream :=
  {| res := v; s_samplerate := s_samplerate s;
     s_channels := s_channels s; is_playing := is_playing s;
     end_of_stream := end_of_stream s; played := played s;
     abort := abort s; s_volume := s_volume s; cache := cache s;
     delay := delay s; event_cb := event_cb s; event_ud := event_ud s;
     buffering := buffering s |}.

Definition set_s_samplerate (s : output_stream) v : output_stream :=
  {| res := res s; s_samplerate := v; s_channels := s_channels s;
     is_playing := is_playing s; end_of_stream := end_of_stream s;
     played := played s; abort := abort s; s_volume := s_volume s;
     cache := cache s; delay := delay s; event_cb := event_cb s;
     event_ud := event_ud s; buffering := buffering s |}.

Definition set_s_channels (s : output_stream) v : output_stream :=
  {| res := res s; s_samplerate := s_samplerate s; s_channels := v;
     is_playing := is_playing s; end_of_stream := end_of_stream s;
     played := played s; abort := abort s; s_volume := s_volume s;
     cache := cache s; delay := delay s; event_cb := event_cb s;
     event_ud := event_ud s; buffering := buffering s |}.

Definition set_is_playing (s : output_stream) v : output_stream :=
  {| res := res s; s_samplerate := s_samplerate s;
     s_channels := s_channels s; is_playing := v;
     end_of_stream := end_of_stream s; played := played s;
     abort := abort s; s_volume := s_volume s; cache := cache s;
     delay := delay s; event_cb := event_cb s; event_ud := event_ud s;
     buffering := buffering s |}.

Definition set_end_of_stream (s : output_stream) v : output_stream :=
  {| res := res s; s_samplerate := s_samplerate s;
     s_channels := s_channels s; is_playing := is_playing s;
     end_of_stream := v; played := played s; abort := abort s;
     s_volume := s_volume s; cache := cache s; delay := delay s;
     event_cb := event_cb s; event_ud := event_ud s;
     buffering := buffering s |}.

Definition set_played (s : output_stream) v : output_stream :=
  {| res := res s; s_samplerate := s_samplerate s;
     s_channels := s_channels s; is_playing := is_playing s;
     end_of_stream := end_of_stream s; played := v; abort := abort s;
     s_volume := s_volume s; cache := cache s; delay := delay s;
     event_cb := event_cb s; event_ud := event_ud s;
     buffering := buffering s |}.

Definition set_abort (s : output_stream) v : output_stream :=
  {| res := res s; s_samplerate := s_samplerate s;
     s_channels := s_channels s; is_playing := is_playing s;
     end_of_stream := end_of_stream s; played := played s; abort := v;
     s_volume := s_volume s; cache := cache s; delay := delay s;
     event_cb := event_cb s; event_ud := event_ud s;
     buffering := buffering s |}.

Definition set_s_volume (s : output_stream) v : output_stream :=
  {| res := res s; s_samplerate := s_samplerate s;
     s_channels := s_channels s; is_playing := is_playing s;
     end_of_stream := end_of_stream s; played := played s;
     abort := abort s; s_volume := v; cache := cache s; delay := delay s;
     event_cb := event_cb s; event_ud := event_ud s;
     buffering := buffering s |}.

Definition set_cache (s : output_stream) v : output_stream :=
  {| res := res s; s_samplerate := s_samplerate s;
     s_channels := s_channels s; is_playing := is_playing s;
     end_of_stream := end_of_stream s; played := played s;
     abort := abort s; s_volume := s_volume s; cache := v;
     delay := delay s; event_cb := event_cb s; event_ud := event_ud s;
     buffering := buffering s |}.

Definition set_delay (s : output_stream) v : output_stream :=
  {| res := res s; s_samplerate := s_samplerate s;
     s_channels := s_channels s; is_playing := is_playing s;
     end_of_stream := end_of_stream s; played := played s;
     abort := abort s; s_volume := s_volume s; cache := cache s;
     delay := v; event_cb := event_cb s; event_ud := event_ud s;
     buffering := buffering s |}.

Definition set_event_cb (s : output_stream) v : output_stream :=
  {| res := res s; s_samplerate := s_samplerate s;
     s_channels := s_channels s; is_playing := is_playing s;
     end_of_stream := end_of_stream s; played := played s;
     abort := abort s; s_volume := s_volume s; cache := cache s;
     delay := delay s; event_cb := v; event_ud := event_ud s;
     buffering := buffering s |}.

Definition set_event_ud (s : output_stream) v : output_stream :=
  {| res := res s; s_samplerate := s_samplerate s;
     s_channels := s_channels s; is_playing := is_playing s;
     end_of_stream := end_of_stream s; played := played s;
     abort := abort s; s_volume := s_volume s; cache := cache s;
     delay := delay s; event_cb := event_cb s; event_ud := v;
     buffering := buffering s |}.

Definition set_buffering (s : output_stream) v : output_stream :=
  {| res := res s; s_samplerate := s_samplerate s;
     s_channels := s_channels s; is_playing := is_playing s;
     end_of_stream := end_of_stream s; played := played s;
     abort := abort s; s_volume := s_volume s; cache := cache s;
     delay := delay s; event_cb := event_cb s; event_ud := event_ud s;
     buffering := v |}.

Definition set_o_volume (h : output) v : output :=
  {| o_samplerate := o_samplerate h; o_channels := o_channels h;
     o_volume := v; o_stop := o_stop h; streams := streams h |}.

Definition set_streams (h : output) v : output :=
  {| o_samplerate := o_samplerate h; o_channels := o_channels h;
     o_volume := o_volume h; o_stop := o_stop h; streams := v |}.

(** *** The stream API *)

(** The pointer [s] of the API functions designates an element of
    [streams]; the functions that only touch that element are given as
    transformers of it, and [h] supplies the output's format. *)

(** The fields written by output_alsa_add_stream before the cache and
    the resampler are opened. *)
Definition new_stream (samplerate channels cache_ms : Z) : output_stream :=
  {| res := None; s_samplerate := samplerate; s_channels := channels;
     is_playing := false; end_of_stream := false; played := 0;
     abort := false; s_volume := OUTPUT_VOLUME_MAX; cache := None;
     delay := cache_ms; event_cb := false; event_ud := 0;
     buffering := 0 |}.

(** output_alsa_add_stream.  The file calls a cache_open of nine
    arguments, which is not the one of cache.c, and resample_open:
    [opened] is what these calls produced, [None] when one of them
    failed.  The new stream becomes the head of the list. *)
Definition output_alsa_add_stream (h : output)
    (samplerate channels cache_ms : Z)
    (opened : option (option R * option cache_handle))
    : output * option output_stream :=
  let s := new_stream samplerate channels cache_ms in
  match opened with
  | None => (h, None)
  | Some (r, c) =>
      let s := set_cache (set_res s r) c in
      (set_streams h (s :: streams h), Some s)
  end.

(** cache_unlock(s->cache).  The call is not guarded in the source: on
    a NULL pointer it dereferences NULL, and the call has no result
    ([None]). *)
Definition unlock_cache (c : option cache_handle) : option cache_handle :=
  match c with
  | None => None
  | Some c => Some (Cache.cache_unlock c)
  end.

(** output_alsa_play_stream; [None] when the cache pointer is NULL. *)
Definition output_alsa_play_stream (h : output) (s : output_stream)
    : option (Z * output_stream) :=
  let s := set_is_playing s true in
  match unlock_cache (cache s) with
  | None => None
  | Some c => Some (0, set_cache s (Some c))
  end.

(** output_alsa_pause_stream. *)
Definition output_alsa_pause_stream (h : output) (s : output_stream)
    : Z * output_stream :=
  (0, set_is_playing s false).

(** output_alsa_flush_stream; [None] when cache_flush waits for
    [input_lock] (or the cache pointer is NULL). *)
Definition output_alsa_flush_stream (h : output) (s : output_stream)
    : option output_stream :=
  match cache s with
  | None => None
  | Some c =>
      match Cache.cache_flush c with
      | None => None
      | Some c =>
          let s := set_cache s (Some c) in
          let s := set_res s (resample_flush (res s)) in
          let s := if is_playing s
                   then set_cache s (Some (Cache.cache_unlock c)) else s in
          Some (set_played s 0)
      end
  end.

(** output_alsa_write_stream. *)
Definition output_alsa_write_stream (h : output) (s : output_stream)
    (buf : list sample) (count : Z) (fmt : a_format)
    : Z * output_stream :=
  let ret := 0 in
  if negb (abort s) then
    let '(ret, r, c) := resample_write (res s) (cache s) buf count fmt in
    (ret, set_cache (set_res s r) c)
  else (ret, s).

(** output_alsa_set_volume_stream / output_alsa_get_volume_stream. *)
Definition output_alsa_set_volume_stream (h : output) (s : output_stream)
    (volume : Z) : Z * output_stream :=
  (0, set_s_volume s volume).

Definition output_alsa_get_volume_stream (h : output) (s : output_stream)
    : Z :=
  s_volume s.

(** output_alsa_set_cache_stream. *)
Definition output_alsa_set_cache_stream (h : output) (s : output_stream)
    (cache_ms : Z) : Z * output_stream :=
  let '(ret, c) := cache_set_time (cache s) cache_ms in
  let s := set_cache s c in
  (ret, if ret =? 0 then set_delay s cache_ms else s).

(** Whether output_alsa_get_status_stream hands the stream's cache
    pointer to cache_is_ready or cache_get_filling, which dereference
    it. *)
Definition status_reads_cache (s : output_stream)
    (key : output_stream_key) : bool :=
  match key with
  | OUTPUT_STREAM_CACHE_STATUS | OUTPUT_STREAM_CACHE_FILLING => delay s >? 0
  | _ => false
  end.

(** output_alsa_get_status_stream.  The divisions are those of C on
    unsigned operands; a zero samplerate or channel count is undefined
    there, and [Z.div] then yields 0.  With a NULL cache pointer the
    call has a value only when [status_reads_cache] is false; what is
    written for [None] under the two cache keys stands for no value of
    the code. *)
Definition output_alsa_get_status_stream (h : output) (s : output_stream)
    (key : output_stream_key) : Z :=
  match key with
  | OUTPUT_STREAM_STATUS =>
      if end_of_stream s then STREAM_ENDED
      else if is_playing s then STREAM_PLAYING
      else STREAM_PAUSED
  | OUTPUT_STREAM_PLAYED =>
      ulong (played s * 1000) / o_samplerate h / o_channels h
  | OUTPUT_STREAM_CACHE_STATUS =>
      if (delay s >? 0)
         && match cache s with
            | Some c => negb (Cache.cache_is_ready c)
            | None => false
            end
      then CACHE_BUFFERING else CACHE_READY
  | OUTPUT_STREAM_CACHE_FILLING =>
      if delay s >? 0
      then match cache s with
           | Some c => Cache.cache_get_filling c
           | None => 0
           end
      else 100
  | OUTPUT_STREAM_CACHE_DELAY => cache_delay (cache s)
  end.

(** output_alsa_set_stream_event_cb. *)
Definition output_alsa_set_stream_event_cb (h : output)
    (s : output_stream) (cb : bool) (user_data : Z) : Z * output_stream :=
  (0, set_event_ud (set_event_cb s cb) user_data).

(** output_alsa_abort_stream; [None] when cache_lock waits (or the
    cache pointer is NULL). *)
Definition output_alsa_abort_stream (h : output) (s : output_stream)
    : option (Z * output_stream) :=
  let s := set_is_playing s false in
  let s := set_abort s true in
  match cache s with
  | None => None
  | Some c =>
      match Cache.cache_lock c with
      | None => None
      | Some c =>
          let s := set_cache s (Some c) in
          let played :=
            ulong (played s * 1000) / o_samplerate h / o_channels h in
          let played := ulong (played + cache_delay (cache s)) in
          let played := ulong (played + resample_delay (res s)) in
          Some (played, s)
      end
  end.

(** output_alsa_restore_stream. *)
Definition output_alsa_restore_stream (h : output) (s : output_stream)
    (value : Z) : output_stream :=
  set_played s
    (ulong (ulong (ulong value * o_samplerate h) * o_channels h) / 1000).

(** *** The mixer (integer samples: USE_FLOAT is not defined) *)

(** output_alsa_vol. *)
Definition output_alsa_vol (x : Z) (v : Z) : Z :=
  let value := Z.quot (int64 (x * v)) OUTPUT_VOLUME_MAX in
  int32 value.

(** output_alsa_add. *)
Definition output_alsa_add (a b : Z) : Z :=
  let sum := int64 (a + b) in
  let sum :=
    if sum >? 2147483647 then 2147483647
    else if sum <? -2147483648 then -2147483648
    else sum in
  int32 sum.

(** The loop of the first contributing stream:
    for (i = 0; i < in_size; i++) p_out[i] = vol(p_in[i]).
    Both buffers hold at least [in_size] samples in the source; the loop
    stops here where a list ends. *)
Fixpoint mix_first (v : Z) (in_size : nat) (p_in p_out : list sample)
    : list sample :=
  match in_size, p_in, p_out with
  | S n, x :: p_in, _ :: p_out =>
      output_alsa_vol x v :: mix_first v n p_in p_out
  | _, _, _ => p_out
  end.

(** The loop of every further stream:
    for (i = 0; i < in_size; i++) p_out[i] = add(p_out[i], vol(p_in[i])). *)
Fixpoint mix_add (v : Z) (in_size : nat) (p_in p_out : list sample)
    : list sample :=
  match in_size, p_in, p_out with
  | S n, x :: p_in, y :: p_out =>
      output_alsa_add y (output_alsa_vol x v) :: mix_add v n p_in p_out
  | _, _, _ => p_out
  end.

(** The locals of output_alsa_mix_streams and its two buffers, with
    the log of the event callbacks called so far. *)
Record mix_locals := {
  in_buffer : list sample;
  out_buffer : list sample;
  fmt : a_format;
  out_size : Z;
  first : bool;
  events : event_log
}.

Definition emit (s : output_stream) (e : stream_event) (m : mix_locals)
    : mix_locals :=
  {| in_buffer := in_buffer m; out_buffer := out_buffer m; fmt := fmt m;
     out_size := out_size m; first := first m;
     events := events m ++ [(event_ud s, e)] |}.

(** The body of the loop over the streams. *)
Definition mix_stream (len : Z) (s : output_stream) (m : mix_locals)
    : output_stream * mix_locals :=
  if negb (is_playing s) || end_of_stream s then (s, m)
  else
    let r := Cache.cache_read (cache s) (in_buffer m) len (fmt m) in
    let s := set_cache s (Cache.r_cache r) in
    let m := {| in_buffer := Cache.r_buffer r; out_buffer := out_buffer m;
                fmt := Cache.r_fmt r; out_size := out_size m;
                first := first m; events := events m |} in
    let in_size := Cache.r_ret r in
    if in_size <=? 0 then
      if in_size <? 0 then
        let s := set_end_of_stream s true in
        let s := set_cache s None in
        let s := set_res s None in
        (s, if event_cb s then emit s STREAM_EVENT_END m else m)
      else if delay s >? 0 then
        let m := if event_cb s && (buffering s =? 0)
                 then emit s STREAM_EVENT_BUFFERING m else m in
        (set_buffering s 1, m)
      else (s, m)
    else
      let '(s, m) :=
        if (delay s >? 0) && (buffering s =? 1) then
          (set_buffering s 0,
           if event_cb s then emit s STREAM_EVENT_READY m else m)
        else (s, m) in
      let s := set_played s (ulong (played s + in_size)) in
      let p_out :=
        if first m
        then mix_first (s_volume s) (Z.to_nat in_size)
               (in_buffer m) (out_buffer m)
        else mix_add (s_volume s) (Z.to_nat in_size)
               (in_buffer m) (out_buffer m) in
      (* if(out_size < in_size);  guards an empty statement *)
      let _ := out_size m <? in_size in
      (s, {| in_buffer := in_buffer m; out_buffer := p_out; fmt := fmt m;
             out_size := in_size; first := false; events := events m |}).

(** for (s = h->streams; s != NULL; s = s->next) *)
Fixpoint mix_loop (len : Z) (ss : list output_stream) (m : mix_locals)
    : list output_stream * mix_locals :=
  match ss with
  | [] => ([], m)
  | s :: rest =>
      let '(s, m) := mix_stream len s m in
      let '(rest, m) := mix_loop len rest m in
      (s :: rest, m)
  end.

(** output_alsa_mix_streams: the return value, with the output, the
    two buffers and the events of this call. *)
Record mix_result := {
  m_ret : Z;
  m_output : output;
  m_in_buffer : list sample;
  m_out_buffer : list sample;
  m_events : event_log
}.

Definition output_alsa_mix_streams (h : output)
    (in_buf out_buf : list sample) (len : Z) : mix_result :=
  let m := {| in_buffer := in_buf; out_buffer := out_buf;
              fmt := A_FORMAT_INIT; out_size := 0; first := true;
              events := [] |} in
  let '(ss, m) := mix_loop len (streams h) m in
  {| m_ret := out_size m; m_output := set_streams h ss;
     m_in_buffer := in_buffer m; m_out_buffer := out_buffer m;
     m_events := events m |}.

(** *** Sequences of calls on one stream *)

(** The calls that reach one stream: the API functions, one passage of
    the mixer's loop over the stream (with the locals the mixer has at
    that point), and one iteration of the producer thread of the
    stream's cache. *)
Inductive stream_call :=
| PlayStream
| PauseStream
| FlushStream
| WriteStream (buf : list sample) (count : Z) (fmt : a_format)
| SetVolumeStream (volume : Z)
| SetCacheStream (cache_ms : Z)
| SetStreamEventCb (cb : bool) (user_data : Z)
| GetStatusStream (key : output_stream_key)
| AbortStream
| RestoreStream (value : Z)
| MixStream (len : Z) (m : mix_locals)
| ProducerStep (t : Cache.thread_locals).

(** The stream after a call; [None] when the call waits for a lock, or
    hands a NULL cache pointer to a function of the cache that
    dereferences it (play_stream, flush_stream, abort_stream, and
    get_status_stream under the cache keys). *)
Definition call (h : output) (s : output_stream) (c : stream_call)
    : option output_stream :=
  match c with
  | PlayStream => option_map snd (output_alsa_play_stream h s)
  | PauseStream => Some (snd (output_alsa_pause_stream h s))
  | FlushStream => output_alsa_flush_stream h s
  | WriteStream buf count fmt =>
      Some (snd (output_alsa_write_stream h s buf count fmt))
  | SetVolumeStream v => Some (snd (output_alsa_set_volume_stream h s v))
  | SetCacheStream ms => Some (snd (output_alsa_set_cache_stream h s ms))
  | SetStreamEventCb cb ud =>
      Some (snd (output_alsa_set_stream_event_cb h s cb ud))
  | GetStatusStream key =>
      match cache s with
      | None => if status_reads_cache s key then None else Some s
      | Some _ => Some s
      end
  | AbortStream => option_map snd (output_alsa_abort_stream h s)
  | RestoreStream v => Some (output_alsa_restore_stream h s v)
  | MixStream len m => Some (fst (mix_stream len s m))
  | ProducerStep t =>
      match cache s with
      | None => Some s
      | Some c =>
          match Cache.cache_read_thread c t with
          | Cache.Blocked => None
          | Cache.Exited c => Some (set_cache s (Some c))
          | Cache.Continue c _ => Some (set_cache s (Some c))
          end
      end
  end.

Fixpoint calls (h : output) (s : output_stream) (cs : list stream_call)
    : option output_stream :=
  match cs with
  | [] => Some s
  | c :: cs =>
      match call h s c with
      | None => None
      | Some s => calls h s cs
      end
  end.

(** *** The mixer coming back to one stream *)

(** What the mixer finds each time its loop reaches the stream: the
    cache as the producer and the API calls left it, and its own
    locals. *)
Definition visit : Type := option cache_handle * mix_locals.

(** The value cache_read returns on that visit. *)
Definition read_of (len : Z) (v : visit) : Z :=
  Cache.r_ret
    (Cache.cache_read (fst v) (in_buffer (snd v)) len (fmt (snd v))).

(** The stream after the visit and the events the visit emitted. *)
Definition mix_visit (len : Z) (s : output_stream) (v : visit)
    : output_stream * event_log :=
  let m := {| in_buffer := in_buffer (snd v);
              out_buffer := out_buffer (snd v); fmt := fmt (snd v);
              out_size := out_size (snd v); first := first (snd v);
              events := [] |} in
  let '(s, m) := mix_stream len (set_cache s (fst v)) m in
  (s, events m).

Fixpoint mix_visits (len : Z) (s : output_stream) (vs : list visit)
    : list event_log :=
  match vs with
  | [] => []
  | v :: vs =>
      let '(s, ev) := mix_visit len s v in
      ev :: mix_visits len s vs
  end.

End WithExternals.

Arguments res {U R}.
Arguments call {U R}.
Arguments calls {U R}.
Arguments read_of {U}.
Arguments mix_visit {U R}.
Arguments mix_visits {U R}.
Arguments s_samplerate {U R}.
Arguments s_channels {U R}.
Arguments is_playing {U R}.
Arguments end_of_stream {U R}.
Arguments played {U R}.
Arguments abort {U R}.
Arguments s_volume {U R}.
Arguments cache {U R}.
Arguments delay {U R}.
Arguments event_cb {U R}.
Arguments event_ud {U R}.
Arguments buffering {U R}.
Arguments set_res {U R}.
Arguments set_s_samplerate {U R}.
Arguments set_s_channels {U R}.
Arguments set_is_playing {U R}.
Arguments set_end_of_stream {U R}.
Arguments set_played {U R}.
Arguments set_abort {U R}.
Arguments set_s_volume {U R}.
Arguments set_cache {U R}.
Arguments set_delay {U R}.
Arguments set_event_cb {U R}.
Arguments set_event_ud {U R}.
Arguments set_buffering {U R}.
Arguments o_samplerate {U R}.
Arguments o_channels {U R}.
Arguments o_volume {U R}.
Arguments o_stop {U R}.
Arguments streams {U R}.
Arguments set_o_volume {U R}.
Arguments set_streams {U R}.
Arguments output_alsa_add_stream {U R}.
Arguments output_alsa_play_stream {U R}.
Arguments output_alsa_pause_stream {U R}.
Arguments output_alsa_flush_stream {U R}.
Arguments output_alsa_write_stream {U R}.
Arguments output_alsa_set_volume_stream {U R}.
Arguments output_alsa_get_volume_stream {U R}.
Arguments output_alsa_set_cache_stream {U R}.
Arguments output_alsa_get_status_stream {U R}.
Arguments output_alsa_set_stream_event_cb {U R}.
Arguments output_alsa_abort_stream {U R}.
Arguments output_alsa_restore_stream {U R}.
Arguments emit {U R}.
Arguments mix_stream {U R}.
Arguments mix_loop {U R}.
Arguments output_alsa_mix_streams {U R}.
Arguments m_ret {U R}.
Arguments m_output {U R}.
Arguments m_in_buffer {U R}.
Arguments m_out_buffer {U R}.
Arguments m_events {U R}.
Arguments Build_output_stream {U R}.
Arguments Build_output {U R}.
Arguments unlock_cache {U}.
Arguments status_reads_cache {U R}.


(** The events a visit owes: a read of no frames while the stream was
    delivering is the edge into buffering, a read of frames while it was
    not is the edge back. *)
Definition edge_events (ud : Z) (was_delivering : bool) (r : Z)
    : list (Z * stream_event) :=
  if (r =? 0) && was_delivering then [(ud, STREAM_EVENT_BUFFERING)]
  else if (0 <? r) && negb was_delivering then [(ud, STREAM_EVENT_READY)]
  else [].

(** The stream [s] is played, has the cache delay, the callback and the
    callback data of [s0], and its [buffering] flag is clear exactly when
    it was delivering. *)
Definition tracks {U R : Type} (s0 s : output_stream U R)
    (was_delivering : bool) : Prop :=
  is_playing s = true /\ end_of_stream s = false
  /\ delay s = delay s0 /\ event_cb s = true /\ event_ud s = event_ud s0
  /\ buffering s = if was_delivering then 0 else 1.

(** Whether the stream was delivering data when visit [i] began: the
    read of the visit before returned frames; [initially] for the first
    visit. *)
Definition delivering (initially : bool) (reads : list Z) (i : nat) : bool :=
  match i with
  | O => initially
  | S j => 0 <? nth j reads 0
  end.

(** The events visit [i] owes, from the values the reads returned: nothing
    once a read has been negative, STREAM_EVENT_END for the first negative
    read, the edge events otherwise. *)
Definition visit_events (ud : Z) (initially : bool) (reads : list Z) (i : nat)
    : list (Z * stream_event) :=
  if forallb (fun r => 0 <=? r) (firstn i reads) then
    if nth i reads 0 <? 0 then [(ud, STREAM_EVENT_END)]
    else edge_events ud (delivering initially reads i) (nth i reads 0)
  else [].

(** No STREAM_EVENT_BUFFERING follows another one without a
    STREAM_EVENT_READY in between; [buffering] says that the last of the
    two seen so far was a BUFFERING. *)
Fixpoint no_double_buffering (buffering : bool) (l : list stream_event)
    : bool :=
  match l with
  | [] => true
  | STREAM_EVENT_BUFFERING :: l =>
      negb buffering && no_double_buffering true l
  | STREAM_EVENT_READY :: l => no_double_buffering false l
  | STREAM_EVENT_END :: l => no_double_buffering buffering l
  end.

End Output.

(** ** Sequences of calls on one cache *)

Module CacheCalls.

Import Cache.

Section WithUserData.

Variable U : Type.

(** What can happen to a cache between its opening and its closing: the
    consumer reads, a caller flushes, locks or unlocks, and the producer
    thread runs an iteration with the locals it has at that point. *)
Inductive cache_call :=
| DoRead (buf : list sample) (count : Z) (fmt : a_format)
| DoFlush
| DoLock
| DoUnlock
| DoThread (t : thread_locals).

(** The handle after a call; [None] when the call waits for
    [input_lock]. *)
Definition cache_step (h : cache_handle U) (c : cache_call)
    : option (cache_handle U) :=
  match c with
  | DoRead buf count fmt => r_cache (cache_read (Some h) buf count fmt)
  | DoFlush => cache_flush h
  | DoLock => cache_lock h
  | DoUnlock => Some (cache_unlock h)
  | DoThread t =>
      match cache_read_thread h t with
      | Blocked => None
      | Exited h => Some h
      | Continue h _ => Some h
      end
  end.

Fixpoint cache_run (h : cache_handle U) (cs : list cache_call)
    : option (cache_handle U) :=
  match cs with
  | [] => Some h
  | c :: cs =>
      match cache_step h c with
      | None => None
      | Some h => cache_run h cs
      end
  end.

(** The count of a read is a size_t. *)
Definition call_in_range (c : cache_call) : Prop :=
  match c with
  | DoRead _ count _ => 0 <= count
  | _ => True
  end.

(** What no call changes: the callback, the capacity and the mode. *)
Definition same_cache (h0 h : cache_handle U) : Prop :=
  input_callback h = input_callback h0 /\ size h = size h0
  /\ use_thread h = use_thread h0.

(** [n] calls of cache_read in a row, each with the same arguments; the
    values they return and the handle they leave. *)
Fixpoint cache_reads (n : nat) (h : cache_handle U) (buf : list sample)
    (count : Z) (fmt : a_format) : list Z * option (cache_handle U) :=
  match n with
  | O => ([], Some h)
  | S n =>
      let r := cache_read (Some h) buf count fmt in
      match r_cache r with
      | None => ([r_ret r], None)
      | Some h =>
          let '(rets, h) := cache_reads n h buf count fmt in
          (r_ret r :: rets, h)
      end
  end.

End WithUserData.

Arguments cache_step {U}.
Arguments cache_run {U}.
Arguments cache_reads {U}.
Arguments same_cache {U}.

End CacheCalls.

(** ** The output handle and its writer thread
       (src/outputs/output_alsa.c) *)

Module OutputThread.

Import Output.

(** The calls the thread makes on the ALSA device and on libc, in the
    order it makes them. *)
Inductive pcm_call :=
| usleep (usec : Z)
| snd_pcm_drain
| snd_pcm_prepare
| snd_pcm_writei (buf : list sample) (frames : Z)
| snd_pcm_recover (err : Z)
| printf_failed
| printf_short (expected wrote : Z).

(** memset(buf, 0, n * 4) on a buffer of at least [n] words. *)
Definition memset_zero (buf : list sample) (n : Z) : list sample :=
  repeat 0 (Nat.min (Z.to_nat n) (length buf)) ++ skipn (Z.to_nat n) buf.

(** The locals of output_alsa_thread that live across iterations. *)
Record thread_vars := {
  w_in_buffer : list sample;
  w_out_buffer : list sample;
  start : Z;
  stopped : bool
}.

(** The locals when the loop is entered; the two buffers are fresh
    allocations of BUFFER_SIZE words. *)
Definition thread_entry (in_buf out_buf : list sample) : thread_vars :=
  {| w_in_buffer := in_buf; w_out_buffer := out_buf; start := 0;
     stopped := true |}.

(** What the outside world answers during one iteration: the value of
    time() where [start] is set and where the silence is measured, the
    value snd_pcm_writei returns and the value snd_pcm_recover returns. *)
Record answers := {
  now_start : Z;
  now_check : Z;
  writei_ret : Z;
  recover_ret : Z
}.

Definition set_start (v : thread_vars) (t : Z) : thread_vars :=
  {| w_in_buffer := w_in_buffer v; w_out_buffer := w_out_buffer v;
     start := t; stopped := stopped v |}.

Definition set_stopped (v : thread_vars) (b : bool) : thread_vars :=
  {| w_in_buffer := w_in_buffer v; w_out_buffer := w_out_buffer v;
     start := start v; stopped := b |}.

Definition set_w_out_buffer (v : thread_vars) (buf : list sample)
    : thread_vars :=
  {| w_in_buffer := w_in_buffer v; w_out_buffer := buf;
     start := start v; stopped := stopped v |}.

(** Whether every snd_pcm_writei of a sequence of calls comes after a
    snd_pcm_prepare with no snd_pcm_drain in between; [prepared] says so
    for the calls made before. *)
Fixpoint writes_prepared (prepared : bool) (calls : list pcm_call) : bool :=
  match calls with
  | [] => true
  | snd_pcm_prepare :: calls => writes_prepared true calls
  | snd_pcm_drain :: calls => writes_prepared false calls
  | snd_pcm_writei _ _ :: calls => prepared && writes_prepared prepared calls
  | _ :: calls => writes_prepared prepared calls
  end.

Section WithExternals.

Variables U R : Type.
Variable OUTPUT_VOLUME_MAX : Z.

(** output_alsa_open, without the device: the three arguments after the
    latency are what snd_pcm_open, snd_pcm_set_params and pthread_create
    return.  The result is the return value, the handle (allocated and
    written before the device is opened) and the latency in microseconds
    handed to snd_pcm_set_params, when it is called. *)
Definition output_alsa_open (samplerate channels latency : Z)
    (snd_pcm_open_ret snd_pcm_set_params_ret pthread_create_ret : Z)
    : Z * output U R * option Z :=
  let h := {| o_samplerate := samplerate; o_channels := channels;
              o_volume := OUTPUT_VOLUME_MAX; o_stop := false;
              streams := [] |} in
  if snd_pcm_open_ret <? 0 then (-1, h, None)
  else
    let latency := if latency <? MIN_LATENCY then MIN_LATENCY else latency in
    let usec := uint (latency * 1000) in
    if snd_pcm_set_params_ret <? 0 then (-1, h, Some usec)
    else if negb (pthread_create_ret =? 0) then (-1, h, Some usec)
    else (0, h, Some usec).

(** output_alsa_set_volume / output_alsa_get_volume. *)
Definition output_alsa_set_volume (h : output U R) (volume : Z)
    : Z * output U R :=
  (0, set_o_volume h volume).

Definition output_alsa_get_volume (h : output U R) : Z := o_volume h.

(** What one iteration of the loop of output_alsa_thread leaves: the
    output, the locals, the calls made, the stream events of the mixing,
    and whether the loop was left by [break]. *)
Record iteration := {
  it_output : output U R;
  it_vars : thread_vars;
  it_calls : list pcm_call;
  it_events : event_log;
  it_break : bool
}.

(** The body of the loop.  The count returned by the mixer is divided by
    the channel count as C divides ints; a channel count of zero is
    undefined there. *)
Definition output_alsa_thread_body (h : output U R) (v : thread_vars)
    (a : answers) : iteration :=
  let in_size := BUFFER_SIZE in
  let r := output_alsa_mix_streams OUTPUT_VOLUME_MAX h
             (w_in_buffer v) (w_out_buffer v) in_size in
  let h := m_output r in
  let v := {| w_in_buffer := m_in_buffer r; w_out_buffer := m_out_buffer r;
              start := start v; stopped := stopped v |} in
  let leave (v : thread_vars) (calls : list pcm_call) (brk : bool) :=
    {| it_output := h; it_vars := v; it_calls := calls;
       it_events := m_events r; it_break := brk |} in
  let play (v : thread_vars) (calls : list pcm_call) (out_size : Z) :=
    let calls := calls ++ [snd_pcm_writei (w_out_buffer v) out_size] in
    let frames := writei_ret a in
    let '(frames, calls) :=
      if frames <? 0
      then (recover_ret a, calls ++ [snd_pcm_recover frames])
      else (frames, calls) in
    if frames <? 0 then leave v (calls ++ [printf_failed]) true
    else if (0 <? frames) && (frames <? out_size)
    then leave v (calls ++ [printf_short out_size frames]) false
    else leave v calls false in
  let out_size := Z.quot (m_ret r) (o_channels h) in
  if out_size =? 0 then
    if stopped v then leave v [usleep (MIN_LATENCY * 1000)] false
    else
      let v := if start v =? 0 then set_start v (now_start a) else v in
      if now_check a - start v >? MAX_SILENCE then
        leave (set_stopped v true) [snd_pcm_drain] false
      else
        let v := set_w_out_buffer v (memset_zero (w_out_buffer v) in_size) in
        play v [] (Z.quot in_size (o_channels h))
  else if stopped v then
    play (set_start (set_stopped v false) 0) [snd_pcm_prepare] out_size
  else play v [] out_size.

(** The loop, for as many iterations as the list is long: each element
    is the output as the API callers and the producers left it when the
    iteration starts, and the answers of the outside world.  Returns the
    calls made and the locals. *)
Fixpoint output_alsa_thread (v : thread_vars)
    (its : list (output U R * answers)) : list pcm_call * thread_vars :=
  match its with
  | [] => ([], v)
  | (h, a) :: its =>
      if o_stop h then ([], v)
      else
        let r := output_alsa_thread_body h v a in
        if it_break r then (it_calls r, it_vars r)
        else
          let '(calls, v) := output_alsa_thread (it_vars r) its in
          (it_calls r ++ calls, v)
  end.

End WithExternals.

Arguments output_alsa_set_volume {U R}.
Arguments output_alsa_get_volume {U R}.
Arguments it_output {U R}.
Arguments it_vars {U R}.
Arguments it_calls {U R}.
Arguments it_events {U R}.
Arguments it_break {U R}.
Arguments output_alsa_thread_body {U R}.
Arguments output_alsa_thread {U R}.

(** A stream the mixer passes over. *)
Definition passed_over {U R : Type} (s : output_stream U R) : bool :=
  negb (is_playing s) || end_of_stream s.

End OutputThread.

(** ** Removing a stream from the list *)

Module OutputStreams.

Import Output.

Section WithStreams.

Variables U R : Type.

(** The loop of output_alsa_remove_stream over the list.  The pointer
    [s] is the node at position [i] of the list, or no node of the list
    when [i] is past its end; [cur] is the node the loop looks at. *)
Fixpoint unlink (cur : list (output_stream U R)) (i : nat)
    : list (output_stream U R) :=
  match cur with
  | [] => []
  | c :: next =>
      match i with
      | O => next                       (* s == cur *)
      | S i => c :: unlink next i
      end
  end.

(** output_alsa_remove_stream.  The stream is freed afterwards, whether
    the loop found it or not. *)
Definition output_alsa_remove_stream (h : output U R) (i : nat)
    : Z * output U R :=
  (0, set_streams h (unlink (streams h) i)).

End WithStreams.

Arguments unlink {U R}.
Arguments output_alsa_remove_stream {U R}.

(** A stream whose cache, when it has one, is consistent and small
    enough for the int that cache_read returns. *)
Definition sound {U R : Type} (s : output_stream U R) : Prop :=
  forall c, cache s = Some c ->
            Cache.cache_inv c /\ Cache.size c <= INT32_MAX.

(** An iteration of the thread that finds the output running and no
    stream to read: every stream is paused or ended. *)
Definition idle {U R : Type} (ha : output U R * OutputThread.answers)
    : Prop :=
  o_stop (fst ha) = false
  /\ forallb OutputThread.passed_over (streams (fst ha)) = true.

(** A call that hands the device at most the samples its buffer holds,
    for [channels] samples per frame. *)
Definition within_buffer (channels : Z) (c : OutputThread.pcm_call)
    : Prop :=
  match c with
  | OutputThread.snd_pcm_writei buf frames =>
      0 <= frames /\ frames * channels <= Z.of_nat (length buf)
  | _ => True
  end.

End OutputStreams.

(** ** Concrete caches and streams used to run the definitions *)

Module Examples.

(** An input callback at end of stream. *)
Definition cb_eos : Cache.a_read_cb unit :=
  fun u _ f => ({| Cache.cb_ret := -1; Cache.cb_data := [];
                   Cache.cb_fmt := f |}, u).

(** A threaded cache of [size] frames as cache_open leaves it. *)
Definition fresh (size : Z) (use_thread : bool) : Cache.cache_handle unit :=
  {| Cache.use_thread := use_thread; Cache.input_callback := cb_eos;
     Cache.user_data := tt; Cache.buffer := []; Cache.size := size;
     Cache.len := 0; Cache.pos := 0; Cache.is_ready := false;
     Cache.fmt_list := []; Cache.fmt_len := 0; Cache.input_lock := false;
     Cache.flush := false; Cache.stop := false |}.

Definition cd : a_format := {| samplerate := 44100; channels := 2 |}.
Definition dat : a_format := {| samplerate := 48000; channels := 2 |}.

(** A threaded cache of two frames after one batch of one frame. *)
Definition half : Cache.cache_handle unit :=
  fst (Cache.cache_store (fresh 2 true) [7] cd).

(** A pull-mode cache of four frames that a refill has filled. *)
Definition pull_full : Cache.cache_handle unit :=
  Cache.cache_append (fresh 4 false) [1; 2; 3; 4] 4 cd.

(** A threaded cache of five frames: three stored under [cd], then two
    under [dat] (the last batch brings one frame too many). *)
Definition two_formats : Cache.cache_handle unit :=
  Cache.produce (Cache.produce (fresh 5 true) cd [[1; 2]; [3]])
    dat [[4]; [5; 6]].

(** The value used for OUTPUT_VOLUME_MAX when the mixer is run. *)
Definition OUTPUT_VOLUME_MAX : Z := 65535.

(** Threaded caches filled to their size by one batch. *)
Definition full4 : Cache.cache_handle unit :=
  fst (Cache.cache_store (fresh 4 true) [10; 20; 30; 40] cd).

Definition full2 : Cache.cache_handle unit :=
  fst (Cache.cache_store (fresh 2 true) [1; 2] cd).

Definition loud : Cache.cache_handle unit :=
  fst (Cache.cache_store (fresh 2 true) [INT32_MAX; INT32_MAX] cd).

(** A playing stream at full volume on the cache [c], with an event
    callback registered. *)
Definition stream (c : Cache.cache_handle unit) (delay_ms : Z)
    : Output.output_stream unit unit :=
  {| Output.res := Some tt; Output.s_samplerate := 44100;
     Output.s_channels := 2; Output.is_playing := true;
     Output.end_of_stream := false; Output.played := 0;
     Output.abort := false; Output.s_volume := OUTPUT_VOLUME_MAX;
     Output.cache := Some c; Output.delay := delay_ms;
     Output.event_cb := true; Output.event_ud := 1;
     Output.buffering := 0 |}.

(** An output at 44100 Hz, stereo. *)
Definition out (ss : list (Output.output_stream unit unit))
    : Output.output unit unit :=
  {| Output.o_samplerate := 44100; Output.o_channels := 2;
     Output.o_volume := OUTPUT_VOLUME_MAX; Output.o_stop := false;
     Output.streams := ss |}.

(** Stand-ins for the functions of the resampler and of the newer cache. *)
Definition resample_write (r : option unit)
    (c : option (Cache.cache_handle unit)) (buf : list sample) (count : Z)
    (fmt : a_format) : Z * option unit * option (Cache.cache_handle unit) :=
  (count, r, c).

Definition resample_flush (r : option unit) : option unit := r.

Definition resample_delay (r : option unit) : Z := 0.

Definition cache_delay (c : option (Cache.cache_handle unit)) : Z := 0.

Definition cache_set_time (c : option (Cache.cache_handle unit)) (ms : Z)
    : Z * option (Cache.cache_handle unit) :=
  (0, c).

(** An input callback that delivers up to two frames under [cd] at each
    call. *)
Definition cb_pair : Cache.a_read_cb unit :=
  fun u n f => ({| Cache.cb_ret := Z.min n 2;
                   Cache.cb_data := firstn (Z.to_nat n) [5; 6];
                   Cache.cb_fmt := cd |}, u).

(** A cache of [size] frames as cache_open leaves it on the callback
    [cb]. *)
Definition opened (cb : Cache.a_read_cb unit) (size : Z)
    (use_thread : bool) : Cache.cache_handle unit :=
  {| Cache.use_thread := use_thread; Cache.input_callback := cb;
     Cache.user_data := tt; Cache.buffer := []; Cache.size := size;
     Cache.len := 0; Cache.pos := 0; Cache.is_ready := false;
     Cache.fmt_list := []; Cache.fmt_len := 0; Cache.input_lock := false;
     Cache.flush := false; Cache.stop := false |}.

(** The stream [stream c delay_ms] while it is paused. *)
Definition paused (c : Cache.cache_handle unit) (delay_ms : Z)
    : Output.output_stream unit unit :=
  Output.set_is_playing (stream c delay_ms) false.

(** A buffer of BUFFER_SIZE samples as the output thread allocates it,
    here cleared. *)
Definition zeros : list sample := repeat 0 (Z.to_nat Output.BUFFER_SIZE).

(** The locals of the output thread when its loop is entered, and while
    the device runs with the silence timer at [t0]. *)
Definition entry : OutputThread.thread_vars :=
  OutputThread.thread_entry zeros zeros.

Definition running (t0 : Z) : OutputThread.thread_vars :=
  {| OutputThread.w_in_buffer := zeros; OutputThread.w_out_buffer := zeros;
     OutputThread.start := t0; OutputThread.stopped := false |}.

(** The outside world at time [now], with a device that answers [ret] to
    snd_pcm_writei and to snd_pcm_recover. *)
Definition answer (now ret : Z) : OutputThread.answers :=
  {| OutputThread.now_start := now; OutputThread.now_check := now;
     OutputThread.writei_ret := ret; OutputThread.recover_ret := ret |}.

(** An input callback that follows a script.  Its user data counts the
    calls; call [i] delivers the frames of entry [i] under the format of
    that entry, or leaves the format it was given alone when the entry
    has none; after the script it delivers nothing.  The entries are
    shorter than the counts the cache asks for. *)
Definition cb_script (script : list (list sample * option a_format))
    : Cache.a_read_cb nat :=
  fun u n f =>
    match nth_error script u with
    | Some (data, g) =>
        ({| Cache.cb_ret := Z.of_nat (length data); Cache.cb_data := data;
            Cache.cb_fmt := match g with Some g => g | None => f end |},
         S u)
    | None =>
        ({| Cache.cb_ret := 0; Cache.cb_data := []; Cache.cb_fmt := f |},
         S u)
    end.

(** A threaded cache of [size] frames just opened on a script. *)
Definition scripted (size : Z)
    (script : list (list sample * option a_format))
    : Cache.cache_handle nat :=
  {| Cache.use_thread := true; Cache.input_callback := cb_script script;
     Cache.user_data := O; Cache.buffer := []; Cache.size := size;
     Cache.len := 0; Cache.pos := 0; Cache.is_ready := false;
     Cache.fmt_list := []; Cache.fmt_len := 0; Cache.input_lock := false;
     Cache.flush := false; Cache.stop := false |}.

(** [n] iterations of the producer thread, as long as they complete. *)
Fixpoint iterations (n : nat) (h : Cache.cache_handle nat)
    (t : Cache.thread_locals) : Cache.cache_handle nat * Cache.thread_locals :=
  match n with
  | O => (h, t)
  | S n =>
      match Cache.cache_read_thread h t with
      | Cache.Continue h t => iterations n h t
      | _ => (h, t)
      end
  end.

(** The mixer's locals at the start of a passage. *)
Definition locals : Output.mix_locals :=
  {| Output.in_buffer := [0; 0; 0; 0]; Output.out_buffer := [0; 0; 0; 0];
     Output.fmt := A_FORMAT_INIT; Output.out_size := 0;
     Output.first := true; Output.events := [] |}.

End Examples.

(** * Properties *)

(** ** C integer conversions *)

Module CIntFacts.

Lemma ulong_small z : 0 <= z < 2 ^ 64 -> ulong z = z.
Proof. intros H. unfold ulong. now apply Z.mod_small. Qed.

Lemma ulong_range z : 0 <= ulong z < 2 ^ 64.
Proof. unfold ulong. apply Z.mod_pos_bound. lia. Qed.

Lemma int32_small z : in_int32 z -> int32 z = z.
Proof.
  unfold in_int32, INT32_MIN, INT32_MAX, int32. intros H.
  rewrite Z.mod_small; lia.
Qed.

Lemma int32_range z : in_int32 (int32 z).
Proof.
  unfold in_int32, INT32_MIN, INT32_MAX, int32.
  pose proof (Z.mod_pos_bound (z + 2 ^ 31) (2 ^ 32) ltac:(lia)). lia.
Qed.

Lemma int64_small z : - 2 ^ 63 <= z < 2 ^ 63 -> int64 z = z.
Proof. unfold int64. intros H. rewrite Z.mod_small; lia. Qed.

End CIntFacts.
Import CIntFacts.

(** ** The cache *)

Module CacheFacts.

Import Cache.

Lemma seg_sum_app l1 l2 : seg_sum (l1 ++ l2) = seg_sum l1 + seg_sum l2.
Proof. induction l1 as [|cf l1 IH]; simpl; lia. Qed.

Lemma seg_sum_nonneg l :
  Forall (fun cf => 0 <= cf_len cf) l -> 0 <= seg_sum l.
Proof. induction 1; simpl; lia. Qed.

Lemma Forall_tl_nonneg l :
  Forall (fun cf => 0 <= cf_len cf) l ->
  Forall (fun cf => 0 <= cf_len cf) (tl l).
Proof. destruct 1; [constructor | assumption]. Qed.

Lemma seg_sum_tl_snoc l cf :
  seg_sum (tl (l ++ [cf])) = match l with
                             | [] => 0
                             | _ => seg_sum (tl l) + cf_len cf
                             end.
Proof.
  destruct l as [|x l]; [reflexivity|]. cbn. rewrite seg_sum_app. cbn. lia.
Qed.

Lemma length_shift {A} (l : list A) (n m : Z) :
  0 <= n -> 0 <= m -> n + m = Z.of_nat (length l) ->
  Z.of_nat (length (firstn (Z.to_nat m) (skipn (Z.to_nat n) l))) = m.
Proof. intros Hn Hm H. rewrite length_firstn, length_skipn. lia. Qed.

Ltac open_handle h :=
  destruct h as [ut cb ud bufh sz ln ps rdy fl fln lk flsh stp];
  cbn [use_thread input_callback user_data buffer size len pos is_ready
       fmt_list fmt_len input_lock flush stop] in *.

Ltac hsimpl :=
  cbn [use_thread input_callback user_data buffer size len pos is_ready
       fmt_list fmt_len input_lock flush stop
       set_user_data set_buffer set_len set_is_ready set_fmt_list
       set_fmt_len set_input_lock set_flush set_stop
       cache_put_format cache_unlock] in *.

Ltac fin :=
  (split; [constructor|]); cbn;
  try lia; try assumption; try discriminate;
  try (apply length_shift; lia); try (repeat split; lia).

Section WithUserData.

Variable U : Type.
Implicit Types (h : cache_handle U) (buf : list sample) (fmt : a_format).

(** *** The consistency of a handle is kept by every operation *)

(** The locked section of cache_read: it takes [n] frames, not more
    than asked for and not more than there are. *)
Lemma cache_read_locked_inv h buf count fmt h1 buf1 fmt1 n :
  cache_inv h -> 0 <= count ->
  cache_read_locked h buf count fmt = (h1, buf1, fmt1, n) ->
  cache_inv h1 /\ 0 <= n <= count /\ n <= len h /\ len h1 = len h - n
  /\ size h1 = size h /\ input_lock h1 = input_lock h
  /\ use_thread h1 = use_thread h.
Proof.
  intros [Hsz Hlen Hbuf Hfl Hsegs Hsum Hempty Hready] Hcount.
  unfold cache_read_locked.
  open_handle h.
  destruct rdy.
  2:{ intros [= <- <- <- <-]. repeat split; cbn; try assumption; try lia. }
  specialize (Hready eq_refl).
  set (c := if count >? ln then ln else count).
  assert (Hc : 0 <= c <= count /\ c <= ln).
  { subst c. destruct (Z.gtb_spec count ln); lia. }
  clearbody c.
  destruct fl as [|f [|nx rest]].
  - specialize (Hempty eq_refl). lia.
  - cbn in *. specialize (Hsum ltac:(discriminate)).
    rewrite (ulong_small (ln - c)) by lia.
    rewrite (ulong_small (fln - c)) by lia.
    destruct (Z.eqb_spec (ln - c) 0); intros [= <- <- <- <-]; fin.
  - cbn in Hsum. specialize (Hsum ltac:(discriminate)).
    pose proof (Forall_inv (Forall_inv_tail Hsegs)) as Hnx.
    pose proof (seg_sum_nonneg _ (Forall_inv_tail (Forall_inv_tail Hsegs)))
      as Hrest.
    cbn in Hnx.
    destruct (Z.ltb_spec (cf_len nx) c) as [Hlt|Hge]; cbn.
    + unfold cf_sub. rewrite Z.sub_diag.
      rewrite (ulong_small (ln - cf_len nx)) by lia.
      destruct (Z.eqb_spec (ln - cf_len nx) 0);
        intros [= <- <- <- <-]; fin;
        (constructor;
         [ cbn; lia | exact (Forall_inv_tail (Forall_inv_tail Hsegs)) ]).
    + unfold cf_sub.
      rewrite (ulong_small (ln - c)) by lia.
      rewrite (ulong_small (cf_len nx - c)) by lia.
      destruct (Z.eqb_spec (ln - c) 0); intros [= <- <- <- <-]; fin.
      all: constructor;
        [ exact (Forall_inv Hsegs)
        | constructor;
          [ cbn; lia
          | exact (Forall_inv_tail (Forall_inv_tail Hsegs)) ] ].
Qed.

Lemma format_changed_nil h in_fmt :
  fmt_list h = [] -> format_changed h in_fmt = true.
Proof. unfold format_changed. now intros ->. Qed.

Lemma format_changed_false_nonempty h in_fmt :
  format_changed h in_fmt = false -> fmt_list h <> [].
Proof.
  intros H E. now rewrite (format_changed_nil h in_fmt E) in H.
Qed.

Lemma format_changed_frame h in_fmt b l :
  format_changed (set_len (set_buffer h b) l) in_fmt
  = format_changed h in_fmt.
Proof. reflexivity. Qed.

(** The statements shared by the producers, for [k] frames that fit. *)
Lemma cache_append_inv h data k in_fmt :
  cache_inv h ->
  0 <= k <= size h - len h ->
  Z.of_nat (length data) = k ->
  let h1 := cache_append h data k in_fmt in
  cache_inv h1 /\ len h1 = len h + k /\ size h1 = size h
  /\ input_lock h1 = input_lock h /\ use_thread h1 = use_thread h.
Proof.
  intros [Hsz Hlen Hbuf Hfl Hsegs Hsum Hempty Hready] Hk Hdata.
  unfold cache_append. rewrite format_changed_frame.
  destruct (format_changed h in_fmt) eqn:Ech; hsimpl;
    rewrite (ulong_small (len h + k)) by lia.
  - rewrite (ulong_small (0 + k)) by lia.
    destruct (Z.eqb_spec (len h + k) (size h));
      (split; [constructor|]); hsimpl; try lia; try tauto;
      try (rewrite length_app; lia);
      try (apply Forall_app; split;
           [assumption | constructor; [cbn; lia | constructor]]);
      try (intros E; destruct (app_cons_not_nil _ _ _ (eq_sym E)));
      try (intros _; rewrite seg_sum_tl_snoc;
           destruct (fmt_list h) eqn:El;
           [ specialize (Hempty eq_refl); lia
           | specialize (Hsum ltac:(discriminate)); cbn [cf_len]; lia ]).
    intros Hr. specialize (Hready Hr). lia.
  - pose proof (format_changed_false_nonempty _ _ Ech) as Hne.
    specialize (Hsum Hne).
    pose proof (seg_sum_nonneg _ (Forall_tl_nonneg _ Hsegs)) as Htl.
    rewrite (ulong_small (fmt_len h + k)) by lia.
    destruct (Z.eqb_spec (len h + k) (size h));
      (split; [constructor|]); hsimpl; try lia; try tauto;
      try (rewrite length_app; lia).
    intros Hr. specialize (Hready Hr). lia.
Qed.

(** The locked section of the producer thread. *)
Lemma cache_store_inv h staged in_fmt :
  cache_inv h ->
  cache_inv (fst (cache_store h staged in_fmt))
  /\ 0 <= snd (cache_store h staged in_fmt) <= Z.of_nat (length staged)
  /\ len (fst (cache_store h staged in_fmt))
     = len h + snd (cache_store h staged in_fmt)
  /\ size (fst (cache_store h staged in_fmt)) = size h.
Proof.
  intros Hinv. pose proof Hinv as [Hsz Hlen _ _ _ _ _ _].
  unfold cache_store. cbn [fst snd].
  set (k := if ulong (size h - len h) >? Z.of_nat (length staged)
            then Z.of_nat (length staged) else ulong (size h - len h)).
  assert (Hk : 0 <= k <= Z.of_nat (length staged) /\ k <= size h - len h).
  { subst k. rewrite (ulong_small (size h - len h)) by lia.
    destruct (Z.gtb_spec (size h - len h) (Z.of_nat (length staged)));
      lia. }
  clearbody k.
  assert (Hdata : Z.of_nat (length (firstn (Z.to_nat k) staged)) = k).
  { rewrite length_firstn. lia. }
  destruct (cache_append_inv h _ k in_fmt Hinv ltac:(lia) Hdata)
    as (H1 & H2 & H3 & _).
  split; [exact H1|]. split; [lia|]. split; [exact H2 | exact H3].
Qed.

(** cache_flush, when it obtains the lock. *)
Lemma cache_flush_inv h h1 :
  cache_inv h -> cache_flush h = Some h1 ->
  cache_inv h1 /\ len h1 = 0 /\ fmt_list h1 = [] /\ is_ready h1 = false
  /\ fmt_len h1 = fmt_len h /\ input_lock h1 = true.
Proof.
  intros [Hsz Hlen Hbuf Hfl Hsegs Hsum Hempty Hready].
  unfold cache_flush, cache_lock.
  destruct (input_lock h); [discriminate|].
  assert (Hfree : forall l, free_formats l = []).
  { induction l; [reflexivity | assumption]. }
  hsimpl. rewrite Hfree.
  destruct (use_thread h); intros [= <-];
    (split; [constructor|]); hsimpl; cbn; try lia; try tauto;
    try constructor; try discriminate; try congruence.
Qed.

(** *** cache_read *)

(** The locked section of cache_read on a cache that is not ready. *)
Lemma cache_read_locked_idle h buf count fmt :
  is_ready h = false ->
  cache_read_locked h buf count fmt = (h, buf, fmt, 0).
Proof. intros Hready. unfold cache_read_locked. now rewrite Hready. Qed.

(** C6: in threaded mode a cache_read that finds [is_ready] false
    returns 0, copies nothing into the caller's buffer (and leaves the
    caller's format alone), and leaves the whole handle, hence [len],
    the format list and [fmt_len], as it was. *)
Theorem cache_read_not_ready h buf count fmt :
  use_thread h = true ->
  is_ready h = false ->
  cache_read (Some h) buf count fmt
  = {| r_ret := 0; r_buffer := buf; r_fmt := fmt; r_cache := Some h |}.
Proof.
  intros Hthread Hready.
  unfold cache_read.
  rewrite (cache_read_locked_idle h buf count fmt Hready).
  rewrite Hthread. reflexivity.
Qed.

(** The shape of the handle after the producers' common statements. *)
Lemma cache_append_shape h data k in_fmt :
  cache_inv h ->
  0 <= k <= size h - len h ->
  let h1 := cache_append h data k in_fmt in
  buffer h1 = buffer h ++ data
  /\ (format_changed h in_fmt = true ->
      fmt_list h1
      = fmt_list h ++ [{| cf_fmt := in_fmt; cf_len := fmt_len h |}]
      /\ fmt_len h1 = k)
  /\ (format_changed h in_fmt = false ->
      fmt_list h1 = fmt_list h /\ fmt_len h1 = fmt_len h + k).
Proof.
  intros [Hsz Hlen Hbuf Hfl Hsegs Hsum Hempty Hready] Hk.
  unfold cache_append. rewrite format_changed_frame.
  destruct (format_changed h in_fmt) eqn:Ech; hsimpl.
  - rewrite (ulong_small (0 + k)) by lia.
    destruct (_ =? _); hsimpl; repeat split; try reflexivity;
      try discriminate; lia.
  - pose proof (format_changed_false_nonempty _ _ Ech) as Hne.
    specialize (Hsum Hne).
    pose proof (seg_sum_nonneg _ (Forall_tl_nonneg _ Hsegs)) as Htl.
    rewrite (ulong_small (fmt_len h + k)) by lia.
    destruct (_ =? _); hsimpl; repeat split; try reflexivity;
      try discriminate.
Qed.

(** A batch that arrives under the format of the last segment does not
    touch the format list. *)
Lemma format_changed_same h l x in_fmt :
  fmt_list h = l ++ [{| cf_fmt := in_fmt; cf_len := x |}] ->
  format_changed h in_fmt = false.
Proof.
  intros E. unfold format_changed. rewrite E, rev_app_distr. cbn.
  unfold format_cmp. rewrite !Z.eqb_refl. cbn.
  now rewrite andb_false_r.
Qed.

Lemma format_changed_other h l x A B :
  fmt_list h = l ++ [{| cf_fmt := A; cf_len := x |}] ->
  samplerate B <> 0 \/ channels B <> 0 ->
  format_cmp B A <> 0 ->
  format_changed h B = true.
Proof.
  intros E Hnt Hcmp. unfold format_changed. rewrite E, rev_app_distr. cbn.
  destruct (Z.eqb_spec (format_cmp B A) 0); [contradiction|].
  destruct (Z.eqb_spec (samplerate B) 0), (Z.eqb_spec (channels B) 0);
    cbn; try reflexivity. tauto.
Qed.

(** One locked section of the producer thread, in full. *)
Lemma cache_store_shape h staged in_fmt :
  cache_inv h ->
  let h1 := fst (cache_store h staged in_fmt) in
  cache_inv h1 /\ len h <= len h1 /\ size h1 = size h
  /\ use_thread h1 = use_thread h
  /\ (exists d, buffer h1 = buffer h ++ d)
  /\ (format_changed h in_fmt = true ->
      fmt_list h1
      = fmt_list h ++ [{| cf_fmt := in_fmt; cf_len := fmt_len h |}]
      /\ fmt_len h1 = len h1 - len h)
  /\ (format_changed h in_fmt = false ->
      fmt_list h1 = fmt_list h
      /\ fmt_len h1 = fmt_len h + (len h1 - len h)).
Proof.
  intros Hinv. pose proof Hinv as [Hsz Hlen _ _ _ _ _ _].
  unfold cache_store. cbn [fst].
  set (k := if ulong (size h - len h) >? Z.of_nat (length staged)
            then Z.of_nat (length staged) else ulong (size h - len h)).
  assert (Hk : 0 <= k <= Z.of_nat (length staged) /\ k <= size h - len h).
  { subst k. rewrite (ulong_small (size h - len h)) by lia.
    destruct (Z.gtb_spec (size h - len h) (Z.of_nat (length staged)));
      lia. }
  clearbody k.
  assert (Hdata : Z.of_nat (length (firstn (Z.to_nat k) staged)) = k).
  { rewrite length_firstn. lia. }
  destruct (cache_append_inv h _ k in_fmt Hinv ltac:(lia) Hdata)
    as (H1 & H2 & H3 & _ & H4).
  destruct (cache_append_shape h (firstn (Z.to_nat k) staged) k in_fmt
              Hinv ltac:(lia)) as (H5 & H6 & H7).
  split; [exact H1|]. split; [lia|]. split; [exact H3|].
  split; [exact H4|]. split; [eexists; exact H5|].
  split; intros E.
  - destruct (H6 E) as [-> ->]. split; [reflexivity | lia].
  - destruct (H7 E) as [-> ->]. split; [reflexivity | lia].
Qed.

Lemma produce_cons h in_fmt b batches :
  produce h in_fmt (b :: batches)
  = produce (fst (cache_store h b in_fmt)) in_fmt batches.
Proof. reflexivity. Qed.

(** Batches under the format of the last segment: only [fmt_len], [len]
    and the buffer grow. *)
Lemma produce_same batches : forall h l x in_fmt,
  cache_inv h ->
  fmt_list h = l ++ [{| cf_fmt := in_fmt; cf_len := x |}] ->
  let h1 := produce h in_fmt batches in
  cache_inv h1 /\ fmt_list h1 = fmt_list h
  /\ fmt_len h1 = fmt_len h + (len h1 - len h)
  /\ len h <= len h1 /\ size h1 = size h
  /\ use_thread h1 = use_thread h
  /\ exists d, buffer h1 = buffer h ++ d.
Proof.
  induction batches as [|b batches IH]; intros h l x in_fmt Hinv El.
  - cbn. split; [exact Hinv|]. split; [reflexivity|]. split; [lia|].
    split; [lia|]. split; [reflexivity|]. split; [reflexivity|].
    exists []. now rewrite app_nil_r.
  - rewrite produce_cons.
    destruct (cache_store_shape h b in_fmt Hinv)
      as (H1 & H2 & H3 & H4 & [d Hd] & _ & H6).
    destruct (H6 (format_changed_same _ _ _ _ El)) as [H7 H8].
    assert (H7' := H7). rewrite El in H7'.
    destruct (IH _ l x in_fmt H1 H7')
      as (I1 & I2 & I3 & I4 & I5 & I6 & [d' Hd']).
    cbv zeta.
    split; [exact I1|]. split; [now rewrite I2|]. split; [lia|].
    split; [lia|]. split; [now rewrite I5|]. split; [now rewrite I6|].
    exists (d ++ d'). rewrite Hd', Hd. now rewrite app_assoc.
Qed.

(** A first batch under a new format opens a segment; the batches that
    follow under that format are counted in [fmt_len]. *)
Lemma produce_new batches h in_fmt :
  cache_inv h ->
  batches <> [] ->
  format_changed h in_fmt = true ->
  let h1 := produce h in_fmt batches in
  cache_inv h1
  /\ fmt_list h1
     = fmt_list h ++ [{| cf_fmt := in_fmt; cf_len := fmt_len h |}]
  /\ fmt_len h1 = len h1 - len h
  /\ len h <= len h1 /\ size h1 = size h
  /\ use_thread h1 = use_thread h
  /\ exists d, buffer h1 = buffer h ++ d.
Proof.
  destruct batches as [|b batches]; intros Hinv Hne Hch; [congruence|].
  rewrite produce_cons.
  destruct (cache_store_shape h b in_fmt Hinv)
    as (H1 & H2 & H3 & H4 & [d Hd] & H5 & _).
  destruct (H5 Hch) as [H7 H8].
  destruct (produce_same batches _ _ _ in_fmt H1 H7)
    as (I1 & I2 & I3 & I4 & I5 & I6 & [d' Hd']).
  cbv zeta.
  split; [exact I1|]. split; [now rewrite I2|]. split; [lia|].
  split; [lia|]. split; [now rewrite I5|]. split; [now rewrite I6|].
  exists (d ++ d'). rewrite Hd', Hd. now rewrite app_assoc.
Qed.

(** In threaded mode cache_read is its locked section. *)
Lemma cache_read_locked_frame h buf count fmt :
  let h1 := fst (fst (fst (cache_read_locked h buf count fmt))) in
  use_thread h1 = use_thread h /\ size h1 = size h
  /\ input_lock h1 = input_lock h.
Proof.
  unfold cache_read_locked.
  destruct (is_ready h); [|now cbn].
  destruct (fmt_list h) as [|f [|nx rest]] eqn:El; cbn;
    unfold cache_get_format; rewrite ?El;
    repeat match goal with
           | |- context [if ?c then _ else _] => destruct c
           end; cbn; auto.
Qed.

Lemma cache_read_threaded h buf count fmt h1 buf1 fmt1 n :
  use_thread h = true ->
  cache_read_locked h buf count fmt = (h1, buf1, fmt1, n) ->
  cache_read (Some h) buf count fmt
  = {| r_ret := int32 n; r_buffer := buf1; r_fmt := fmt1;
       r_cache := Some h1 |}.
Proof.
  intros Hthread Hlocked.
  pose proof (cache_read_locked_frame h buf count fmt) as Hframe.
  rewrite Hlocked in Hframe. cbn [fst] in Hframe.
  destruct Hframe as (Hut & _).
  unfold cache_read. rewrite Hlocked, Hut, Hthread. reflexivity.
Qed.

(** The locked section at a format boundary: the second segment starts
    before the end of the request. *)
Lemma cache_read_locked_boundary h buf count fmt fA fB rest :
  cache_inv h ->
  is_ready h = true ->
  fmt_list h = fA :: fB :: rest ->
  cf_len fB < count -> cf_len fB < len h ->
  exists h1,
    cache_read_locked h buf count fmt
    = (h1, memcpy buf (firstn (Z.to_nat (cf_len fB)) (buffer h)),
       cf_fmt fA, cf_len fB)
    /\ is_ready h1 = true
    /\ fmt_list h1 = {| cf_fmt := cf_fmt fB; cf_len := 0 |} :: rest
    /\ len h1 = len h - cf_len fB
    /\ buffer h1 = skipn (Z.to_nat (cf_len fB)) (buffer h).
Proof.
  intros Hinv Hready Hlist Hcount Hlen.
  pose proof Hinv as [Hsz Hl Hbuf _ Hsegs _ _ _].
  rewrite Hlist in Hsegs.
  pose proof (Forall_inv (Forall_inv_tail Hsegs)) as HfB. cbn in HfB.
  unfold cache_read_locked. rewrite Hready, Hlist.
  set (c := if count >? len h then len h else count).
  assert (Hc : cf_len fB < c).
  { subst c. destruct (Z.gtb_spec count (len h)); lia. }
  destruct (Z.ltb_spec (cf_len fB) c) as [_|]; [|lia].
  unfold cache_get_format. rewrite Hlist. hsimpl.
  unfold cf_sub. rewrite Z.sub_diag.
  rewrite (ulong_small (len h - cf_len fB)) by lia.
  destruct (Z.eqb_spec (len h - cf_len fB) 0) as [|_]; [lia|].
  eexists. split; [reflexivity|]. hsimpl. cbn.
  repeat split; try assumption.
  apply firstn_all2. rewrite length_skipn. lia.
Qed.

(** The locked section when only one segment is left. *)
Lemma cache_read_locked_last h buf count fmt f :
  cache_inv h -> 0 <= count ->
  is_ready h = true ->
  fmt_list h = [f] ->
  exists h1,
    cache_read_locked h buf count fmt
    = (h1, memcpy buf (firstn (Z.to_nat (Z.min count (len h))) (buffer h)),
       cf_fmt f, Z.min count (len h))
    /\ is_ready h1 = negb (len h1 =? 0)
    /\ len h1 = len h - Z.min count (len h).
Proof.
  intros Hinv Hcount Hready Hlist.
  pose proof Hinv as [Hsz Hl _ _ _ _ _ _].
  unfold cache_read_locked. rewrite Hready, Hlist.
  replace (if count >? len h then len h else count)
    with (Z.min count (len h))
    by (destruct (Z.gtb_spec count (len h)); lia).
  set (c := Z.min count (len h)).
  assert (Hc : 0 <= c <= len h) by (subst c; lia).
  clearbody c. hsimpl.
  rewrite (ulong_small (len h - c)) by lia.
  destruct (Z.eqb_spec (len h - c) 0) as [E|E];
    eexists; (split; [reflexivity|]); hsimpl; rewrite ?E; cbn;
    (split; [|reflexivity]).
  - reflexivity.
  - destruct (Z.eqb_spec (len h - c) 0); [contradiction|].
    cbn. exact Hready.
Qed.

(** The locked section when the request ends where the second segment
    starts. *)
Lemma cache_read_locked_exact h buf count fmt fA fB rest :
  cache_inv h ->
  is_ready h = true ->
  fmt_list h = fA :: fB :: rest ->
  cf_len fB = len h -> len h < count ->
  exists h1,
    cache_read_locked h buf count fmt
    = (h1, memcpy buf (firstn (Z.to_nat (len h)) (buffer h)),
       cf_fmt fA, len h)
    /\ is_ready h1 = false /\ len h1 = 0.
Proof.
  intros Hinv Hready Hlist HfB Hcount.
  pose proof Hinv as [Hsz Hl _ _ _ _ _ _].
  unfold cache_read_locked. rewrite Hready, Hlist.
  destruct (Z.gtb_spec count (len h)) as [_|]; [|lia].
  destruct (Z.ltb_spec (cf_len fB) (len h)) as [|_]; [lia|].
  hsimpl. rewrite Z.sub_diag. cbn.
  eexists. split; [reflexivity|]. now cbn.
Qed.

Lemma firstn_memcpy dst src n :
  Z.of_nat (length src) = n ->
  firstn (Z.to_nat n) (memcpy dst src) = src.
Proof.
  intros <-. unfold memcpy. rewrite Nat2Z.id.
  rewrite firstn_app, Nat.sub_diag, firstn_all. cbn.
  now rewrite app_nil_r.
Qed.

(** What cache_read does once the refill has called the input callback
    and the callback has failed: nothing more is done to the handle,
    which keeps [input_lock] taken. *)
Lemma cache_read_refill_error h buf count fmt h1 buf1 fmt1 n :
  cache_read_locked h buf count fmt = (h1, buf1, fmt1, n) ->
  use_thread h1 = false ->
  len h1 < size h1 ->
  input_lock h1 = false ->
  cb_ret (fst (input_callback h1 (user_data h1)
                 (ulong (size h1 - len h1)) A_FORMAT_INIT)) < 0 ->
  cache_read (Some h) buf count fmt
  = {| r_ret := if len h1 =? 0 then -1 else int32 n;
       r_buffer := buf1; r_fmt := fmt1;
       r_cache :=
         Some (set_user_data (set_input_lock h1 true)
                 (snd (input_callback h1 (user_data h1)
                         (ulong (size h1 - len h1)) A_FORMAT_INIT))) |}.
Proof.
  intros Hlocked Hpull Hroom Hfree Hneg.
  unfold cache_read. rewrite Hlocked.
  rewrite Hpull. cbn [negb andb].
  destruct (Z.ltb_spec (len h1) (size h1)) as [_|]; [|lia].
  unfold input_trylock. rewrite Hfree. hsimpl.
  destruct (input_callback h1 (user_data h1)
              (ulong (size h1 - len h1)) A_FORMAT_INIT) as [r u].
  cbn [fst snd] in *.
  destruct (Z.ltb_spec (cb_ret r) 0) as [_|]; [|lia].
  now destruct (len h1 =? 0).
Qed.

(** C7: in pull mode, when the refill calls the input callback and the
    callback returns a negative value, cache_read returns -1 exactly
    when the cache is empty at that point (after this call took its
    [n] frames), and returns [n] otherwise. *)
Theorem cache_read_callback_error h buf count fmt h1 buf1 fmt1 n :
  cache_inv h -> size h <= INT32_MAX -> 0 <= count ->
  use_thread h = false ->
  cache_read_locked h buf count fmt = (h1, buf1, fmt1, n) ->
  len h1 < size h1 ->
  input_lock h1 = false ->
  cb_ret (fst (input_callback h1 (user_data h1)
                 (ulong (size h1 - len h1)) A_FORMAT_INIT)) < 0 ->
  (r_ret (cache_read (Some h) buf count fmt) = -1 <-> len h1 = 0)
  /\ (len h1 <> 0 -> r_ret (cache_read (Some h) buf count fmt) = n).
Proof.
  intros Hinv Hmax Hcount Hpull Hlocked Hroom Hfree Hneg.
  destruct (cache_read_locked_inv _ _ _ _ _ _ _ _ Hinv Hcount Hlocked)
    as (Hinv1 & Hn & Hnlen & _ & _ & _ & Hut).
  rewrite Hpull in Hut.
  rewrite (cache_read_refill_error _ _ _ _ _ _ _ _
             Hlocked Hut Hroom Hfree Hneg).
  cbn [r_ret].
  assert (Hn32 : int32 n = n).
  { apply int32_small. destruct Hinv. unfold in_int32, INT32_MIN, INT32_MAX in *.
    lia. }
  rewrite Hn32.
  destruct (Z.eqb_spec (len h1) 0) as [E|E].
  - split; [tauto | congruence].
  - split; [split; [lia | congruence] | reflexivity].
Qed.

Lemma cache_inv_input_lock h b :
  cache_inv h -> cache_inv (set_input_lock h b).
Proof. intros []. constructor; assumption. Qed.

Lemma cache_inv_user_data h u :
  cache_inv h -> cache_inv (set_user_data h u).
Proof. intros []. constructor; assumption. Qed.

Lemma cache_read_locked_callback h buf count fmt :
  input_callback (fst (fst (fst (cache_read_locked h buf count fmt))))
  = input_callback h.
Proof.
  unfold cache_read_locked.
  destruct (is_ready h); [|now cbn].
  destruct (fmt_list h) as [|f [|nx rest]] eqn:El; cbn;
    unfold cache_get_format; rewrite ?El;
    repeat match goal with
           | |- context [if ?c then _ else _] => destruct c
           end; cbn; auto.
Qed.

(** cache_read as a whole keeps the handle consistent, provided the
    input callback honours its contract when the refill calls it. *)
Lemma cache_read_inv h buf count fmt :
  cache_inv h -> 0 <= count ->
  (forall u n f, cb_honours (fst (input_callback h u n f)) n) ->
  exists h2,
    r_cache (cache_read (Some h) buf count fmt) = Some h2 /\ cache_inv h2.
Proof.
  intros Hinv Hcount Hcb.
  pose proof (cache_read_locked_callback h buf count fmt) as Hcb1.
  destruct (cache_read_locked h buf count fmt)
    as [[[h1 buf1] fmt1] n] eqn:Hlocked.
  cbn [fst] in Hcb1.
  destruct (cache_read_locked_inv _ _ _ _ _ _ _ _ Hinv Hcount Hlocked)
    as (Hinv1 & Hn & Hnl & Hl1 & Hs1 & Hlk1 & Hut1).
  pose proof Hinv1 as [Hsz1 Hlen1 _ _ _ _ _ _].
  unfold cache_read. rewrite Hlocked.
  destruct (negb (use_thread h1) && (len h1 <? size h1)) eqn:Erefill;
    [|eexists; split; [reflexivity | exact Hinv1]].
  unfold input_trylock.
  destruct (input_lock h1) eqn:Elk;
    [eexists; split; [reflexivity | exact Hinv1]|].
  hsimpl.
  specialize (Hcb (user_data h1) (ulong (size h1 - len h1)) A_FORMAT_INIT).
  rewrite <- Hcb1 in Hcb.
  rewrite (ulong_small (size h1 - len h1)) in * by lia.
  destruct (input_callback h1 (user_data h1) (size h1 - len h1)
              A_FORMAT_INIT) as [r u].
  cbn [fst] in Hcb.
  assert (Hinv1' : cache_inv (set_user_data (set_input_lock h1 true) u)).
  { now apply cache_inv_user_data, cache_inv_input_lock. }
  destruct (Z.ltb_spec (cb_ret r) 0) as [Hneg|Hpos].
  - destruct (len h1 =? 0); eexists; (split; [reflexivity | exact Hinv1']).
  - destruct Hcb as [|[Hle Hdata]]; [lia|].
    eexists. split; [reflexivity|].
    apply cache_inv_input_lock.
    apply (cache_append_inv _ _ (cb_ret r) (cb_fmt r) Hinv1').
    + hsimpl. lia.
    + rewrite length_firstn. lia.
Qed.

(** The successful refill releases [input_lock]. *)
Lemma cache_read_refill_unlocks h buf count fmt h1 buf1 fmt1 n :
  cache_read_locked h buf count fmt = (h1, buf1, fmt1, n) ->
  use_thread h1 = false ->
  len h1 < size h1 ->
  input_lock h1 = false ->
  0 <= cb_ret (fst (input_callback h1 (user_data h1)
                      (ulong (size h1 - len h1)) A_FORMAT_INIT)) ->
  option_map input_lock (r_cache (cache_read (Some h) buf count fmt))
  = Some false.
Proof.
  intros Hlocked Hpull Hroom Hfree Hpos.
  unfold cache_read. rewrite Hlocked.
  rewrite Hpull. cbn [negb andb].
  destruct (Z.ltb_spec (len h1) (size h1)) as [_|]; [|lia].
  unfold input_trylock. rewrite Hfree. hsimpl.
  destruct (input_callback h1 (user_data h1)
              (ulong (size h1 - len h1)) A_FORMAT_INIT) as [r u].
  cbn [fst] in *.
  destruct (Z.ltb_spec (cb_ret r) 0) as [|_]; [lia|].
  reflexivity.
Qed.

(** *** The accounting of the format segments (C4) *)

(** While no flush has left a stale [fmt_len] behind, the lengths of
    all segments and [fmt_len] add up to [len], and both the producer's
    batch and the locked section of cache_read keep it so. *)
Lemma cache_append_accounts h data k in_fmt :
  cache_inv h ->
  0 <= k <= size h - len h ->
  seg_sum (fmt_list h) + fmt_len h = len h ->
  let h1 := cache_append h data k in_fmt in
  seg_sum (fmt_list h1) + fmt_len h1 = len h1.
Proof.
  intros Hinv Hk Hacc.
  destruct (cache_append_shape h data k in_fmt Hinv Hk) as (_ & Hput & Hkeep).
  pose proof Hinv as [Hsz Hlen _ _ _ _ _ _].
  assert (Hl : len (cache_append h data k in_fmt) = len h + k).
  { unfold cache_append.
    destruct (format_changed _ in_fmt); hsimpl;
      destruct (_ =? _); hsimpl; apply ulong_small; lia. }
  cbv zeta. rewrite Hl.
  destruct (format_changed h in_fmt) eqn:E.
  - destruct (Hput eq_refl) as [-> ->]. rewrite seg_sum_app. cbn. lia.
  - destruct (Hkeep eq_refl) as [-> ->]. lia.
Qed.

Lemma cache_read_locked_accounts h buf count fmt h1 buf1 fmt1 n :
  cache_inv h -> 0 <= count ->
  seg_sum (fmt_list h) + fmt_len h = len h ->
  cache_read_locked h buf count fmt = (h1, buf1, fmt1, n) ->
  seg_sum (fmt_list h1) + fmt_len h1 = len h1.
Proof.
  intros Hinv Hcount Hacc.
  pose proof Hinv as [Hsz Hlen Hbuf Hfl Hsegs Hsum Hempty Hready].
  unfold cache_read_locked.
  destruct (is_ready h) eqn:Er; [|now intros [= <- <- <- <-]].
  specialize (Hready eq_refl).
  set (c := if count >? len h then len h else count).
  assert (Hc : 0 <= c <= len h).
  { subst c. destruct (Z.gtb_spec count (len h)); lia. }
  clearbody c.
  destruct (fmt_list h) as [|f [|nx rest]] eqn:El.
  - specialize (Hempty eq_refl). lia.
  - specialize (Hsum ltac:(discriminate)). cbn in Hsum, Hacc. hsimpl.
    rewrite (ulong_small (len h - c)), (ulong_small (fmt_len h - c)) by lia.
    destruct (_ =? _); intros [= <- <- <- <-]; hsimpl; rewrite El; cbn; lia.
  - specialize (Hsum ltac:(discriminate)). cbn in Hsum, Hacc.
    pose proof (Forall_inv (Forall_inv_tail Hsegs)) as Hnx. cbn in Hnx.
    pose proof (seg_sum_nonneg _ (Forall_inv_tail (Forall_inv_tail Hsegs)))
      as Hrest.
    unfold cache_get_format. rewrite El. hsimpl. unfold cf_sub.
    destruct (Z.ltb_spec (cf_len nx) c).
    + hsimpl. cbn [tl].
      rewrite Z.sub_diag, (ulong_small (len h - cf_len nx)) by lia.
      destruct (_ =? _); intros [= <- <- <- <-]; hsimpl; cbn; lia.
    + hsimpl.
      rewrite (ulong_small (len h - c)), (ulong_small (cf_len nx - c)) by lia.
      destruct (_ =? _); intros [= <- <- <- <-]; hsimpl; cbn; lia.
Qed.

End WithUserData.

(** *** The definitions at work on concrete caches *)

Lemma fresh_inv sz ut :
  0 < sz < 2 ^ 64 -> cache_inv (Examples.fresh sz ut).
Proof.
  intros H. constructor; cbn; try lia; try constructor; try discriminate.
Qed.

Lemma pull_full_inv : cache_inv Examples.pull_full.
Proof.
  apply (cache_append_inv unit (Examples.fresh 4 false) [1; 2; 3; 4] 4).
  - apply fresh_inv. lia.
  - cbn. lia.
  - reflexivity.
Qed.

Lemma cache_read_not_ready_witness :
  cache_read (Some Examples.half) [0; 0; 0] 3 Examples.dat
  = {| r_ret := 0; r_buffer := [0; 0; 0]; r_fmt := Examples.dat;
       r_cache := Some Examples.half |}.
Proof.
  apply (cache_read_not_ready unit Examples.half); reflexivity.
Defined.

Lemma cache_read_callback_error_witness :
  let locked :=
    cache_read_locked Examples.pull_full [0; 0; 0; 0] 4 A_FORMAT_INIT in
  let h1 := fst (fst (fst locked)) in
  let r := cache_read (Some Examples.pull_full) [0; 0; 0; 0] 4 A_FORMAT_INIT in
  len h1 = 0 /\ (r_ret r = -1 <-> len h1 = 0)
  /\ (len h1 <> 0 -> r_ret r = 4).
Proof.
  split; [reflexivity|].
  refine (cache_read_callback_error unit Examples.pull_full
            [0; 0; 0; 0] 4 A_FORMAT_INIT _ _ _ _
            pull_full_inv _ _ eq_refl eq_refl _ eq_refl _).
  - unfold INT32_MAX. cbn. lia.
  - lia.
  - cbn. lia.
  - cbn. lia.
Defined.

(** C4: cache_flush empties the buffer and the format list but leaves
    [fmt_len] as it was.  On a cache of two frames that holds one frame
    the segment lengths and [fmt_len] add up to [len] before the flush
    and no longer do after it. *)
Theorem cache_flush_keeps_fmt_len :
  let h := Examples.half in
  cache_inv h
  /\ seg_sum (fmt_list h) + fmt_len h = len h
  /\ exists h1,
       cache_flush h = Some h1
       /\ len h1 = 0 /\ fmt_list h1 = [] /\ fmt_len h1 = 1
       /\ seg_sum (fmt_list h1) + fmt_len h1 <> len h1.
Proof.
  cbv zeta. split.
  - apply (cache_store_inv unit (Examples.fresh 2 true) [7] Examples.cd).
    apply fresh_inv. lia.
  - split; [reflexivity|].
    eexists. split; [reflexivity|]. cbn. repeat split; lia.
Qed.

(** C9: the refill of cache_read returns with [input_lock] taken when
    the input callback fails, on the path that returns -1 (empty cache)
    and on the path that returns the frames read. *)
Theorem cache_read_error_keeps_input_lock :
  let r_empty :=
    cache_read (Some (Examples.fresh 4 false)) [] 16 A_FORMAT_INIT in
  let r_data :=
    cache_read (Some Examples.pull_full) [0; 0] 2 A_FORMAT_INIT in
  input_lock (Examples.fresh 4 false) = false
  /\ r_ret r_empty = -1
  /\ option_map input_lock (r_cache r_empty) = Some true
  /\ input_lock Examples.pull_full = false
  /\ r_ret r_data = 2
  /\ option_map input_lock (r_cache r_data) = Some true.
Proof. cbv zeta. repeat split; reflexivity. Qed.

(** *** The boundary between two formats (C1) *)

Section FormatBoundary.

Variable U : Type.
Implicit Types (h : cache_handle U) (buf : list sample) (fmt : a_format).

(** Whatever the mode, cache_read returns the buffer and the format of
    its locked section, and the count of its locked section unless the
    refill fails on a cache left empty. *)
Lemma cache_read_of_locked h buf count fmt h1 buf1 fmt1 n :
  cache_read_locked h buf count fmt = (h1, buf1, fmt1, n) ->
  let r := cache_read (Some h) buf count fmt in
  r_buffer r = buf1 /\ r_fmt r = fmt1
  /\ (r_ret r = int32 n
      \/ (use_thread h1 = false /\ len h1 = 0 /\ r_ret r = -1)).
Proof.
  intros Hlocked. cbv zeta. unfold cache_read. rewrite Hlocked.
  destruct (use_thread h1) eqn:Eut; cbn [negb andb].
  { cbn. auto. }
  destruct (len h1 <? size h1); [|cbn; auto].
  destruct (input_trylock h1) as [[|] h2] eqn:Etry; [|cbn; auto].
  assert (Hl2 : len h2 = len h1).
  { revert Etry. unfold input_trylock.
    destruct (input_lock h1); [discriminate|].
    intros [= <-]. reflexivity. }
  destruct (input_callback h2 (user_data h2) _ A_FORMAT_INIT) as [r u].
  destruct (cb_ret r <? 0); [|cbn; auto].
  hsimpl. rewrite Hl2.
  destruct (Z.eqb_spec (len h1) 0); cbn; auto.
  split; [reflexivity|]. split; [reflexivity|]. right. auto.
Qed.

(** The locked section of a read that stays within the first segment. *)
Lemma cache_read_locked_within h buf count fmt fA fB :
  cache_inv h -> is_ready h = true ->
  fmt_list h = [fA; fB] ->
  0 <= count <= cf_len fB ->
  exists h1,
    cache_read_locked h buf count fmt
    = (h1, memcpy buf (firstn (Z.to_nat count) (buffer h)), cf_fmt fA,
       count)
    /\ fmt_list h1
       = [fA; {| cf_fmt := cf_fmt fB; cf_len := cf_len fB - count |}]
    /\ fmt_len h1 = fmt_len h
    /\ buffer h1 = skipn (Z.to_nat count) (buffer h).
Proof.
  intros Hinv Hready Hlist Hcount.
  pose proof Hinv as [Hsz Hl Hbuf Hfl Hsegs Hsum _ _].
  assert (Hne : fmt_list h <> []) by (rewrite Hlist; discriminate).
  specialize (Hsum Hne). rewrite Hlist in Hsum. cbn in Hsum.
  unfold cache_read_locked. rewrite Hready, Hlist.
  destruct (Z.gtb_spec count (len h)) as [|_]; [lia|].
  destruct (Z.ltb_spec (cf_len fB) count) as [|_]; [lia|].
  hsimpl. unfold cf_sub.
  rewrite (ulong_small (cf_len fB - count)) by lia.
  rewrite (ulong_small (len h - count)) by lia.
  destruct (len h - count =? 0); eexists;
    (split; [reflexivity|]); hsimpl; cbn;
    (split; [reflexivity|]); (split; [reflexivity|]);
    apply firstn_all2; rewrite length_skipn; lia.
Qed.

(** C1, amended: frames are counted under the format they were stored
    with.  (1) The producer thread that stores, in a cache whose format
    list is empty, batches under A and then batches under a nontrivial B
    that differs from A leaves the segment of A followed by the segment
    of B: with N1 the frames stored under A and N2 those stored under B,
    [holds_two_formats hB A B N1 N2].  (2) In a threaded cache that is
    ready and holds N1 frames under A followed by N2 under B, a
    cache_read of at most N1 frames returns them under A and leaves the
    remaining frames of A followed by the N2 frames of B.  (3) In any
    cache that is ready and holds N1 frames under A followed by N2 under
    B, whatever was stored and read before, a cache_read asking for more
    than N1 frames gives the format A and the N1 frames of A, and
    returns N1 (in pull mode -1 instead when N2 is 0 and the refill
    fails); in threaded mode the next cache_read returns min(req2, N2)
    frames and, when there are frames of B, the format B and the frames
    of B. *)
Theorem format_boundary :
  (forall h0 A B batchesA batchesB,
      cache_inv h0 -> fmt_list h0 = [] ->
      batchesA <> [] -> batchesB <> [] ->
      samplerate B <> 0 \/ channels B <> 0 ->
      format_cmp B A <> 0 ->
      let hA := produce h0 A batchesA in
      let hB := produce hA B batchesB in
      cache_inv hB
      /\ holds_two_formats hB A B (len hA) (len hB - len hA)
      /\ firstn (Z.to_nat (len hA)) (buffer hB) = buffer hA)
  /\ (forall h A B N1 N2 buf count fmt,
        cache_inv h -> use_thread h = true -> size h <= INT32_MAX ->
        is_ready h = true ->
        holds_two_formats h A B N1 N2 ->
        0 <= count <= N1 ->
        let r := cache_read (Some h) buf count fmt in
        r_ret r = count /\ r_fmt r = A
        /\ firstn (Z.to_nat count) (r_buffer r)
           = firstn (Z.to_nat count) (buffer h)
        /\ exists h1,
             r_cache r = Some h1 /\ cache_inv h1
             /\ holds_two_formats h1 A B (N1 - count) N2
             /\ buffer h1 = skipn (Z.to_nat count) (buffer h))
  /\ (forall h A B N1 N2 buf req fmt buf2 req2 fmt2,
        cache_inv h -> size h <= INT32_MAX ->
        is_ready h = true ->
        holds_two_formats h A B N1 N2 ->
        N1 < req -> 0 <= req2 ->
        let r1 := cache_read (Some h) buf req fmt in
        let r2 := cache_read (r_cache r1) buf2 req2 fmt2 in
        len h = N1 + N2
        /\ r_fmt r1 = A
        /\ firstn (Z.to_nat N1) (r_buffer r1)
           = firstn (Z.to_nat N1) (buffer h)
        /\ (r_ret r1 = N1
            \/ (use_thread h = false /\ N2 = 0 /\ r_ret r1 = -1))
        /\ (use_thread h = true ->
            r_ret r1 = N1
            /\ r_ret r2 = Z.min req2 N2
            /\ (0 < N2 ->
                r_fmt r2 = B
                /\ firstn (Z.to_nat (Z.min req2 N2)) (r_buffer r2)
                   = firstn (Z.to_nat (Z.min req2 N2))
                       (skipn (Z.to_nat N1) (buffer h))))).
Proof.
  split; [|split].
  - (* the producer *)
    intros h0 A B batchesA batchesB Hinv0 Hnil HneA HneB HntB Hcmp hA hB.
    assert (Hl0 : len h0 = 0) by (now apply (inv_empty _ _ Hinv0)).
    destruct (produce_new U batchesA h0 A Hinv0 HneA
                (format_changed_nil U _ _ Hnil))
      as (HinvA & HlA & HflA & HlenA & HszA & HutA & [dA HdA]).
    fold hA in HinvA, HlA, HflA, HlenA, HszA, HutA, HdA.
    rewrite Hnil in HlA. cbn [app] in HlA.
    assert (HchB : format_changed hA B = true).
    { apply (format_changed_other U hA [] (fmt_len h0) A B); assumption. }
    destruct (produce_new U batchesB hA B HinvA HneB HchB)
      as (HinvB & HlB & HflB & HlenB & HszB & HutB & [dB HdB]).
    fold hB in HinvB, HlB, HflB, HlenB, HszB, HutB, HdB.
    rewrite HlA in HlB. cbn [app] in HlB.
    split; [exact HinvB|]. split.
    + exists (fmt_len h0). split; [|exact HflB].
      rewrite HlB. do 2 f_equal. f_equal. lia.
    + pose proof HinvA as [_ _ HbufA _ _ _ _ _].
      rewrite HdB, firstn_app.
      replace (Z.to_nat (len hA) - length (buffer hA))%nat with 0%nat by lia.
      rewrite firstn_all2 by lia. cbn. apply app_nil_r.
  - (* a read within A *)
    intros h A B N1 N2 buf count fmt Hinv Hth Hmax Hready
           [l0 [Hlist Hfl]] Hcount.
    destruct (cache_read_locked_within h buf count fmt _ _ Hinv Hready
                Hlist Hcount) as (h1 & Hlocked & Hl1 & Hfl1 & Hb1).
    cbn [cf_fmt cf_len] in Hlocked, Hl1.
    destruct (cache_read_locked_inv U _ _ _ _ _ _ _ _ Hinv
                (proj1 Hcount) Hlocked) as (Hinv1 & _).
    pose proof Hinv as [Hsz Hl Hbuf Hfln Hsegs Hsum _ _].
    assert (Hne : fmt_list h <> []) by (rewrite Hlist; discriminate).
    specialize (Hsum Hne). rewrite Hlist in Hsum. cbn in Hsum.
    cbv zeta. rewrite (cache_read_threaded U _ _ _ _ _ _ _ _ Hth Hlocked).
    cbn [r_ret r_fmt r_buffer r_cache].
    split.
    { apply int32_small. unfold in_int32, INT32_MIN, INT32_MAX in *. lia. }
    split; [reflexivity|]. split.
    { apply firstn_memcpy. rewrite length_firstn. lia. }
    exists h1. split; [reflexivity|]. split; [exact Hinv1|].
    split; [|exact Hb1].
    exists l0. split; [exact Hl1 | congruence].
  - (* the read across the boundary *)
    intros h A B N1 N2 buf req fmt buf2 req2 fmt2 Hinv Hmax Hready
           [l0 [Hlist Hfl]] Hreq Hreq2.
    pose proof Hinv as [Hsz Hl Hbuf Hfln Hsegs Hsum _ _].
    assert (Hne : fmt_list h <> []) by (rewrite Hlist; discriminate).
    specialize (Hsum Hne). rewrite Hlist in Hsum, Hsegs. cbn in Hsum.
    pose proof (Forall_inv (Forall_inv_tail Hsegs)) as HN1. cbn in HN1.
    assert (Hlen : len h = N1 + N2) by lia.
    assert (HN2 : 0 <= N2) by lia.
    assert (Hi32 : forall z, 0 <= z <= size h -> int32 z = z).
    { intros z Hz. apply int32_small.
      unfold in_int32, INT32_MIN, INT32_MAX in *. lia. }
    cbv zeta. split; [exact Hlen|].
    destruct (Z.eq_dec N2 0) as [EN2|NN2].
    + (* no frame of B is cached *)
      destruct (cache_read_locked_exact U h buf req fmt _ _ _ Hinv
                  Hready Hlist ltac:(cbn [cf_len]; lia) ltac:(lia))
        as (h1 & Hlocked & Hnr & Hl1).
      cbn [cf_fmt] in Hlocked.
      replace (len h) with N1 in Hlocked by lia.
      destruct (cache_read_of_locked h buf req fmt _ _ _ _ Hlocked)
        as (Eb & Ef & Er).
      cbv zeta in Eb, Ef, Er. rewrite (Hi32 N1) in Er by lia.
      split; [exact Ef|]. split.
      { rewrite Eb. apply firstn_memcpy. rewrite length_firstn. lia. }
      pose proof (cache_read_locked_frame U h buf req fmt) as Hfr.
      rewrite Hlocked in Hfr. cbn [fst] in Hfr. destruct Hfr as (Hut & _).
      split.
      { destruct Er as [Er|(E1 & E2 & E3)]; [now left|].
        right. split; [congruence|]. split; assumption. }
      intros Hth.
      rewrite (cache_read_threaded U _ _ _ _ _ _ _ _ Hth Hlocked).
      cbn [r_ret r_cache].
      assert (Hth1 : use_thread h1 = true) by congruence.
      rewrite (cache_read_threaded U _ _ _ _ _ _ _ _ Hth1
                 (cache_read_locked_idle U _ _ _ _ Hnr)).
      change (int32 0) with 0. cbn [r_ret].
      split; [apply Hi32; lia|]. split; lia.
    + (* frames of both formats are cached *)
      destruct (cache_read_locked_boundary U h buf req fmt _ _ _ Hinv
                  Hready Hlist ltac:(cbn [cf_len]; lia)
                  ltac:(cbn [cf_len]; lia))
        as (h1 & Hlocked & Hr1 & Hl1 & Hlen1 & Hbuf1).
      cbn [cf_len cf_fmt] in Hlocked, Hl1, Hlen1, Hbuf1.
      destruct (cache_read_of_locked h buf req fmt _ _ _ _ Hlocked)
        as (Eb & Ef & Er).
      cbv zeta in Eb, Ef, Er. rewrite (Hi32 N1) in Er by lia.
      split; [exact Ef|]. split.
      { rewrite Eb. apply firstn_memcpy. rewrite length_firstn. lia. }
      split.
      { destruct Er as [Er|(_ & E2 & _)]; [now left | lia]. }
      intros Hth.
      assert (Hreq0 : 0 <= req) by lia.
      destruct (cache_read_locked_inv U _ _ _ _ _ _ _ _ Hinv
                  Hreq0 Hlocked) as (Hinv1 & _ & _ & _ & _ & _ & Hut1).
      assert (Hth1 : use_thread h1 = true) by congruence.
      assert (El1 : len h1 = N2) by lia.
      destruct (cache_read_locked_last U h1 buf2 req2 fmt2 _ Hinv1
                  Hreq2 Hr1 Hl1) as (h2 & Hlocked2 & _ & _).
      cbn [cf_fmt] in Hlocked2. rewrite El1 in Hlocked2.
      rewrite (cache_read_threaded U _ _ _ _ _ _ _ _ Hth Hlocked).
      cbn [r_ret r_fmt r_buffer r_cache].
      rewrite (cache_read_threaded U _ _ _ _ _ _ _ _ Hth1 Hlocked2).
      cbn [r_ret r_fmt r_buffer r_cache].
      split; [apply Hi32; lia|].
      split; [apply Hi32; lia|].
      intros _. split; [reflexivity|].
      rewrite firstn_memcpy; [now rewrite Hbuf1|].
      rewrite length_firstn, Hbuf1, length_skipn. lia.
Qed.

End FormatBoundary.

Lemma two_formats_lengths :
  len (produce (Examples.fresh 5 true) Examples.cd [[1; 2]; [3]]) = 3
  /\ len Examples.two_formats = 5
  /\ size Examples.two_formats = 5
  /\ use_thread Examples.two_formats = true
  /\ is_ready Examples.two_formats = true.
Proof. repeat split; vm_compute; reflexivity. Qed.

Lemma format_boundary_witness :
  let h := Examples.two_formats in
  let r0 := cache_read (Some h) [] 1 A_FORMAT_INIT in
  holds_two_formats h Examples.cd Examples.dat 3 2
  /\ r_ret r0 = 1 /\ r_fmt r0 = Examples.cd
  /\ exists h1,
       r_cache r0 = Some h1
       /\ holds_two_formats h1 Examples.cd Examples.dat 2 2
       /\ let r1 := cache_read (Some h1) [] 4096 A_FORMAT_INIT in
          let r2 := cache_read (r_cache r1) [] 4096 A_FORMAT_INIT in
          r_ret r1 = 2 /\ r_fmt r1 = Examples.cd
          /\ firstn 2 (r_buffer r1) = [2; 3]
          /\ r_ret r2 = 2 /\ r_fmt r2 = Examples.dat
          /\ firstn 2 (r_buffer r2) = [4; 5].
Proof.
  destruct (format_boundary unit) as (Hproduced & Hwithin & Hacross).
  destruct two_formats_lengths as (ElA & ElB & Esz & Eut & Erdy).
  assert (H5 : 0 < 5 < 2 ^ 64) by lia.
  assert (HnA : [[1; 2]; [3]] <> ([] : list (list sample)))
    by discriminate.
  assert (HnB : [[4]; [5; 6]] <> ([] : list (list sample)))
    by discriminate.
  assert (Hnt : samplerate Examples.dat <> 0 \/ channels Examples.dat <> 0)
    by (left; discriminate).
  assert (Hcmp : format_cmp Examples.dat Examples.cd <> 0)
    by (vm_compute; discriminate).
  pose proof (Hproduced (Examples.fresh 5 true) Examples.cd Examples.dat
                [[1; 2]; [3]] [[4]; [5; 6]]
                (fresh_inv 5 true H5) eq_refl HnA HnB Hnt Hcmp) as HP.
  cbv zeta in HP.
  assert (Etf : produce
                  (produce (Examples.fresh 5 true) Examples.cd [[1; 2]; [3]])
                  Examples.dat [[4]; [5; 6]]
                = Examples.two_formats)
    by (unfold Examples.two_formats; reflexivity).
  rewrite Etf, ElA, ElB in HP. change (5 - 3) with 2 in HP.
  destruct HP as (Hinv & Hshape & _).
  assert (Hmax : size Examples.two_formats <= INT32_MAX).
  { rewrite Esz. unfold INT32_MAX. lia. }
  cbv zeta. split; [exact Hshape|].
  pose proof (Hwithin Examples.two_formats Examples.cd Examples.dat 3 2
                [] 1 A_FORMAT_INIT Hinv Eut Hmax Erdy Hshape ltac:(lia))
    as HW.
  cbv zeta in HW.
  destruct HW as (Hret & Hfmt & _ & h1 & Hcache & Hinv1 & Hshape1 & Hbuf1).
  split; [exact Hret|]. split; [exact Hfmt|].
  exists h1. split; [exact Hcache|]. split; [exact Hshape1|].
  assert (Eh1 : Some h1
                = r_cache (cache_read (Some Examples.two_formats)
                             [] 1 A_FORMAT_INIT)) by (now rewrite Hcache).
  vm_compute in Eh1. injection Eh1 as Eh1.
  assert (F1 : size h1 = 5 /\ is_ready h1 = true /\ use_thread h1 = true).
  { rewrite Eh1. repeat split. }
  destruct F1 as (Esz1 & Erdy1 & Eut1).
  assert (Hmax1 : size h1 <= INT32_MAX).
  { rewrite Esz1. unfold INT32_MAX. lia. }
  pose proof (Hacross h1 Examples.cd Examples.dat 2 2
                [] 4096 A_FORMAT_INIT [] 4096 A_FORMAT_INIT
                Hinv1 Hmax1 Erdy1 Hshape1 ltac:(lia) ltac:(lia)) as HA.
  cbv zeta in HA.
  destruct HA as (_ & Hf1 & Hb1 & _ & Hthreaded).
  destruct (Hthreaded Eut1) as (Hr1 & Hr2 & Hb).
  destruct (Hb ltac:(lia)) as (Hf2 & Hb2).
  assert (Ebuf : skipn (Z.to_nat 1) (buffer Examples.two_formats)
                 = [2; 3; 4; 5]) by (vm_compute; reflexivity).
  rewrite Ebuf in Hbuf1.
  change (Z.to_nat 2) with 2%nat in Hb1, Hb2.
  change (Z.to_nat (Z.min 4096 2)) with 2%nat in Hb2.
  rewrite Hbuf1 in Hb1, Hb2.
  split; [exact Hr1|]. split; [exact Hf1|]. split; [exact Hb1|].
  split; [exact Hr2|]. split; [exact Hf2|]. exact Hb2.
Defined.

(** C1: frames are counted where they are stored, not where the input
    callback delivered them.  (a) A cache of four frames whose callback
    first returns no frame and no format, then two frames under cd and
    two under dat, is ready; the cache_read that asks for more than two
    frames returns no frame, under the format (0,0).  (b) A cache of
    three frames whose callback delivers four frames under cd and then
    two under dat is ready after two iterations of the producer; the
    cache_read that asks for five frames returns three frames under cd;
    after the next iteration of the producer a cache_read returns no
    frame under cd, and the one after it returns three frames under dat,
    the first of which was delivered under cd. *)
Theorem format_boundary_delivered :
  (let script := [([], None); ([1; 2], Some Examples.cd);
                  ([3; 4], Some Examples.dat)] in
   let h := fst (Examples.iterations 3 (Examples.scripted 4 script)
                   thread_init) in
   let r := cache_read (Some h) [0; 0; 0; 0] 4096 A_FORMAT_INIT in
   is_ready h = true /\ buffer h = [1; 2; 3; 4]
   /\ r_ret r = 0 /\ r_fmt r = A_FORMAT_INIT
   /\ r_ret r <> 2 /\ r_fmt r <> Examples.cd)
  /\ (let script := [([1; 2; 3; 4], Some Examples.cd);
                     ([5; 6], Some Examples.dat)] in
      let st := Examples.iterations 2 (Examples.scripted 3 script)
                  thread_init in
      let r1 := cache_read (Some (fst st)) [0; 0; 0; 0] 5 A_FORMAT_INIT in
      is_ready (fst st) = true /\ t_buffer (snd st) = [4; 5; 6]
      /\ r_ret r1 = 3 /\ r_fmt r1 = Examples.cd /\ r_ret r1 <> 4
      /\ exists h1,
           r_cache r1 = Some h1
           /\ let st' := Examples.iterations 1 h1 (snd st) in
              let r2 := cache_read (Some (fst st')) [0; 0; 0; 0] 5
                          A_FORMAT_INIT in
              let r3 := cache_read (r_cache r2) [0; 0; 0; 0] 5
                          A_FORMAT_INIT in
              r_ret r2 = 0 /\ r_fmt r2 = Examples.cd
              /\ r_ret r3 = 3 /\ r_fmt r3 = Examples.dat
              /\ firstn 3 (r_buffer r3) = [4; 5; 6]).
Proof.
  cbv zeta. split.
  - repeat split; vm_compute; try reflexivity; discriminate.
  - split; [vm_compute; reflexivity|]. split; [vm_compute; reflexivity|].
    split; [vm_compute; reflexivity|]. split; [vm_compute; reflexivity|].
    split; [vm_compute; discriminate|].
    eexists. split; [vm_compute; reflexivity|].
    repeat split; vm_compute; reflexivity.
Qed.

End CacheFacts.

(** ** The output *)

Module OutputFacts.

Import Output.

Ltac ssimpl :=
  cbn [res s_samplerate s_channels is_playing end_of_stream played abort
       s_volume cache delay event_cb event_ud buffering
       set_res set_s_samplerate set_s_channels set_is_playing
       set_end_of_stream set_played set_abort set_s_volume set_cache
       set_delay set_event_cb set_event_ud set_buffering
       in_buffer out_buffer fmt out_size first events emit fst snd] in *.

(** Milliseconds to samples and back, in integer arithmetic. *)
Lemma round_trip_div K M :
  0 < M -> 0 <= K ->
  let p := K * M / 1000 in
  p * 1000 / M <= K /\ (p * 1000 / M = K <-> (K * M) mod 1000 = 0).
Proof.
  intros HM HK p.
  pose proof (Z.div_mod (K * M) 1000 ltac:(lia)) as Hdm.
  pose proof (Z.mod_pos_bound (K * M) 1000 ltac:(lia)) as Hmod.
  fold p in Hdm.
  assert (Hle : p * 1000 <= K * M) by lia.
  assert (Hq : p * 1000 / M <= K).
  { apply Z.div_le_upper_bound; lia. }
  split; [exact Hq|]. split.
  - intros E.
    assert (K * M <= p * 1000).
    { rewrite <- E at 1. rewrite Z.mul_comm. apply Z.mul_div_le. lia. }
    lia.
  - intros E. replace (p * 1000) with (K * M) by lia.
    now apply Z.div_mul; lia.
Qed.


Section WithExternals.

Variables U R : Type.
Variable VMAX : Z.
Variables STREAM_PLAYING STREAM_PAUSED STREAM_ENDED : Z.
Variables CACHE_BUFFERING CACHE_READY : Z.
Variable resample_write :
  option R -> option (Cache.cache_handle U) -> list sample -> Z ->
  a_format -> Z * option R * option (Cache.cache_handle U).
Variable resample_flush : option R -> option R.
Variable resample_delay : option R -> Z.
Variable cache_delay : option (Cache.cache_handle U) -> Z.
Variable cache_set_time :
  option (Cache.cache_handle U) -> Z -> Z * option (Cache.cache_handle U).

Implicit Types (h : output U R) (s : output_stream U R) (m : mix_locals).

Abbreviation status :=
  (output_alsa_get_status_stream STREAM_PLAYING STREAM_PAUSED STREAM_ENDED
     CACHE_BUFFERING CACHE_READY cache_delay).
Abbreviation vol := (output_alsa_vol VMAX).

(** *** restore_stream and the played status (C3) *)

(** C3, amended: when the product K * samplerate * channels fits 64
    bits, the status read back after restore_stream(K) is at most K,
    and it is K exactly when that product is a multiple of 1000. *)
Theorem restore_then_played h s K :
  0 < o_samplerate h -> 0 < o_channels h -> 0 <= K ->
  K * o_samplerate h * o_channels h < 2 ^ 64 ->
  let p := status h (output_alsa_restore_stream h s K) OUTPUT_STREAM_PLAYED in
  p <= K /\ (p = K <-> (K * o_samplerate h * o_channels h) mod 1000 = 0).
Proof.
  intros Hsr Hch HK Hfit.
  unfold output_alsa_get_status_stream, output_alsa_restore_stream.
  cbn [played set_played].
  set (sr := o_samplerate h) in *. set (ch := o_channels h) in *.
  assert (H1 : 0 <= K * sr <= K * sr * ch) by nia.
  rewrite (ulong_small K) by nia.
  rewrite (ulong_small (K * sr)) by lia.
  rewrite (ulong_small (K * sr * ch)) by lia.
  pose proof (Z.div_mod (K * sr * ch) 1000 ltac:(lia)) as Hdm.
  pose proof (Z.mod_pos_bound (K * sr * ch) 1000 ltac:(lia)) as Hmod.
  rewrite (ulong_small (K * sr * ch / 1000 * 1000)) by lia.
  rewrite Z.div_div by lia.
  rewrite <- (Z.mul_assoc K sr ch).
  apply round_trip_div; lia.
Qed.

(** *** The mixer's arithmetic (C5) *)

Lemma output_alsa_add_saturates a b :
  in_int32 a -> in_int32 b ->
  output_alsa_add a b = Z.max INT32_MIN (Z.min INT32_MAX (a + b)).
Proof.
  unfold in_int32, INT32_MIN, INT32_MAX, output_alsa_add. intros Ha Hb.
  rewrite int64_small by lia.
  destruct (Z.gtb_spec (a + b) 2147483647);
    [|destruct (Z.ltb_spec (a + b) (-2147483648))];
    rewrite int32_small by (unfold in_int32, INT32_MIN, INT32_MAX; lia);
    lia.
Qed.

Lemma output_alsa_vol_full x :
  0 < VMAX < 2 ^ 32 -> in_int32 x -> vol x VMAX = x.
Proof.
  unfold in_int32, INT32_MIN, INT32_MAX, output_alsa_vol. intros HV Hx.
  rewrite int64_small by nia.
  rewrite Z.quot_mul by lia.
  apply int32_small. unfold in_int32, INT32_MIN, INT32_MAX. lia.
Qed.

Lemma length_mix_first v n : forall p_in p_out,
  length (mix_first VMAX v n p_in p_out) = length p_out.
Proof.
  induction n as [|n IH]; intros [|x p_in] [|y p_out]; cbn; auto.
Qed.

Lemma nth_error_mix_first v x : forall n i p_in p_out,
  (i < n)%nat -> (i < length p_out)%nat ->
  nth_error p_in i = Some x ->
  nth_error (mix_first VMAX v n p_in p_out) i = Some (vol x v).
Proof.
  induction n as [|n IH]; intros i p_in p_out Hi Hlen Hin; [lia|].
  destruct p_in as [|x0 p_in]; [destruct i; discriminate|].
  destruct p_out as [|y p_out]; [cbn in Hlen; lia|].
  destruct i as [|i]; cbn in *.
  - now injection Hin as ->.
  - apply IH; [lia | lia | assumption].
Qed.

Lemma nth_error_mix_add v x y : forall n i p_in p_out,
  (i < n)%nat ->
  nth_error p_in i = Some x ->
  nth_error p_out i = Some y ->
  nth_error (mix_add VMAX v n p_in p_out) i
  = Some (output_alsa_add y (vol x v)).
Proof.
  induction n as [|n IH]; intros i p_in p_out Hi Hin Hout; [lia|].
  destruct p_in as [|x0 p_in]; [destruct i; discriminate|].
  destruct p_out as [|y0 p_out]; [destruct i; discriminate|].
  destruct i as [|i]; cbn in *.
  - injection Hin as ->. now injection Hout as ->.
  - apply IH; [lia | assumption | assumption].
Qed.

(** The passage of the loop over a stream whose cache delivers frames. *)
Lemma mix_stream_data len s m :
  is_playing s = true -> end_of_stream s = false ->
  let r := Cache.cache_read (cache s) (in_buffer m) len (fmt m) in
  0 < Cache.r_ret r ->
  let ready := (delay s >? 0) && (buffering s =? 1) in
  mix_stream VMAX len s m
  = (set_played
       (let s := set_cache s (Cache.r_cache r) in
        if ready then set_buffering s 0 else s)
       (ulong (played s + Cache.r_ret r)),
     {| in_buffer := Cache.r_buffer r;
        out_buffer :=
          (if first m then mix_first VMAX else mix_add VMAX)
            (s_volume s) (Z.to_nat (Cache.r_ret r))
            (Cache.r_buffer r) (out_buffer m);
        fmt := Cache.r_fmt r;
        out_size := Cache.r_ret r;
        first := false;
        events :=
          events m
          ++ (if ready && event_cb s
              then [(event_ud s, STREAM_EVENT_READY)] else []) |}).
Proof.
  intros Hplay Heos r Hpos ready.
  unfold mix_stream. rewrite Hplay, Heos. cbn [negb orb].
  fold r.
  destruct (Z.leb_spec (Cache.r_ret r) 0) as [|_]; [lia|].
  cbn [delay buffering set_cache event_cb]. fold ready.
  destruct ready; cbn [andb].
  - destruct (event_cb s); cbn; destruct (first m); cbn;
      rewrite ?app_nil_r; reflexivity.
  - destruct (first m); cbn; rewrite ?app_nil_r; reflexivity.
Qed.

(** C5: in the integer build, two played streams at full volume whose
    reads both deliver INT32_MAX at an index leave INT32_MAX at that index
    of the mixed buffer; and in general the scaled sample is an int32 and
    its saturating sum with an int32 [a] is the exact sum clamped to
    [INT32_MIN, INT32_MAX]. *)
Theorem output_alsa_mix_saturates h s1 s2 in_buf out_buf len i a x v :
  0 < VMAX < 2 ^ 32 ->
  streams h = [s1; s2] ->
  is_playing s1 = true -> end_of_stream s1 = false -> s_volume s1 = VMAX ->
  is_playing s2 = true -> end_of_stream s2 = false -> s_volume s2 = VMAX ->
  let r1 := Cache.cache_read (cache s1) in_buf len A_FORMAT_INIT in
  let r2 := Cache.cache_read (cache s2) (Cache.r_buffer r1) len
              (Cache.r_fmt r1) in
  Z.of_nat i < Cache.r_ret r1 -> Z.of_nat i < Cache.r_ret r2 ->
  (i < length out_buf)%nat ->
  nth_error (Cache.r_buffer r1) i = Some INT32_MAX ->
  nth_error (Cache.r_buffer r2) i = Some INT32_MAX ->
  in_int32 a ->
  nth_error
    (m_out_buffer (output_alsa_mix_streams VMAX h in_buf out_buf len)) i
  = Some INT32_MAX
  /\ (let y := vol x v in
      in_int32 y
      /\ output_alsa_add a y = Z.max INT32_MIN (Z.min INT32_MAX (a + y))
      /\ in_int32 (output_alsa_add a y)).
Proof.
  intros HV Hss Hp1 He1 Hv1 Hp2 He2 Hv2 r1 r2 Hi1 Hi2 Hio Hx1 Hx2 Ha.
  split.
  - unfold output_alsa_mix_streams. rewrite Hss. cbn [mix_loop].
    rewrite (mix_stream_data len s1 _ Hp1 He1) by (cbn; fold r1; lia).
    cbn [in_buffer fmt first out_buffer]. fold r1.
    rewrite (mix_stream_data len s2 _ Hp2 He2) by (cbn; fold r2; lia).
    cbn [in_buffer fmt first out_buffer m_out_buffer]. fold r2.
    rewrite Hv1, Hv2.
    erewrite nth_error_mix_add; [| lia | exact Hx2 |].
    2:{ apply nth_error_mix_first; [lia | exact Hio | exact Hx1]. }
    rewrite output_alsa_vol_full
      by (assumption || (unfold in_int32, INT32_MIN, INT32_MAX; lia)).
    rewrite output_alsa_add_saturates
      by (unfold in_int32, INT32_MIN, INT32_MAX; lia).
    reflexivity.
  - intros y.
    assert (Hy : in_int32 y) by apply int32_range.
    split; [exact Hy|].
    rewrite output_alsa_add_saturates by assumption.
    split; [reflexivity|].
    unfold in_int32, INT32_MIN, INT32_MAX in *. lia.
Qed.

(** *** Buffering events (C8) *)

(** The event callback receives the callback data of the stream. *)
Lemma mix_visit_edge len s0 s v prev :
  0 < delay s0 -> tracks s0 s prev -> 0 <= read_of len v ->
  tracks s0 (fst (mix_visit VMAX len s v)) (0 <? read_of len v)
  /\ snd (mix_visit VMAX len s v)
     = edge_events (event_ud s0) prev (read_of len v).
Proof.
  intros Hdelay (Hplay & Heos & Hd & Hcb & Hud & Hbuf) Hr.
  unfold mix_visit, read_of in *.
  destruct v as [c m]. cbn [fst snd] in *.
  destruct (Z.eq_dec
              (Cache.r_ret (Cache.cache_read c (in_buffer m) len (fmt m))) 0)
    as [E0|N0].
  - (* no frames *)
    unfold mix_stream. ssimpl.
    rewrite Hplay, Heos. cbn [negb orb].
    rewrite E0. cbn [Z.leb Z.ltb Z.compare].
    rewrite Hd, Hcb, Hbuf.
    destruct (Z.gtb_spec (delay s0) 0) as [_|]; [|lia].
    unfold edge_events, tracks.
    destruct prev; cbn; rewrite ?Hud; repeat split; assumption.
  - (* frames *)
    rewrite mix_stream_data; ssimpl; try assumption; try lia.
    set (r := Cache.r_ret _) in *.
    rewrite Hd, Hcb, Hbuf, Hud.
    destruct (Z.gtb_spec (delay s0) 0) as [_|]; [|lia].
    unfold edge_events, tracks.
    destruct (Z.ltb_spec 0 r) as [_|]; [|lia].
    destruct (Z.eqb_spec r 0) as [|_]; [lia|].
    destruct prev; cbn; repeat split; assumption.
Qed.

Lemma mix_visits_cons len s v vs :
  mix_visits VMAX len s (v :: vs)
  = snd (mix_visit VMAX len s v)
    :: mix_visits VMAX len (fst (mix_visit VMAX len s v)) vs.
Proof. cbn [mix_visits]. now destruct (mix_visit VMAX len s v). Qed.

Lemma no_double_buffering_edge ud prev r l :
  0 <= r ->
  no_double_buffering (negb (0 <? r)) l = true ->
  no_double_buffering (negb prev) (map snd (edge_events ud prev r) ++ l) = true.
Proof.
  intros Hr Hl. unfold edge_events.
  destruct (Z.eqb_spec r 0) as [->|Hne]; destruct prev; cbn in *;
    try assumption;
    destruct (Z.ltb_spec 0 r); cbn in *; try assumption; lia.
Qed.


(** A visit whose read reports the end of the stream. *)
Lemma mix_visit_end len s0 s v prev :
  tracks s0 s prev -> read_of len v < 0 ->
  end_of_stream (fst (mix_visit VMAX len s v)) = true
  /\ snd (mix_visit VMAX len s v) = [(event_ud s0, STREAM_EVENT_END)].
Proof.
  intros (Hplay & Heos & Hd & Hcb & Hud & Hbuf) Hr.
  unfold mix_visit, read_of in *.
  destruct v as [c m]. cbn [fst snd] in *.
  unfold mix_stream. ssimpl.
  rewrite Hplay, Heos. cbn [negb orb].
  destruct (Z.leb_spec (Cache.r_ret (Cache.cache_read c (in_buffer m) len (fmt m))) 0);
    [|lia].
  destruct (Z.ltb_spec (Cache.r_ret (Cache.cache_read c (in_buffer m) len (fmt m))) 0);
    [|lia].
  ssimpl. rewrite Hcb. ssimpl. rewrite Hud. split; reflexivity.
Qed.

(** A stream at its end is passed over. *)
Lemma mix_visits_ended len : forall vs s,
  end_of_stream s = true ->
  mix_visits VMAX len s vs = map (fun _ => []) vs.
Proof.
  induction vs as [|v vs IH]; intros s Heos; [reflexivity|].
  rewrite mix_visits_cons.
  assert (E : mix_visit VMAX len s v = (set_cache s (fst v), [])).
  { unfold mix_visit, mix_stream. ssimpl. rewrite Heos, orb_true_r.
    reflexivity. }
  rewrite E. cbn [fst snd map]. f_equal. now apply IH.
Qed.

Lemma concat_nils {A B} (l : list A) :
  concat (map (fun _ => @nil B) l) = [].
Proof. induction l; [reflexivity | assumption]. Qed.

Lemma nth_nils {A B} (l : list A) i :
  nth i (map (fun _ => @nil B) l) [] = [].
Proof. revert i. induction l; intros [|i]; cbn; auto. Qed.

Lemma mix_visits_edges len s0 : forall vs s prev,
  0 < delay s0 -> tracks s0 s prev ->
  let reads := map (read_of len) vs in
  let evs := mix_visits VMAX len s vs in
  length evs = length vs
  /\ (forall i, (i < length vs)%nat ->
        nth i evs [] = visit_events (event_ud s0) prev reads i)
  /\ no_double_buffering (negb prev) (map snd (concat evs)) = true.
Proof.
  induction vs as [|v vs IH]; intros s prev Hdelay Htr.
  - cbn. split; [reflexivity|]. split; [intros i Hi; lia | reflexivity].
  - cbv zeta. rewrite mix_visits_cons. cbn [map length concat].
    destruct (Z.leb_spec 0 (read_of len v)) as [Hv|Hv].
    + destruct (mix_visit_edge len s0 s v prev Hdelay Htr Hv) as [Htr' Hev].
      destruct (IH _ _ Hdelay Htr') as (IHlen & IHnth & IHndb).
      split; [now rewrite IHlen|]. split.
      * intros [|i] Hi; unfold visit_events; cbn [nth delivering firstn forallb].
        -- destruct (Z.ltb_spec (read_of len v) 0); [lia | exact Hev].
        -- rewrite IHnth by (cbn in Hi; lia).
           destruct (Z.leb_spec 0 (read_of len v)) as [_|]; [|lia].
           cbn [andb]. unfold visit_events.
           destruct i; reflexivity.
      * rewrite map_app, Hev.
        apply no_double_buffering_edge; assumption.
    + destruct (mix_visit_end len s0 s v prev Htr Hv) as [Heos Hev].
      rewrite (mix_visits_ended len vs _ Heos), Hev.
      split; [now rewrite length_map|]. split.
      * intros [|i] Hi; unfold visit_events; cbn [nth firstn forallb].
        -- destruct (Z.ltb_spec (read_of len v) 0); [reflexivity | lia].
        -- destruct (Z.leb_spec 0 (read_of len v)) as [|_]; [lia|].
           cbn [andb]. apply nth_nils.
      * rewrite concat_nils. reflexivity.
Qed.

(** C8: a played stream with a cache delay and a registered event
    callback, not buffering at the start.  Whatever the mixer finds at each
    of its visits, the events of visit i are exactly those the reads call
    for: one STREAM_EVENT_BUFFERING when the read returns 0 and the read
    before returned frames (or there was none), one STREAM_EVENT_READY
    when the read returns frames and the read before returned 0, nothing
    otherwise (STREAM_EVENT_END at the first negative read, nothing after
    it); and no BUFFERING follows a BUFFERING without a READY between. *)
Theorem buffering_edges len s vs :
  0 < delay s -> event_cb s = true ->
  is_playing s = true -> end_of_stream s = false -> buffering s = 0 ->
  let reads := map (read_of len) vs in
  let evs := mix_visits VMAX len s vs in
  length evs = length vs
  /\ (forall i, (i < length vs)%nat ->
        nth i evs [] = visit_events (event_ud s) true reads i)
  /\ no_double_buffering false (map snd (concat evs)) = true.
Proof.
  intros Hdelay Hcb Hplay Heos Hbuf.
  apply (mix_visits_edges len s vs s true Hdelay).
  repeat split; assumption.
Qed.

(** *** abort_stream and write_stream (C10) *)

Abbreviation run_call :=
  (call VMAX resample_write resample_flush resample_delay cache_delay
     cache_set_time).
Abbreviation run_calls :=
  (calls VMAX resample_write resample_flush resample_delay cache_delay
     cache_set_time).

(** The mixer never writes the [abort] flag. *)
Lemma mix_stream_abort len s m :
  abort (fst (mix_stream VMAX len s m)) = abort s.
Proof.
  unfold mix_stream.
  repeat match goal with
         | |- context [if ?c then _ else _] => destruct c
         end; reflexivity.
Qed.

(** Nor does any other call, except abort_stream, which sets it. *)
Lemma call_keeps_abort h s c s1 :
  abort s = true -> run_call h s c = Some s1 -> abort s1 = true.
Proof.
  intros Hab. destruct c; cbn [call].
  - unfold output_alsa_play_stream. ssimpl.
    destruct (unlock_cache (cache s)); [|discriminate].
    intros [= <-]. exact Hab.
  - intros [= <-]. exact Hab.
  - unfold output_alsa_flush_stream.
    destruct (cache s) as [c|]; [|discriminate].
    destruct (Cache.cache_flush c) as [c1|]; [|discriminate].
    ssimpl. destruct (is_playing s); intros [= <-]; exact Hab.
  - unfold output_alsa_write_stream. rewrite Hab. cbn. intros [= <-]. exact Hab.
  - intros [= <-]. exact Hab.
  - unfold output_alsa_set_cache_stream.
    destruct (cache_set_time (cache s) cache_ms) as [ret c].
    destruct (ret =? 0); intros [= <-]; exact Hab.
  - intros [= <-]. exact Hab.
  - destruct (cache s); [|destruct (status_reads_cache s key)];
      [| discriminate |]; intros [= <-]; exact Hab.
  - unfold output_alsa_abort_stream. ssimpl.
    destruct (cache s) as [c|]; [|discriminate].
    destruct (Cache.cache_lock c); [|discriminate].
    intros [= <-]. reflexivity.
  - intros [= <-]. exact Hab.
  - intros [= <-]. now rewrite mix_stream_abort.
  - destruct (cache s) as [c|]; [|intros [= <-]; exact Hab].
    destruct (Cache.cache_read_thread c t); [discriminate| |];
      intros [= <-]; exact Hab.
Qed.

Lemma calls_keep_abort h cs : forall s s1,
  abort s = true -> run_calls h s cs = Some s1 -> abort s1 = true.
Proof.
  induction cs as [|c cs IH]; intros s s1 Hab; cbn [calls].
  - now intros [= <-].
  - destruct (run_call h s c) as [s'|] eqn:Ec; [|discriminate].
    apply IH. exact (call_keeps_abort h s c s' Hab Ec).
Qed.

(** C10: once abort_stream has returned, after any further calls on the
    stream, write_stream returns 0 and leaves the stream, with its cache
    and its resampler, as it was, whatever resample_write would do. *)
Theorem write_after_abort h s played_ms s1 cs s2 write buf count fmt :
  output_alsa_abort_stream resample_delay cache_delay h s
  = Some (played_ms, s1) ->
  run_calls h s1 cs = Some s2 ->
  output_alsa_write_stream write h s2 buf count fmt = (0, s2).
Proof.
  intros Habort Hcalls.
  assert (Hab : abort s1 = true).
  { unfold output_alsa_abort_stream in Habort. ssimpl.
    destruct (cache s) as [c|]; [|discriminate].
    destruct (Cache.cache_lock c); [|discriminate].
    now injection Habort as _ <-. }
  unfold output_alsa_write_stream.
  now rewrite (calls_keep_abort h cs s1 s2 Hab Hcalls).
Qed.

End WithExternals.

(** *** The definitions at work on concrete streams *)

(** C3: at 44100 Hz stereo, restore_stream(1) stores 88 samples, which
    are reported as 0 ms. *)
Lemma restore_then_played_truncates :
  output_alsa_get_status_stream 0 1 2 0 1 Examples.cache_delay
    (Examples.out [])
    (output_alsa_restore_stream (Examples.out [])
       (Examples.stream Examples.full2 0) 1)
    OUTPUT_STREAM_PLAYED
  <> 1.
Proof. vm_compute. discriminate. Qed.

Lemma restore_then_played_witness :
  let h := Examples.out [] in
  let p :=
    output_alsa_get_status_stream 0 1 2 0 1 Examples.cache_delay h
      (output_alsa_restore_stream h (Examples.stream Examples.full2 0) 1000)
      OUTPUT_STREAM_PLAYED in
  (1000 * 44100 * 2) mod 1000 = 0
  /\ p <= 1000
  /\ (p = 1000 <-> (1000 * 44100 * 2) mod 1000 = 0).
Proof.
  split; [reflexivity|].
  refine (restore_then_played unit unit 0 1 2 0 1 Examples.cache_delay
            (Examples.out []) (Examples.stream Examples.full2 0) 1000
            _ _ _ _); cbn; lia.
Defined.

(** C2: the value returned by output_alsa_mix_streams is the count of the
    last stream that contributed.  With a first stream that contributes 4
    samples and a second one that contributes 2, it returns 2. *)
Theorem output_alsa_mix_streams_last_size :
  let h := Examples.out [Examples.stream Examples.full4 0;
                         Examples.stream Examples.full2 0] in
  let r := output_alsa_mix_streams Examples.OUTPUT_VOLUME_MAX h
             [0; 0; 0; 0] [0; 0; 0; 0] 4 in
  map played (streams (m_output r)) = [4; 2]
  /\ m_out_buffer r = [11; 22; 30; 40]
  /\ m_ret r = 2
  /\ m_ret r <> Z.max 4 2.
Proof. cbv zeta. repeat split; vm_compute; try reflexivity; discriminate. Qed.

Lemma output_alsa_mix_saturates_witness :
  let h := Examples.out [Examples.stream Examples.loud 0;
                         Examples.stream Examples.loud 0] in
  nth_error
    (m_out_buffer
       (output_alsa_mix_streams Examples.OUTPUT_VOLUME_MAX h
          [0; 0; 0; 0] [0; 0; 0; 0] 4)) 1
  = Some INT32_MAX
  /\ (let y := output_alsa_vol Examples.OUTPUT_VOLUME_MAX (-5) 20000 in
      in_int32 y
      /\ output_alsa_add INT32_MIN y
         = Z.max INT32_MIN (Z.min INT32_MAX (INT32_MIN + y))
      /\ in_int32 (output_alsa_add INT32_MIN y)).
Proof.
  refine (output_alsa_mix_saturates unit unit Examples.OUTPUT_VOLUME_MAX
            (Examples.out [Examples.stream Examples.loud 0;
                           Examples.stream Examples.loud 0])
            (Examples.stream Examples.loud 0)
            (Examples.stream Examples.loud 0)
            [0; 0; 0; 0] [0; 0; 0; 0] 4 1%nat INT32_MIN (-5) 20000
            _ eq_refl eq_refl eq_refl eq_refl eq_refl eq_refl eq_refl
            _ _ _ eq_refl eq_refl _).
  - unfold Examples.OUTPUT_VOLUME_MAX. lia.
  - vm_compute. reflexivity.
  - vm_compute. reflexivity.
  - cbn. lia.
  - unfold in_int32, INT32_MIN, INT32_MAX. lia.
Defined.

Lemma buffering_edges_witness :
  let s := Examples.stream Examples.half 500 in
  let vs := [(Some Examples.half, Examples.locals);
             (Some Examples.full2, Examples.locals);
             (Some Examples.half, Examples.locals)] in
  let reads := map (read_of 4) vs in
  let evs := mix_visits Examples.OUTPUT_VOLUME_MAX 4 s vs in
  reads = [0; 2; 0]
  /\ evs = [[(1, STREAM_EVENT_BUFFERING)]; [(1, STREAM_EVENT_READY)];
            [(1, STREAM_EVENT_BUFFERING)]]
  /\ length evs = length vs
  /\ (forall i, (i < length vs)%nat ->
        nth i evs [] = visit_events (event_ud s) true reads i)
  /\ no_double_buffering false (map snd (concat evs)) = true.
Proof.
  split; [reflexivity|]. split; [reflexivity|].
  refine (buffering_edges unit unit Examples.OUTPUT_VOLUME_MAX 4
            (Examples.stream Examples.half 500) _
            _ eq_refl eq_refl eq_refl eq_refl).
  cbn. lia.
Defined.

Lemma write_after_abort_witness :
  let h := Examples.out [] in
  let s := Examples.stream Examples.full2 0 in
  let cs := [PlayStream; FlushStream; WriteStream [5; 6] 2 Examples.cd;
             MixStream 4 Examples.locals; RestoreStream 5; PauseStream] in
  exists played_ms s1 s2,
    output_alsa_abort_stream Examples.resample_delay Examples.cache_delay h s
    = Some (played_ms, s1)
    /\ calls Examples.OUTPUT_VOLUME_MAX Examples.resample_write
         Examples.resample_flush Examples.resample_delay
         Examples.cache_delay Examples.cache_set_time h s1 cs
       = Some s2
    /\ output_alsa_write_stream Examples.resample_write h s2 [7; 8] 2
         Examples.cd
       = (0, s2).
Proof.
  cbv zeta. eexists _, _, _.
  split; [reflexivity|]. split; [reflexivity|].
  refine (write_after_abort unit unit Examples.OUTPUT_VOLUME_MAX
            Examples.resample_write Examples.resample_flush
            Examples.resample_delay Examples.cache_delay
            Examples.cache_set_time (Examples.out [])
            (Examples.stream Examples.full2 0) _ _
            [PlayStream; FlushStream; WriteStream [5; 6] 2 Examples.cd;
             MixStream 4 Examples.locals; RestoreStream 5; PauseStream]
            _ _ _ _ _ eq_refl eq_refl).
Defined.

End OutputFacts.

(** ** The cache under any sequence of calls *)

Module CacheRunFacts.

Import Cache CacheFacts CacheCalls.

Section WithUserData.

Variable U : Type.
Implicit Types (h : cache_handle U) (buf : list sample) (fmt : a_format).

Lemma cache_inv_flush_flag h b : cache_inv h -> cache_inv (set_flush h b).
Proof. intros []. constructor; assumption. Qed.

Lemma cache_append_callback h data k in_fmt :
  input_callback (cache_append h data k in_fmt) = input_callback h.
Proof.
  unfold cache_append.
  repeat match goal with
         | |- context [if ?c then _ else _] => destruct c
         end; reflexivity.
Qed.

Lemma cache_open_inv sz ut cb u fl h0 :
  sz < 2 ^ 64 -> 0 <= sz ->
  cache_open sz ut cb u fl = Some h0 ->
  cache_inv h0 /\ input_callback h0 = match cb with Some f => f | None => input_callback h0 end
  /\ len h0 = 0 /\ is_ready h0 = false /\ input_lock h0 = false
  /\ size h0 = sz /\ use_thread h0 = ut /\ fmt_list h0 = [] /\ buffer h0 = []
  /\ user_data h0 = u /\ fmt_len h0 = 0.
Proof.
  intros Hsz Hsz0. unfold cache_open.
  destruct (Z.eqb_spec sz 0); [discriminate|].
  destruct cb as [f|]; [|discriminate].
  intros [= <-]. cbn.
  split; [constructor; cbn; try lia; try constructor; try discriminate|].
  repeat split.
Qed.

(** The statements of one producer iteration keep the handle consistent. *)
Lemma cache_read_thread_inv h t :
  cache_inv h ->
  match cache_read_thread h t with
  | Blocked => True
  | Exited h1 => cache_inv h1 /\ input_callback h1 = input_callback h
  | Continue h1 _ => cache_inv h1 /\ input_callback h1 = input_callback h
  end.
Proof.
  intros Hinv. unfold cache_read_thread.
  destruct (stop h); [now split|].
  unfold cache_lock. destruct (input_lock h); [exact I|].
  set (h1 := set_input_lock h true).
  assert (Hinv1 : cache_inv h1) by now apply cache_inv_input_lock.
  assert (Hfin : forall h2 staged f,
            cache_inv h2 -> input_callback h2 = input_callback h ->
            let '(h3, in_size) := cache_store h2 staged f in
            cache_inv (cache_unlock h3)
            /\ input_callback (cache_unlock h3) = input_callback h).
  { intros h2 staged f Hinv2 Hcb2.
    pose proof (cache_store_inv U h2 staged f Hinv2) as (H & _).
    unfold cache_store in *. cbn [fst] in *.
    split; [now apply cache_inv_input_lock|].
    hsimpl. now rewrite cache_append_callback. }
  destruct (flush h1) eqn:Efl.
  - cbn [t_buffer length Z.of_nat].
    destruct (0 <? BUFFER_SIZE / 4) eqn:E0.
    + destruct (input_callback _ _ _ _) as [r u].
      destruct (cb_ret r <? 0).
      * split; [now apply cache_inv_user_data, cache_inv_flush_flag|reflexivity].
      * match goal with |- context [cache_store ?a ?b ?c] =>
          specialize (Hfin a b c) end.
        destruct (cache_store _ _ _). apply Hfin; [|reflexivity].
        now apply cache_inv_user_data, cache_inv_flush_flag.
    + match goal with |- context [cache_store ?a ?b ?c] =>
        specialize (Hfin a b c) end.
      destruct (cache_store _ _ _). apply Hfin; [|reflexivity].
      now apply cache_inv_flush_flag.
  - destruct (Z.of_nat (length (t_buffer t)) <? BUFFER_SIZE / 4).
    + destruct (input_callback _ _ _ _) as [r u].
      destruct (cb_ret r <? 0).
      * split; [now apply cache_inv_user_data|reflexivity].
      * match goal with |- context [cache_store ?a ?b ?c] =>
          specialize (Hfin a b c) end.
        destruct (cache_store _ _ _). apply Hfin; [|reflexivity].
        now apply cache_inv_user_data.
    + specialize (Hfin h1 (t_buffer t) (t_in_fmt t)).
      destruct (cache_store _ _ _). apply Hfin; [assumption|reflexivity].
Qed.

Lemma cache_append_same h data k in_fmt :
  same_cache h (cache_append h data k in_fmt).
Proof.
  unfold same_cache, cache_append.
  repeat match goal with
         | |- context [if ?c then _ else _] => destruct c
         end; repeat split.
Qed.

Lemma cache_read_locked_same h buf count fmt :
  same_cache h (fst (fst (fst (cache_read_locked h buf count fmt)))).
Proof.
  pose proof (cache_read_locked_frame U h buf count fmt) as (H1 & H2 & _).
  pose proof (cache_read_locked_callback U h buf count fmt) as H3.
  repeat split; assumption.
Qed.

Lemma cache_read_same h buf count fmt h2 :
  r_cache (cache_read (Some h) buf count fmt) = Some h2 -> same_cache h h2.
Proof.
  pose proof (cache_read_locked_same h buf count fmt) as Hs.
  unfold cache_read.
  destruct (cache_read_locked h buf count fmt) as [[[h1 buf1] fmt1] n].
  cbn [fst] in Hs. destruct Hs as (Hcb & Hsz & Hut).
  destruct (negb (use_thread h1) && (len h1 <? size h1));
    [|intros [= <-]; repeat split; assumption].
  unfold input_trylock.
  destruct (input_lock h1); [intros [= <-]; repeat split; assumption|].
  destruct (input_callback _ _ _ _) as [r u].
  destruct (cb_ret r <? 0).
  - destruct (len _ =? 0); intros [= <-]; repeat split; assumption.
  - intros [= <-].
    destruct (cache_append_same (set_user_data (set_input_lock h1 true) u)
                (firstn (Z.to_nat (cb_ret r)) (cb_data r)) (cb_ret r) (cb_fmt r))
      as (A1 & A2 & A3).
    hsimpl. unfold same_cache. hsimpl. rewrite A1, A2, A3.
    repeat split; assumption.
Qed.

Lemma cache_read_thread_same h t :
  match cache_read_thread h t with
  | Blocked => True
  | Exited h1 => same_cache h h1
  | Continue h1 _ => same_cache h h1
  end.
Proof.
  unfold cache_read_thread.
  destruct (stop h); [repeat split|].
  unfold cache_lock. destruct (input_lock h); [exact I|].
  assert (Hfin : forall h2 staged f,
            same_cache h h2 ->
            let '(h3, in_size) := cache_store h2 staged f in
            same_cache h (cache_unlock h3)).
  { intros h2 staged f (B1 & B2 & B3). unfold cache_store.
    destruct (cache_append_same h2
                (firstn (Z.to_nat (if ulong (size h2 - len h2) >? Z.of_nat (length staged)
                                   then Z.of_nat (length staged)
                                   else ulong (size h2 - len h2))) staged)
                (if ulong (size h2 - len h2) >? Z.of_nat (length staged)
                 then Z.of_nat (length staged)
                 else ulong (size h2 - len h2)) f) as (A1 & A2 & A3).
    unfold same_cache. hsimpl. rewrite A1, A2, A3. repeat split; assumption. }
  destruct (flush (set_input_lock h true));
    repeat match goal with
           | |- context [if ?c then _ else _] => destruct c
           | |- context [let '(_, _) := input_callback ?a ?b ?c ?d in _] =>
               destruct (input_callback a b c d) as [r u]
           | |- context [cache_store ?a ?b ?c] =>
               specialize (Hfin a b c); destruct (cache_store a b c);
               apply Hfin
           end; repeat split.
Qed.

Lemma cache_flush_same h h1 : cache_flush h = Some h1 -> same_cache h h1.
Proof.
  unfold cache_flush, cache_lock.
  destruct (input_lock h); [discriminate|]. hsimpl.
  destruct (use_thread h) eqn:E; intros [= <-]; repeat split; cbn; congruence.
Qed.

Lemma cache_step_consistent cb h0 h1 c h2 :
  (forall u n f, cb_honours (fst (cb u n f)) n) ->
  input_callback h0 = cb ->
  cache_inv h1 -> same_cache h0 h1 -> call_in_range c ->
  cache_step h1 c = Some h2 -> cache_inv h2 /\ same_cache h0 h2.
Proof.
  intros Hcb Hcb0 Hinv1 (S1 & S2 & S3) Hc Estep.
  assert (Htrans : same_cache h1 h2 -> same_cache h0 h2).
  { intros (T1 & T2 & T3). repeat split; congruence. }
  destruct c; cbn [cache_step call_in_range] in *.
  - destruct (cache_read_inv U h1 buf count fmt Hinv1 Hc) as (h3 & E3 & H3).
    + intros u0 n f. rewrite S1, Hcb0. apply Hcb.
    + split; [congruence|]. apply Htrans. now apply (cache_read_same h1 buf count fmt).
  - split; [now destruct (cache_flush_inv U h1 h2 Hinv1 Estep)|].
    apply Htrans. now apply cache_flush_same.
  - revert Estep. unfold cache_lock. destruct (input_lock h1); [discriminate|].
    intros [= <-]. split; [now apply cache_inv_input_lock|]. now apply Htrans.
  - injection Estep as <-. split; [now apply cache_inv_input_lock|]. now apply Htrans.
  - pose proof (cache_read_thread_inv h1 t Hinv1) as Ht.
    pose proof (cache_read_thread_same h1 t) as Hs.
    revert Estep.
    destruct (cache_read_thread h1 t); [discriminate| |];
      intros [= <-]; (split; [apply Ht | now apply Htrans]).
Qed.

(** X1: whatever the consumer, the callers of flush, lock and unlock and
    the producer thread do to a cache after cache_open, in any order, the
    handle stays consistent: at most [size] frames are cached, the buffer
    holds exactly [len] of them, while a format is recorded the segments
    after the first and [fmt_len] add up to [len], and the cache is ready
    only when it holds frames; capacity and mode never change.  The input
    callback is assumed to return an error or at most the count it was
    asked for, with that many frames. *)
Theorem cache_run_consistent sz ut cb u fl h0 cs h :
  0 <= sz < 2 ^ 64 ->
  cache_open sz ut (Some cb) u fl = Some h0 ->
  (forall u n f, cb_honours (fst (cb u n f)) n) ->
  Forall call_in_range cs ->
  cache_run h0 cs = Some h ->
  cache_inv h /\ size h = sz /\ use_thread h = ut.
Proof.
  intros Hsz Hopen Hcb Hcs Hrun.
  destruct (cache_open_inv sz ut (Some cb) u fl h0 ltac:(lia) ltac:(lia) Hopen)
    as (Hinv0 & Hcb0 & _ & _ & _ & Hsz0 & Hut0 & _).
  assert (Hgen : forall cs h1 h2,
            Forall call_in_range cs ->
            cache_inv h1 -> same_cache h0 h1 ->
            cache_run h1 cs = Some h2 -> cache_inv h2 /\ same_cache h0 h2).
  { clear Hrun Hcs cs. induction cs as [|c cs IH];
      intros h1 h2 Hcs Hinv1 Hs1; cbn [cache_run].
    - intros [= <-]. now split.
    - destruct (cache_step h1 c) as [h1'|] eqn:Estep; [|discriminate].
      destruct (cache_step_consistent cb h0 h1 c h1' Hcb Hcb0 Hinv1 Hs1
                  (Forall_inv Hcs) Estep) as [Hi Hs].
      apply IH; [exact (Forall_inv_tail Hcs) | exact Hi | exact Hs]. }
  destruct (Hgen cs h0 h Hcs Hinv0 ltac:(repeat split) Hrun)
    as (Hinv & _ & Hs & Hu).
  split; [exact Hinv|]. split; congruence.
Qed.

Lemma cache_store_conserves h staged f :
  cache_inv h ->
  buffer (fst (cache_store h staged f))
  ++ skipn (Z.to_nat (snd (cache_store h staged f))) staged
  = buffer h ++ staged.
Proof.
  intros Hinv. pose proof Hinv as [Hsz Hlen _ _ _ _ _ _].
  unfold cache_store. cbn [fst snd].
  set (k := if ulong (size h - len h) >? Z.of_nat (length staged)
            then Z.of_nat (length staged) else ulong (size h - len h)).
  assert (Hk : 0 <= k <= size h - len h).
  { subst k. rewrite (ulong_small (size h - len h)) by lia.
    destruct (Z.gtb_spec (size h - len h) (Z.of_nat (length staged))); lia. }
  clearbody k.
  destruct (cache_append_shape U h (firstn (Z.to_nat k) staged) k f Hinv Hk)
    as (Hb & _).
  rewrite Hb, <- app_assoc. now rewrite firstn_skipn.
Qed.

(** X2: one iteration of the producer thread neither loses nor reorders
    frames.  What was cached, then what was staged (nothing when a flush
    was requested), then what the callback delivered is, in that order,
    what is cached and what stays staged afterwards; the staging buffer
    never holds more than BUFFER_SIZE / 4 frames and the iteration
    gives the lock back. *)
Theorem cache_read_thread_conserves h t h1 t1 :
  cache_inv h ->
  Z.of_nat (length (t_buffer t)) <= BUFFER_SIZE / 4 ->
  (forall u n f, cb_honours (fst (input_callback h u n f)) n) ->
  cache_read_thread h t = Continue h1 t1 ->
  let staged := if flush h then [] else t_buffer t in
  let room := BUFFER_SIZE / 4 - Z.of_nat (length staged) in
  let r := fst (input_callback h (user_data h) room (t_in_fmt t)) in
  let delivered :=
    if 0 <? room then firstn (Z.to_nat (cb_ret r)) (cb_data r) else [] in
  buffer h1 ++ t_buffer t1 = buffer h ++ staged ++ delivered
  /\ Z.of_nat (length (t_buffer t1)) <= BUFFER_SIZE / 4
  /\ input_lock h1 = false.
Proof.
  intros Hinv Hst Hcb. unfold cache_read_thread.
  destruct (stop h); [discriminate|].
  unfold cache_lock. destruct (input_lock h); [discriminate|].
  change (flush (set_input_lock h true)) with (flush h).
  assert (Hfin : forall h2 staged f h3 t3,
            cache_inv h2 -> buffer h2 = buffer h ->
            Z.of_nat (length staged) <= BUFFER_SIZE / 4 ->
            (let '(h4, in_size) := cache_store h2 staged f in
             Continue (cache_unlock h4)
               {| t_in_fmt := f; t_buffer := skipn (Z.to_nat in_size) staged |})
            = Continue h3 t3 ->
            buffer h3 ++ t_buffer t3 = buffer h ++ staged
            /\ Z.of_nat (length (t_buffer t3)) <= BUFFER_SIZE / 4
            /\ input_lock h3 = false).
  { intros h2 staged f h3 t3 Hinv2 Hb2 Hlen2.
    pose proof (cache_store_conserves h2 staged f Hinv2) as Hc.
    destruct (cache_store h2 staged f) as [h4 k]. cbn [fst snd] in Hc.
    intros [= <- <-]. cbn [t_buffer]. hsimpl.
    split; [now rewrite Hc, Hb2|]. split; [|reflexivity].
    rewrite length_skipn. lia. }
  assert (Hinv' : forall fl u, cache_inv
            (set_user_data (set_flush (set_input_lock h true) fl) u)).
  { intros fl u. now apply cache_inv_user_data, cache_inv_flush_flag,
      cache_inv_input_lock. }
  destruct (flush h) eqn:Efl; cbn [t_buffer t_in_fmt length Z.of_nat].
  - change (BUFFER_SIZE / 4 - 0) with (BUFFER_SIZE / 4).
    change (0 <? BUFFER_SIZE / 4) with true. cbn [andb].
    hsimpl.
    specialize (Hcb (user_data h) (BUFFER_SIZE / 4) (t_in_fmt t)).
    destruct (input_callback h (user_data h) (BUFFER_SIZE / 4) (t_in_fmt t))
      as [r u]. cbn [fst] in *.
    destruct (Z.ltb_spec (cb_ret r) 0); [discriminate|].
    destruct Hcb as [|[Hle Hdata]]; [lia|].
    intros Hres. cbn [app].
    apply (Hfin _ _ _ _ _ (Hinv' false u) eq_refl) in Hres; [exact Hres|].
    cbn [app]. rewrite length_firstn. lia.
  - set (room := BUFFER_SIZE / 4 - Z.of_nat (length (t_buffer t))).
    replace (Z.of_nat (length (t_buffer t)) <? BUFFER_SIZE / 4)
      with (0 <? room)
      by (subst room; destruct (Z.ltb_spec 0 (BUFFER_SIZE / 4 - Z.of_nat (length (t_buffer t))));
          destruct (Z.ltb_spec (Z.of_nat (length (t_buffer t))) (BUFFER_SIZE / 4)); lia).
    destruct (Z.ltb_spec 0 room) as [Hroom|Hroom].
    + hsimpl.
      specialize (Hcb (user_data h) room (t_in_fmt t)).
      destruct (input_callback h (user_data h) room (t_in_fmt t)) as [r u].
      cbn [fst] in *.
      destruct (Z.ltb_spec (cb_ret r) 0); [discriminate|].
      destruct Hcb as [|[Hle Hdata]]; [lia|].
      intros Hres.
      apply (Hfin _ _ _ _ _
               (cache_inv_user_data U _ u (cache_inv_input_lock U h true Hinv))
               eq_refl) in Hres; [exact Hres|].
      rewrite length_app, length_firstn. subst room. lia.
    + intros Hres. rewrite app_nil_r.
      apply (Hfin _ _ _ _ _ (cache_inv_input_lock U h true Hinv) eq_refl) in Hres;
        [exact Hres | exact Hst].
Qed.

(** X3: when the input callback fails, the producer thread leaves its
    loop with [input_lock] still held.  The cached frames stay as they
    were, but from then on cache_lock and cache_flush wait for ever, and
    so would another iteration of the thread. *)
Theorem cache_read_thread_error_keeps_lock h t :
  stop h = false -> input_lock h = false ->
  let staged := if flush h then [] else t_buffer t in
  let room := BUFFER_SIZE / 4 - Z.of_nat (length staged) in
  0 < room ->
  cb_ret (fst (input_callback h (user_data h) room (t_in_fmt t))) < 0 ->
  exists h1,
    cache_read_thread h t = Exited h1
    /\ input_lock h1 = true
    /\ cache_lock h1 = None /\ cache_flush h1 = None
    /\ (forall t1, cache_read_thread h1 t1 = Blocked)
    /\ buffer h1 = buffer h /\ len h1 = len h /\ fmt_list h1 = fmt_list h.
Proof.
  intros Hstop Hlock staged room Hroom Hneg.
  unfold cache_read_thread. rewrite Hstop. unfold cache_lock at 1.
  rewrite Hlock. change (flush (set_input_lock h true)) with (flush h).
  subst room staged.
  destruct (flush h); cbn [t_buffer t_in_fmt length Z.of_nat] in *.
  - change (0 <? BUFFER_SIZE / 4) with true. cbn iota. hsimpl.
    destruct (input_callback h (user_data h) (BUFFER_SIZE / 4 - 0) (t_in_fmt t))
      as [r u]. cbn [fst] in Hneg.
    destruct (Z.ltb_spec (cb_ret r) 0); [|lia].
    eexists. split; [reflexivity|].
    unfold cache_flush, cache_read_thread, cache_lock. hsimpl.
    rewrite Hstop. repeat split.
  - destruct (Z.ltb_spec (Z.of_nat (length (t_buffer t))) (BUFFER_SIZE / 4)); [|lia].
    hsimpl.
    destruct (input_callback h (user_data h) _ (t_in_fmt t)) as [r u].
    cbn [fst] in Hneg.
    destruct (Z.ltb_spec (cb_ret r) 0); [|lia].
    eexists. split; [reflexivity|].
    unfold cache_flush, cache_read_thread, cache_lock. hsimpl.
    rewrite Hstop. repeat split.
Qed.

Lemma cache_append_buffer h data k in_fmt :
  buffer (cache_append h data k in_fmt) = buffer h ++ data.
Proof.
  unfold cache_append.
  repeat match goal with
         | |- context [if ?c then _ else _] => destruct c
         end; reflexivity.
Qed.

(** What the locked section of cache_read does to the two buffers. *)
Lemma cache_read_locked_buffers h buf count fmt h1 buf1 fmt1 n :
  cache_inv h -> 0 <= count ->
  cache_read_locked h buf count fmt = (h1, buf1, fmt1, n) ->
  buf1 = memcpy buf (firstn (Z.to_nat n) (buffer h))
  /\ buffer h1 = skipn (Z.to_nat n) (buffer h).
Proof.
  intros Hinv Hcount Hlocked.
  destruct (cache_read_locked_inv U _ _ _ _ _ _ _ _ Hinv Hcount Hlocked)
    as (Hinv1 & Hn & Hnl & Hl1 & _).
  pose proof Hinv as [_ _ Hbuf _ _ _ _ _].
  pose proof Hinv1 as [_ _ Hbuf1 _ _ _ _ _].
  revert Hlocked. unfold cache_read_locked.
  destruct (is_ready h).
  2:{ intros [= <- <- <- <-]. cbn. split; reflexivity. }
  destruct (fmt_list h) as [|f [|nx rest]] eqn:El;
    unfold cache_get_format; rewrite ?El;
    repeat match goal with
           | |- context [if ?c then _ else _] => destruct c
           end; hsimpl; intros [= <- <- <- <-]; hsimpl;
    (split; [reflexivity|]); apply firstn_all2; rewrite length_skipn.
  all: try lia.
Qed.

Lemma firstn_skipn_memcpy dst src n :
  Z.of_nat (length src) = n ->
  firstn (Z.to_nat n) (memcpy dst src) = src
  /\ skipn (Z.to_nat n) (memcpy dst src) = skipn (Z.to_nat n) dst.
Proof.
  intros <-. rewrite Nat2Z.id. unfold memcpy. split.
  - rewrite firstn_app, Nat.sub_diag, firstn_all. cbn. apply app_nil_r.
  - rewrite skipn_app, Nat.sub_diag, skipn_all. reflexivity.
Qed.

(** X4: cache_read hands out a prefix of the cached frames and nothing
    else.  For some [n] of at most [count] and at most [len] frames, the
    first [n] frames of the caller's buffer are the [n] oldest cached
    frames, the rest of the caller's buffer is untouched, and the cache
    keeps the remaining frames in order, followed in pull mode by what
    the refill brought.  The value returned is [n], or -1 in pull mode
    when the refill failed. *)
Theorem cache_read_takes h buf count fmt :
  cache_inv h -> 0 <= count -> size h <= INT32_MAX ->
  let r := cache_read (Some h) buf count fmt in
  exists n h2 d,
    0 <= n <= count /\ n <= len h
    /\ (r_ret r = n \/ (use_thread h = false /\ r_ret r = -1))
    /\ firstn (Z.to_nat n) (r_buffer r) = firstn (Z.to_nat n) (buffer h)
    /\ skipn (Z.to_nat n) (r_buffer r) = skipn (Z.to_nat n) buf
    /\ r_cache r = Some h2
    /\ buffer h2 = skipn (Z.to_nat n) (buffer h) ++ d
    /\ (use_thread h = true -> d = []).
Proof.
  intros Hinv Hcount Hmax.
  destruct (cache_read_locked h buf count fmt)
    as [[[h1 buf1] fmt1] n] eqn:Hlocked.
  destruct (cache_read_locked_inv U _ _ _ _ _ _ _ _ Hinv Hcount Hlocked)
    as (Hinv1 & Hn & Hnl & Hl1 & Hs1 & Hlk1 & Hut1).
  destruct (cache_read_locked_buffers _ _ _ _ _ _ _ _ Hinv Hcount Hlocked)
    as (Hb1 & Hbh1).
  pose proof Hinv as [_ Hlen Hbuf _ _ _ _ _].
  assert (Hn32 : int32 n = n).
  { apply int32_small. unfold in_int32, INT32_MIN, INT32_MAX in *. lia. }
  assert (Hsrc : Z.of_nat (length (firstn (Z.to_nat n) (buffer h))) = n).
  { rewrite length_firstn. lia. }
  destruct (firstn_skipn_memcpy buf _ n Hsrc) as [Hf Hs].
  cbv zeta. unfold cache_read. rewrite Hlocked, Hn32.
  exists n.
  destruct (negb (use_thread h1) && (len h1 <? size h1)) eqn:Erefill.
  2:{ exists h1, []. cbn [r_ret r_buffer r_cache]. rewrite Hb1, Hf, Hs, Hbh1.
      rewrite app_nil_r. repeat split; auto; lia. }
  apply andb_prop in Erefill as [Ept _].
  assert (Hpull : use_thread h = false).
  { rewrite <- Hut1. now destruct (use_thread h1). }
  unfold input_trylock.
  destruct (input_lock h1).
  { exists h1, []. cbn [r_ret r_buffer r_cache]. rewrite Hb1, Hf, Hs, Hbh1.
    rewrite app_nil_r. repeat split; auto; try lia; congruence. }
  hsimpl.
  destruct (input_callback h1 (user_data h1) _ A_FORMAT_INIT) as [r u].
  destruct (cb_ret r <? 0).
  - destruct (len h1 =? 0);
      exists (set_user_data (set_input_lock h1 true) u), [];
      cbn [r_ret r_buffer r_cache]; rewrite Hb1, Hf, Hs; hsimpl;
      rewrite Hbh1, app_nil_r; repeat split; auto; lia.
  - exists (cache_unlock
              (cache_append (set_user_data (set_input_lock h1 true) u)
                 (firstn (Z.to_nat (cb_ret r)) (cb_data r))
                 (cb_ret r) (cb_fmt r))),
           (firstn (Z.to_nat (cb_ret r)) (cb_data r)).
    cbn [r_ret r_buffer r_cache]. rewrite Hb1, Hf, Hs. hsimpl.
    rewrite cache_append_buffer. hsimpl. rewrite Hbh1.
    repeat split; auto; try lia; congruence.
Qed.

Lemma cache_read_ret_range h buf count fmt :
  cache_inv h -> 0 <= count -> size h <= INT32_MAX ->
  -1 <= r_ret (cache_read (Some h) buf count fmt) <= count.
Proof.
  intros Hinv Hcount Hmax.
  destruct (cache_read_locked h buf count fmt)
    as [[[h1 buf1] fmt1] n] eqn:Hlocked.
  destruct (cache_read_locked_inv U _ _ _ _ _ _ _ _ Hinv Hcount Hlocked)
    as (_ & Hn & Hnl & _).
  pose proof Hinv as [_ Hlen _ _ _ _ _ _].
  assert (Hn32 : int32 n = n).
  { apply int32_small. unfold in_int32, INT32_MIN, INT32_MAX in *. lia. }
  unfold cache_read. rewrite Hlocked, Hn32.
  repeat match goal with
         | |- context [if ?c then _ else _] => destruct c
         | |- context [let '(_, _) := ?c in _] => destruct c
         | |- context [match ?c with (_, _) => _ end] => destruct c
         end; cbn [r_ret]; lia.
Qed.

Lemma cache_read_locked_out h buf count fmt :
  input_lock h = true -> is_ready h = false ->
  cache_read (Some h) buf count fmt
  = {| r_ret := 0; r_buffer := buf; r_fmt := fmt; r_cache := Some h |}.
Proof.
  intros Hlk Hrdy. unfold cache_read, cache_read_locked, input_trylock.
  rewrite Hrdy, Hlk.
  destruct (negb (use_thread h) && (len h <? size h)); reflexivity.
Qed.

(** X5: cache_flush returns with [input_lock] held.  Until someone
    calls cache_unlock the cache stays empty: every cache_read returns 0
    frames and leaves the handle and the callback's state as they are (in
    pull mode the refill is skipped), a second cache_flush or a cache_lock
    waits, and so does the producer thread. *)
Theorem cache_flush_locks h h1 n buf count fmt :
  cache_flush h = Some h1 ->
  len h1 = 0 /\ is_ready h1 = false /\ fmt_list h1 = []
  /\ user_data h1 = user_data h
  /\ cache_lock h1 = None /\ cache_flush h1 = None
  /\ (stop h = false -> forall t, cache_read_thread h1 t = Blocked)
  /\ cache_reads n h1 buf count fmt = (repeat 0 n, Some h1)
  /\ input_lock (cache_unlock h1) = false.
Proof.
  unfold cache_flush, cache_lock at 1.
  destruct (input_lock h) eqn:Hlk; [discriminate|]. hsimpl.
  intros [= <-].
  assert (Hfree : forall l : list cache_format, free_formats l = []).
  { induction l; [reflexivity | assumption]. }
  assert (Hkeep : forall (b : bool) h2,
            input_lock (if b then set_flush h2 true else h2) = input_lock h2
            /\ len (if b then set_flush h2 true else h2) = len h2
            /\ is_ready (if b then set_flush h2 true else h2) = is_ready h2
            /\ fmt_list (if b then set_flush h2 true else h2) = fmt_list h2
            /\ user_data (if b then set_flush h2 true else h2) = user_data h2
            /\ stop (if b then set_flush h2 true else h2) = stop h2).
  { intros [] h2; repeat split. }
  match goal with
  | |- context [if use_thread h then set_flush ?x true else _] =>
      destruct (Hkeep (use_thread h) x) as (Kl & Kn & Kr & Kf & Ku & Ks);
      set (h1 := if use_thread h then set_flush x true else x) in *
  end.
  hsimpl. rewrite Hfree in Kf.
  split; [exact Kn|]. split; [exact Kr|]. split; [exact Kf|].
  split; [exact Ku|].
  split; [unfold cache_lock; now rewrite Kl|].
  split; [unfold cache_flush, cache_lock; now rewrite Kl|].
  split.
  { intros Hstop t. unfold cache_read_thread, cache_lock.
    rewrite Ks, Hstop, Kl. reflexivity. }
  split; [|reflexivity].
  induction n as [|n IH]; [reflexivity|].
  cbn [cache_reads repeat].
  rewrite (cache_read_locked_out h1 buf count fmt Kl Kr).
  cbn [r_cache r_ret]. now rewrite IH.
Qed.

(** X6: for a consistent cache whose size times 100 fits an unsigned
    long, cache_get_filling is a percentage: it lies between 0 and 100,
    it is the integer part of 100 * len / size while the cache is not
    ready, and it is 100 exactly when the cache is ready or full. *)
Theorem cache_get_filling_percent h :
  cache_inv h -> size h * 100 < 2 ^ 64 ->
  0 <= cache_get_filling h <= 100
  /\ (is_ready h = false -> cache_get_filling h = len h * 100 / size h)
  /\ (cache_get_filling h = 100 <-> is_ready h = true \/ len h = size h).
Proof.
  intros [Hsz Hlen _ _ _ _ _ Hrdy] Hmax. unfold cache_get_filling.
  assert (Hp : 0 <= len h * 100 / size h <= 100).
  { split; [apply Z.div_pos; lia|].
    apply Z.div_le_upper_bound; lia. }
  assert (Hfull : len h * 100 / size h = 100 <-> len h = size h).
  { split.
    - intros E.
      pose proof (Z.mul_div_le (len h * 100) (size h) ltac:(lia)) as Hm.
      rewrite E in Hm. lia.
    - intros ->. rewrite Z.mul_comm. apply Z.div_mul. lia. }
  rewrite (ulong_small (len h * 100)) by nia.
  destruct (is_ready h).
  - change (100 mod 256) with 100. split; [lia|]. split; [discriminate|].
    split; auto.
  - rewrite Z.mod_small by lia. split; [lia|]. split; [reflexivity|].
    rewrite Hfull. split; [auto | intros [|]; [discriminate | assumption]].
Qed.

(** X7: a pull-mode cache starts delivering one call late.  On a cache
    just opened, whose callback delivers [size] frames at the first
    request, the first cache_read returns 0 and touches neither the
    caller's buffer nor its format although it has filled the cache; the
    second cache_read, asked for fewer than [size] frames, returns that
    many, which are the first frames the callback delivered, under the
    callback's format. *)
Theorem cache_read_first_fill sz cb u fl h0 data f u1 buf count fmt :
  0 < sz <= INT32_MAX ->
  cache_open sz false (Some cb) u fl = Some h0 ->
  cb u sz A_FORMAT_INIT
  = ({| cb_ret := sz; cb_data := data; cb_fmt := f |}, u1) ->
  Z.of_nat (length data) = sz ->
  0 <= count < sz ->
  let r1 := cache_read (Some h0) buf count fmt in
  let r2 := cache_read (r_cache r1) (r_buffer r1) count (r_fmt r1) in
  r_ret r1 = 0 /\ r_buffer r1 = buf /\ r_fmt r1 = fmt
  /\ r_ret r2 = count
  /\ firstn (Z.to_nat count) (r_buffer r2) = firstn (Z.to_nat count) data
  /\ skipn (Z.to_nat count) (r_buffer r2) = skipn (Z.to_nat count) buf
  /\ r_fmt r2 = f.
Proof.
  intros Hsz Hopen Hcb Hdata Hcount.
  unfold INT32_MAX in Hsz.
  unfold cache_open in Hopen.
  destruct (Z.eqb_spec sz 0); [lia|]. injection Hopen as <-.
  cbv zeta.
  assert (E1 : cache_read
                 (Some {| use_thread := false; input_callback := cb;
                          user_data := u; buffer := []; size := sz;
                          len := 0; pos := 0; is_ready := false;
                          fmt_list := []; fmt_len := 0;
                          input_lock := false; flush := fl;
                          stop := false |}) buf count fmt
               = {| r_ret := 0; r_buffer := buf; r_fmt := fmt;
                    r_cache :=
                      Some {| use_thread := false; input_callback := cb;
                              user_data := u1; buffer := data; size := sz;
                              len := sz; pos := 0; is_ready := true;
                              fmt_list := [{| cf_fmt := f; cf_len := 0 |}];
                              fmt_len := sz;
                              input_lock := false; flush := fl;
                              stop := false |} |}).
  { unfold cache_read, cache_read_locked, input_trylock. hsimpl.
    cbn [negb andb].
    destruct (Z.ltb_spec 0 sz); [|lia].
    rewrite Z.sub_0_r, (ulong_small sz) by lia. hsimpl.
    rewrite Hcb. cbn [cb_ret cb_data cb_fmt].
    destruct (Z.ltb_spec sz 0); [lia|].
    unfold cache_append, format_changed. hsimpl. cbn [rev].
    rewrite Z.add_0_l, (ulong_small sz) by lia. hsimpl.
    rewrite Z.add_0_l, (ulong_small sz) by lia.
    rewrite Z.eqb_refl. hsimpl. cbn [app].
    rewrite firstn_all2 by lia. reflexivity. }
  rewrite E1. cbn [r_ret r_buffer r_fmt r_cache].
  split; [reflexivity|]. split; [reflexivity|]. split; [reflexivity|].
  unfold cache_read, cache_read_locked, input_trylock. hsimpl.
  destruct (Z.gtb_spec count sz); [lia|].
  cbn [format_cpy]. hsimpl.
  rewrite (ulong_small (sz - count)) by lia. hsimpl.
  destruct (Z.eqb_spec (sz - count) 0); [lia|]. hsimpl.
  cbn [negb andb].
  destruct (Z.ltb_spec (sz - count) sz).
  2:{ assert (count = 0) as -> by lia. cbn [r_ret r_buffer r_fmt].
      change (int32 0) with 0. repeat split. }
  assert (Hc32 : int32 count = count).
  { apply int32_small. unfold in_int32, INT32_MIN, INT32_MAX. lia. }
  assert (Hsrc : Z.of_nat (length (firstn (Z.to_nat count) data)) = count).
  { rewrite length_firstn. lia. }
  destruct (firstn_skipn_memcpy buf _ count Hsrc) as [Hf Hs].
  destruct (cb u1 _ A_FORMAT_INIT) as [r u2].
  destruct (cb_ret r <? 0); [destruct (Z.eqb_spec (sz - count) 0); [lia|]|];
    cbn [r_ret r_buffer r_fmt]; rewrite Hc32, Hf, Hs; repeat split.
Qed.

End WithUserData.

(** *** The properties at work on concrete caches *)

Lemma cb_pair_honours u n f : cb_honours (fst (Examples.cb_pair u n f)) n.
Proof.
  unfold cb_honours, Examples.cb_pair. cbn [fst cb_ret cb_data].
  destruct (Z.ltb_spec n 0); [left; lia|]. right. split; [lia|].
  rewrite length_firstn. cbn [length]. lia.
Qed.

Lemma opened_inv cb sz ut :
  0 < sz < 2 ^ 64 -> cache_inv (Examples.opened cb sz ut).
Proof.
  intros H. constructor; cbn; try lia; try constructor; try discriminate.
Qed.

Lemma cache_run_consistent_witness :
  exists h0 h,
    cache_open 4 false (Some Examples.cb_pair) tt false = Some h0
    /\ cache_run h0 [DoRead [0; 0] 2 A_FORMAT_INIT;
                     DoRead [0; 0] 2 A_FORMAT_INIT;
                     DoRead [0; 0] 2 A_FORMAT_INIT;
                     DoFlush; DoUnlock;
                     DoRead [0; 0] 2 A_FORMAT_INIT] = Some h
    /\ len h = 2
    /\ cache_inv h /\ size h = 4 /\ use_thread h = false.
Proof.
  eexists _, _. split; [reflexivity|].
  split; [vm_compute; reflexivity|]. split; [reflexivity|].
  refine (cache_run_consistent unit 4 false Examples.cb_pair tt false _
            [DoRead [0; 0] 2 A_FORMAT_INIT;
             DoRead [0; 0] 2 A_FORMAT_INIT;
             DoRead [0; 0] 2 A_FORMAT_INIT;
             DoFlush; DoUnlock;
             DoRead [0; 0] 2 A_FORMAT_INIT] _
            _ eq_refl cb_pair_honours _ _).
  - lia.
  - repeat constructor; cbn; lia.
  - vm_compute. reflexivity.
Defined.

Lemma cache_read_thread_conserves_witness :
  let h := Examples.opened Examples.cb_pair 3 true in
  let t := {| t_in_fmt := Examples.cd; t_buffer := [1; 2] |} in
  exists h1 t1,
    cache_read_thread h t = Continue h1 t1
    /\ buffer h1 = [1; 2; 5] /\ t_buffer t1 = [6]
    /\ buffer h1 ++ t_buffer t1 = [] ++ [1; 2] ++ [5; 6]
    /\ Z.of_nat (length (t_buffer t1)) <= BUFFER_SIZE / 4
    /\ input_lock h1 = false.
Proof.
  cbv zeta. eexists _, _. split; [reflexivity|].
  split; [reflexivity|]. split; [reflexivity|].
  refine (cache_read_thread_conserves unit
            (Examples.opened Examples.cb_pair 3 true)
            {| t_in_fmt := Examples.cd; t_buffer := [1; 2] |} _ _
            (opened_inv _ 3 true _) _ cb_pair_honours eq_refl).
  - lia.
  - cbn. lia.
Defined.

Lemma cache_read_thread_error_keeps_lock_witness :
  let h := Examples.half in
  exists h1,
    cache_read_thread h thread_init = Exited h1
    /\ input_lock h1 = true
    /\ cache_lock h1 = None /\ cache_flush h1 = None
    /\ (forall t1, cache_read_thread h1 t1 = Blocked)
    /\ buffer h1 = buffer h /\ len h1 = len h /\ fmt_list h1 = fmt_list h.
Proof.
  refine (cache_read_thread_error_keeps_lock unit Examples.half thread_init
            eq_refl eq_refl _ _).
  - cbn. lia.
  - cbn. lia.
Defined.

Lemma cache_read_takes_witness :
  let r := cache_read (Some Examples.pull_full) [0; 0; 0] 3 A_FORMAT_INIT in
  r_ret r = 3 /\ r_buffer r = [1; 2; 3]
  /\ exists n h2 d,
    0 <= n <= 3 /\ n <= len Examples.pull_full
    /\ (r_ret r = n \/ (use_thread Examples.pull_full = false /\ r_ret r = -1))
    /\ firstn (Z.to_nat n) (r_buffer r)
       = firstn (Z.to_nat n) (buffer Examples.pull_full)
    /\ skipn (Z.to_nat n) (r_buffer r) = skipn (Z.to_nat n) [0; 0; 0]
    /\ r_cache r = Some h2
    /\ buffer h2 = skipn (Z.to_nat n) (buffer Examples.pull_full) ++ d
    /\ (use_thread Examples.pull_full = true -> d = []).
Proof.
  split; [reflexivity|]. split; [reflexivity|].
  refine (cache_read_takes unit Examples.pull_full [0; 0; 0] 3 A_FORMAT_INIT
            pull_full_inv _ _).
  - lia.
  - unfold INT32_MAX. cbn. lia.
Defined.

Lemma half_inv : cache_inv Examples.half.
Proof.
  apply (cache_store_inv unit (Examples.fresh 2 true) [7] Examples.cd).
  apply fresh_inv. lia.
Qed.

Lemma full4_inv : cache_inv Examples.full4.
Proof.
  apply (cache_store_inv unit (Examples.fresh 4 true) [10; 20; 30; 40]
           Examples.cd).
  apply fresh_inv. lia.
Qed.

Lemma full2_inv : cache_inv Examples.full2.
Proof.
  apply (cache_store_inv unit (Examples.fresh 2 true) [1; 2] Examples.cd).
  apply fresh_inv. lia.
Qed.

Lemma cache_flush_locks_witness :
  exists h1,
    cache_flush Examples.half = Some h1
    /\ len h1 = 0 /\ is_ready h1 = false /\ fmt_list h1 = []
    /\ user_data h1 = user_data Examples.half
    /\ cache_lock h1 = None /\ cache_flush h1 = None
    /\ (stop Examples.half = false ->
        forall t, cache_read_thread h1 t = Blocked)
    /\ cache_reads 3 h1 [0; 0] 2 Examples.cd = (repeat 0 3, Some h1)
    /\ input_lock (cache_unlock h1) = false.
Proof.
  eexists. split; [reflexivity|].
  exact (cache_flush_locks unit Examples.half _ 3 [0; 0] 2 Examples.cd
           eq_refl).
Defined.

Lemma cache_get_filling_percent_witness :
  cache_get_filling Examples.half = 50
  /\ 0 <= cache_get_filling Examples.half <= 100
  /\ (is_ready Examples.half = false ->
      cache_get_filling Examples.half
      = len Examples.half * 100 / size Examples.half)
  /\ (cache_get_filling Examples.half = 100
      <-> is_ready Examples.half = true
          \/ len Examples.half = size Examples.half).
Proof.
  split; [reflexivity|].
  refine (cache_get_filling_percent unit Examples.half half_inv _).
  cbn. lia.
Defined.

Lemma cache_read_first_fill_witness :
  let h0 := Examples.opened Examples.cb_pair 2 false in
  let r1 := cache_read (Some h0) [0; 0] 1 A_FORMAT_INIT in
  let r2 := cache_read (r_cache r1) (r_buffer r1) 1 (r_fmt r1) in
  r_ret r1 = 0 /\ r_buffer r1 = [0; 0] /\ r_fmt r1 = A_FORMAT_INIT
  /\ r_ret r2 = 1
  /\ firstn (Z.to_nat 1) (r_buffer r2) = firstn (Z.to_nat 1) [5; 6]
  /\ skipn (Z.to_nat 1) (r_buffer r2) = skipn (Z.to_nat 1) [0; 0]
  /\ r_fmt r2 = Examples.cd.
Proof.
  refine (cache_read_first_fill unit 2 Examples.cb_pair tt false
            (Examples.opened Examples.cb_pair 2 false) [5; 6] Examples.cd
            tt [0; 0] 1 A_FORMAT_INIT _ eq_refl eq_refl eq_refl _).
  - unfold INT32_MAX. lia.
  - lia.
Defined.

End CacheRunFacts.

(** ** The output: the stream API, the mixer and the thread *)

Module OutputRunFacts.

Import Output OutputThread OutputStreams OutputFacts.

Section WithExternals.

Variables U R : Type.
Variable VMAX : Z.
Variables STREAM_PLAYING STREAM_PAUSED STREAM_ENDED : Z.
Variables CACHE_BUFFERING CACHE_READY : Z.
Variable resample_write :
  option R -> option (Cache.cache_handle U) -> list sample -> Z ->
  a_format -> Z * option R * option (Cache.cache_handle U).
Variable resample_flush : option R -> option R.
Variable resample_delay : option R -> Z.
Variable cache_delay : option (Cache.cache_handle U) -> Z.
Variable cache_set_time :
  option (Cache.cache_handle U) -> Z -> Z * option (Cache.cache_handle U).

Implicit Types (h : output U R) (s : output_stream U R) (m : mix_locals).

Abbreviation status :=
  (output_alsa_get_status_stream STREAM_PLAYING STREAM_PAUSED STREAM_ENDED
     CACHE_BUFFERING CACHE_READY cache_delay).
Abbreviation flush_stream := (output_alsa_flush_stream resample_flush).
Abbreviation abort_stream :=
  (output_alsa_abort_stream resample_delay cache_delay).
Abbreviation vol := (output_alsa_vol VMAX).
Abbreviation run_call :=
  (call VMAX resample_write resample_flush resample_delay cache_delay
     cache_set_time).
Abbreviation run_calls :=
  (calls VMAX resample_write resample_flush resample_delay cache_delay
     cache_set_time).
Abbreviation body := (output_alsa_thread_body VMAX).
Abbreviation thread := (output_alsa_thread VMAX).
Abbreviation mix := (output_alsa_mix_streams VMAX).

(** *** The volume *)

(** X8: a stream volume between 0 and OUTPUT_VOLUME_MAX attenuates.
    For an int32 sample the scaled sample is the exact quotient
    x * v / OUTPUT_VOLUME_MAX truncated towards zero (no 64-bit or 32-bit
    wrap-around), its magnitude is at most that of the sample, its sign
    is never flipped, volume 0 gives silence and OUTPUT_VOLUME_MAX gives
    the sample itself. *)
Theorem output_alsa_vol_attenuates x v :
  0 < VMAX < 2 ^ 32 -> in_int32 x -> 0 <= v <= VMAX ->
  vol x v = Z.quot (x * v) VMAX
  /\ Z.abs (vol x v) <= Z.abs x
  /\ (0 <= x -> 0 <= vol x v) /\ (x <= 0 -> vol x v <= 0)
  /\ vol x 0 = 0 /\ vol x VMAX = x.
Proof.
  unfold in_int32, INT32_MIN, INT32_MAX, output_alsa_vol.
  intros HV Hx Hv.
  rewrite int64_small by nia.
  assert (Hq : Z.abs (Z.quot (x * v) VMAX) <= Z.abs x).
  { rewrite <- Z.quot_abs by lia. rewrite Z.abs_mul.
    rewrite (Z.abs_eq v), (Z.abs_eq VMAX) by lia.
    apply Z.quot_le_upper_bound; [lia|]. nia. }
  assert (Hpos : 0 <= x -> 0 <= Z.quot (x * v) VMAX).
  { intros Hx0. apply Z.quot_pos; nia. }
  assert (Hneg : x <= 0 -> Z.quot (x * v) VMAX <= 0).
  { intros Hx0. replace (x * v) with (- (- x * v)) by lia.
    rewrite Z.quot_opp_l by lia.
    assert (0 <= Z.quot (- x * v) VMAX) by (apply Z.quot_pos; nia). lia. }
  assert (Hr : in_int32 (Z.quot (x * v) VMAX)).
  { unfold in_int32, INT32_MIN, INT32_MAX. revert Hq Hpos Hneg.
    generalize (Z.quot (x * v) VMAX). intros q Hq Hpos Hneg. lia. }
  rewrite (int32_small _ Hr).
  split; [reflexivity|]. split; [exact Hq|].
  split; [exact Hpos|]. split; [exact Hneg|].
  split.
  - rewrite Z.mul_0_r, int64_small by lia. rewrite Z.quot_0_l by lia.
    reflexivity.
  - rewrite int64_small by nia. rewrite Z.quot_mul by lia.
    apply int32_small. unfold in_int32, INT32_MIN, INT32_MAX. lia.
Qed.

(** *** Streams the mixer passes over *)

Lemma mix_loop_passed_over len m : forall ss : list (output_stream U R),
  forallb passed_over ss = true -> mix_loop VMAX len ss m = (ss, m).
Proof.
  induction ss as [|s ss IH]; [reflexivity|].
  cbn [forallb mix_loop]. intros H. apply andb_prop in H as [Hs Hss].
  unfold mix_stream. unfold passed_over in Hs. rewrite Hs.
  now rewrite (IH Hss).
Qed.

Lemma set_streams_same h : set_streams h (streams h) = h.
Proof. now destruct h. Qed.

(** X9: streams that are paused or ended are not read.  When every
    stream of the output is in one of these states, the mixer returns 0,
    leaves both buffers, every stream and its cache as they are, and
    calls no event callback. *)
Theorem output_alsa_mix_streams_idle h in_buf out_buf len :
  forallb passed_over (streams h) = true ->
  output_alsa_mix_streams VMAX h in_buf out_buf len
  = {| m_ret := 0; m_output := h; m_in_buffer := in_buf;
       m_out_buffer := out_buf; m_events := [] |}.
Proof.
  intros H. unfold output_alsa_mix_streams.
  rewrite (mix_loop_passed_over _ _ _ H). cbn.
  now rewrite set_streams_same.
Qed.

(** *** The general volume *)

Lemma output_alsa_mix_streams_volume h volume in_buf out_buf len :
  output_alsa_mix_streams VMAX (set_o_volume h volume) in_buf out_buf len
  = let r := output_alsa_mix_streams VMAX h in_buf out_buf len in
    {| m_ret := m_ret r; m_output := set_o_volume (m_output r) volume;
       m_in_buffer := m_in_buffer r; m_out_buffer := m_out_buffer r;
       m_events := m_events r |}.
Proof.
  unfold output_alsa_mix_streams. cbn [streams set_o_volume].
  now destruct (mix_loop VMAX len (streams h) _) as [ss m].
Qed.

(** X10: the general volume is stored and read back but never applied.
    After output_alsa_set_volume, output_alsa_get_volume returns the new
    value, while the mixer returns the same count, the same samples, the
    same events and the same streams as before, and an iteration of the
    output thread makes the same calls on the device. *)
Theorem output_alsa_set_volume_unused h volume in_buf out_buf len
    (v : thread_vars) (a : answers) :
  let h1 := snd (output_alsa_set_volume h volume) in
  let r := output_alsa_mix_streams VMAX h in_buf out_buf len in
  let r1 := output_alsa_mix_streams VMAX h1 in_buf out_buf len in
  output_alsa_get_volume h1 = volume
  /\ m_ret r1 = m_ret r /\ m_out_buffer r1 = m_out_buffer r
  /\ m_events r1 = m_events r
  /\ streams (m_output r1) = streams (m_output r)
  /\ it_calls (output_alsa_thread_body VMAX h1 v a)
     = it_calls (output_alsa_thread_body VMAX h v a).
Proof.
  cbv zeta. cbn [snd output_alsa_set_volume].
  split; [reflexivity|].
  unfold output_alsa_thread_body.
  rewrite !output_alsa_mix_streams_volume. cbv zeta.
  cbn [m_ret m_output m_in_buffer m_out_buffer m_events set_o_volume
       o_channels streams stopped start w_out_buffer w_in_buffer].
  split; [reflexivity|]. split; [reflexivity|]. split; [reflexivity|].
  split; [reflexivity|].
  repeat match goal with
         | |- context [if ?c then _ else _] => destruct c
         end; reflexivity.
Qed.

(** *** The count returned by the mixer *)

Lemma length_mix_add v n : forall p_in p_out,
  length (mix_add VMAX v n p_in p_out) = length p_out.
Proof.
  induction n as [|n IH]; intros [|x p_in] [|y p_out]; cbn; auto.
Qed.

Lemma mix_stream_bounds len s m :
  0 <= len -> sound s -> 0 <= out_size m <= len ->
  let m1 := snd (mix_stream VMAX len s m) in
  0 <= out_size m1 <= len
  /\ length (out_buffer m1) = length (out_buffer m).
Proof.
  intros Hlen Hs Hm. cbv zeta. unfold mix_stream.
  destruct (negb (is_playing s) || end_of_stream s); [now split|].
  assert (Hr : -1 <= Cache.r_ret
                      (Cache.cache_read (cache s) (in_buffer m) len (fmt m))
               <= len).
  { destruct (cache s) as [c|] eqn:Ec.
    - destruct (Hs c Ec) as [Hinv Hmax].
      now apply CacheRunFacts.cache_read_ret_range.
    - cbn. lia. }
  set (r := Cache.cache_read (cache s) (in_buffer m) len (fmt m)) in *.
  clearbody r. ssimpl.
  destruct (Z.leb_spec (Cache.r_ret r) 0).
  - repeat match goal with
           | |- context [if ?c then _ else _] => destruct c
           end; ssimpl; now split.
  - destruct ((delay s >? 0) && (buffering s =? 1));
      [destruct (event_cb s)|]; ssimpl;
      (split; [lia|]); destruct (first m);
      auto using length_mix_first, length_mix_add.
Qed.

Lemma mix_loop_bounds len : forall (ss : list (output_stream U R)) m,
  0 <= len -> Forall sound ss -> 0 <= out_size m <= len ->
  let r := mix_loop VMAX len ss m in
  0 <= out_size (snd r) <= len
  /\ length (out_buffer (snd r)) = length (out_buffer m)
  /\ length (fst r) = length ss.
Proof.
  induction ss as [|s ss IH]; intros m Hlen Hss Hm; cbv zeta.
  - cbn. repeat split; lia.
  - cbn [mix_loop].
    pose proof (mix_stream_bounds len s m Hlen (Forall_inv Hss) Hm) as Hb.
    cbv zeta in Hb.
    destruct (mix_stream VMAX len s m) as [s1 m1]. cbn [snd] in Hb.
    destruct Hb as [Hb1 Hb2].
    specialize (IH m1 Hlen (Forall_inv_tail Hss) Hb1). cbv zeta in IH.
    destruct (mix_loop VMAX len ss m1) as [ss1 m2]. cbn [fst snd] in *.
    destruct IH as (I1 & I2 & I3).
    split; [exact I1|]. split; [congruence|]. cbn [length]. congruence.
Qed.

(** X11: when the caches of the streams are consistent and no larger
    than INT32_MAX frames, the count the mixer returns lies between 0 and
    the [len] it was given, the output buffer keeps its length and the
    stream list keeps its length. *)
Theorem output_alsa_mix_streams_bounds h in_buf out_buf len :
  0 <= len -> Forall sound (streams h) ->
  let r := output_alsa_mix_streams VMAX h in_buf out_buf len in
  0 <= m_ret r <= len
  /\ length (m_out_buffer r) = length out_buf
  /\ length (streams (m_output r)) = length (streams h).
Proof.
  intros Hlen Hss. cbv zeta. unfold output_alsa_mix_streams.
  pose proof (mix_loop_bounds len (streams h)
                {| in_buffer := in_buf; out_buffer := out_buf;
                   fmt := A_FORMAT_INIT; out_size := 0; first := true;
                   events := [] |} Hlen Hss ltac:(cbn; lia)) as Hb.
  cbv zeta in Hb.
  destruct (mix_loop VMAX len (streams h) _) as [ss m].
  cbn [fst snd m_ret m_out_buffer m_output streams set_streams] in *.
  exact Hb.
Qed.

(** *** The end of a stream *)





(** *** The lock that flush_stream and abort_stream leave taken *)

Lemma cache_flush_takes_lock (c c1 : Cache.cache_handle U) :
  Cache.cache_flush c = Some c1 ->
  Cache.input_lock c1 = true /\ Cache.len c1 = 0.
Proof.
  unfold Cache.cache_flush, Cache.cache_lock.
  destruct (Cache.input_lock c); [discriminate|].
  destruct (Cache.use_thread _); intros [= <-]; split; reflexivity.
Qed.

Lemma cache_flush_free (c : Cache.cache_handle U) :
  Cache.input_lock c = false -> exists c1, Cache.cache_flush c = Some c1.
Proof.
  intros H. unfold Cache.cache_flush, Cache.cache_lock. rewrite H.
  eexists. reflexivity.
Qed.

Lemma cache_flush_held (c : Cache.cache_handle U) :
  Cache.input_lock c = true -> Cache.cache_flush c = None.
Proof.
  intros H. unfold Cache.cache_flush, Cache.cache_lock. now rewrite H.
Qed.

(** X13: flush_stream resets the played count and leaves the cache
    locked exactly when the stream is paused.  On a paused stream a
    second flush_stream or an abort_stream then waits for the lock, which
    play_stream releases; on a playing stream flush_stream can be
    repeated. *)
Theorem flush_stream_paused h s s1 :
  flush_stream h s = Some s1 ->
  played s1 = 0 /\ is_playing s1 = is_playing s
  /\ option_map (@Cache.input_lock U) (cache s1)
     = Some (negb (is_playing s))
  /\ (is_playing s = false ->
      flush_stream h s1 = None /\ abort_stream h s1 = None
      /\ exists s2 s3,
           output_alsa_play_stream h s1 = Some (0, s2)
           /\ flush_stream h s2 = Some s3)
  /\ (is_playing s = true -> exists s2, flush_stream h s1 = Some s2).
Proof.
  unfold output_alsa_flush_stream at 1.
  destruct (cache s) as [c|] eqn:Ec; [|discriminate].
  destruct (Cache.cache_flush c) as [c1|] eqn:Ef; [|discriminate].
  destruct (cache_flush_takes_lock c c1 Ef) as [Hlk _].
  ssimpl. destruct (is_playing s) eqn:Ep; intros [= <-]; ssimpl.
  - split; [reflexivity|]. split; [exact Ep|].
    split; [reflexivity|]. split; [discriminate|]. intros _.
    unfold output_alsa_flush_stream. ssimpl.
    destruct (cache_flush_free (Cache.cache_unlock c1) eq_refl) as [c2 E2].
    rewrite E2. eexists. reflexivity.
  - split; [reflexivity|]. split; [exact Ep|].
    split; [cbn; now rewrite Hlk|]. split; [|discriminate]. intros _.
    split.
    { unfold output_alsa_flush_stream. ssimpl.
      now rewrite (cache_flush_held c1 Hlk). }
    split.
    { unfold output_alsa_abort_stream. ssimpl.
      unfold Cache.cache_lock. now rewrite Hlk. }
    destruct (cache_flush_free (Cache.cache_unlock c1) eq_refl) as [c2 E2].
    unfold output_alsa_play_stream. ssimpl. cbn [unlock_cache].
    eexists _, _. split; [reflexivity|].
    unfold output_alsa_flush_stream. ssimpl.
    rewrite E2. reflexivity.
Qed.

(** X14: abort_stream pauses the stream and returns with the cache
    locked.  The mixer passes over the stream, a second abort_stream or a
    flush_stream waits for the lock; play_stream releases the lock and
    resumes the stream, and leaves the abort flag set. *)
Theorem abort_stream_holds_lock h s p s1 :
  abort_stream h s = Some (p, s1) ->
  is_playing s1 = false /\ abort s1 = true
  /\ option_map (@Cache.input_lock U) (cache s1) = Some true
  /\ (forall len m, mix_stream VMAX len s1 m = (s1, m))
  /\ abort_stream h s1 = None /\ flush_stream h s1 = None
  /\ (exists s2,
        output_alsa_play_stream h s1 = Some (0, s2)
        /\ is_playing s2 = true /\ abort s2 = true
        /\ option_map (@Cache.input_lock U) (cache s2) = Some false).
Proof.
  unfold output_alsa_abort_stream at 1. ssimpl.
  destruct (cache s) as [c|] eqn:Ec; [|discriminate].
  unfold Cache.cache_lock at 1.
  destruct (Cache.input_lock c) eqn:Hlk; [discriminate|].
  intros [= _ <-]. ssimpl.
  split; [reflexivity|]. split; [reflexivity|]. split; [reflexivity|].
  split; [intros len m; reflexivity|].
  split; [reflexivity|]. split; [reflexivity|].
  unfold output_alsa_play_stream. ssimpl. cbn [unlock_cache].
  eexists. split; [reflexivity|]. ssimpl. repeat split.
Qed.

(** *** Adding and removing streams *)

(** X15: remove_stream unlinks the stream it is given and no other.
    The streams before it keep their positions, those after it move up
    by one, and the list is one shorter; when the stream is not in the
    list the output is unchanged. *)
Theorem remove_stream_unlinks h i :
  let h1 := snd (output_alsa_remove_stream h i) in
  (forall j, (j < i)%nat ->
             nth_error (streams h1) j = nth_error (streams h) j)
  /\ (forall j, (i <= j)%nat ->
                nth_error (streams h1) j = nth_error (streams h) (S j))
  /\ ((length (streams h) <= i)%nat -> h1 = h)
  /\ ((i < length (streams h))%nat ->
      S (length (streams h1)) = length (streams h)).
Proof.
  cbv zeta. unfold output_alsa_remove_stream.
  cbn [snd streams set_streams].
  assert (H : forall (l : list (output_stream U R)) i,
            (forall j, (j < i)%nat ->
                       nth_error (unlink l i) j = nth_error l j)
            /\ (forall j, (i <= j)%nat ->
                          nth_error (unlink l i) j = nth_error l (S j))
            /\ ((length l <= i)%nat -> unlink l i = l)
            /\ ((i < length l)%nat -> S (length (unlink l i)) = length l)).
  { induction l as [|c l IH]; intros k.
    - cbn [unlink length]. split; [reflexivity|].
      split; [intros [|j] _; reflexivity|]. split; [reflexivity | lia].
    - destruct k as [|k]; cbn [unlink length].
      + split; [intros j Hj; lia|]. split; [reflexivity|].
        split; [lia | reflexivity].
      + destruct (IH k) as (I1 & I2 & I3 & I4). repeat split.
        * intros [|j] Hj; [reflexivity|]. cbn. apply I1. lia.
        * intros [|j] Hj; [lia|]. cbn [nth_error]. apply I2. lia.
        * intros Hl. rewrite I3 by lia. reflexivity.
        * intros Hl. rewrite I4 by lia. reflexivity. }
  destruct (H (streams h) i) as (H1 & H2 & H3 & H4).
  split; [exact H1|]. split; [exact H2|]. split; [|exact H4].
  intros Hl. rewrite (H3 Hl). now destruct h.
Qed.

(** X16: add_stream puts the new stream at the head of the list, paused,
    at full volume and with the cache delay asked for, in front of the
    streams that were there; removing it again gives back the output as
    it was. *)
Theorem add_then_remove_stream h samplerate channels cache_ms r c h1 s :
  output_alsa_add_stream VMAX h samplerate channels cache_ms (Some (r, c))
  = (h1, Some s) ->
  nth_error (streams h1) 0 = Some s
  /\ is_playing s = false /\ s_volume s = VMAX /\ delay s = cache_ms
  /\ (forall j, nth_error (streams h1) (S j) = nth_error (streams h) j)
  /\ output_alsa_remove_stream h1 0 = (0, h).
Proof.
  unfold output_alsa_add_stream. intros [= <- <-].
  cbn. repeat split. now destruct h.
Qed.

(** *** The output thread *)

Lemma thread_vars_same (v : thread_vars) :
  {| w_in_buffer := w_in_buffer v; w_out_buffer := w_out_buffer v;
     start := start v; stopped := stopped v |} = v.
Proof. now destruct v. Qed.

(** X17: while the device is stopped and no stream is played, the
    output thread only sleeps: an iteration makes the single call
    usleep(MIN_LATENCY * 1000), touches no buffer and leaves the device
    stopped, for as many iterations as this lasts. *)
Theorem output_alsa_thread_idle (v : thread_vars)
    (its : list (output U R * answers)) :
  stopped v = true -> Forall idle its ->
  thread v its = (repeat (usleep (MIN_LATENCY * 1000)) (length its), v).
Proof.
  intros Hst. induction its as [|[h a] its IH]; intros Hits; [reflexivity|].
  cbn [output_alsa_thread length repeat].
  destruct (Forall_inv Hits) as [Hstop Hidle]. cbn [fst] in *.
  rewrite Hstop. unfold output_alsa_thread_body, output_alsa_mix_streams.
  rewrite (mix_loop_passed_over _ _ _ Hidle).
  cbn [m_ret m_output m_in_buffer m_out_buffer m_events in_buffer
       out_buffer out_size].
  rewrite set_streams_same, thread_vars_same.
  change (Z.quot 0 (o_channels h)) with 0. rewrite Hst.
  cbn [Z.eqb it_break it_vars it_calls].
  rewrite (IH (Forall_inv_tail Hits)). reflexivity.
Qed.

(** X18: the output thread never writes to a stopped device.  From any
    point of the loop, and so from its entry, where the device is
    stopped, whatever the streams deliver and whatever the device and the
    clock answer, every snd_pcm_writei comes after a snd_pcm_prepare with
    no snd_pcm_drain in between, or while the device was running at that
    point and has not been drained since. *)
Theorem output_alsa_thread_prepares :
  forall (its : list (output U R * answers)) (v : thread_vars),
  writes_prepared (negb (stopped v)) (fst (thread v its)) = true.
Proof.
  induction its as [|[h a] its IH]; intros v; [reflexivity|].
  cbn [output_alsa_thread].
  destruct (o_stop h); [reflexivity|].
  unfold output_alsa_thread_body.
  destruct (mix h (w_in_buffer v) (w_out_buffer v) BUFFER_SIZE)
    as [ret h1 ib ob ev].
  cbn [m_ret m_output m_in_buffer m_out_buffer m_events stopped start
       w_out_buffer w_in_buffer set_start set_stopped set_w_out_buffer].
  destruct (stopped v) eqn:Hst;
  repeat match goal with
         | |- context [if ?c then _ else _] => destruct c eqn:?
         end;
  cbn [it_break it_vars it_calls app];
  repeat match goal with
         | |- context [thread ?v its] =>
             let H := fresh "H" in
             pose proof (IH v) as H;
             destruct (thread v its) as [calls v']; cbn [fst] in H
         end;
  cbn [fst app writes_prepared negb andb stopped set_start set_stopped
       set_w_out_buffer] in *;
  try reflexivity; try assumption.
Qed.


Lemma length_memset_zero buf n :
  length (memset_zero buf n) = length buf.
Proof.
  unfold memset_zero. rewrite length_app, repeat_length, length_skipn. lia.
Qed.

Lemma memset_zero_all buf :
  Z.of_nat (length buf) = BUFFER_SIZE ->
  memset_zero buf BUFFER_SIZE = repeat 0 (Z.to_nat BUFFER_SIZE).
Proof.
  intros H. unfold memset_zero.
  rewrite skipn_all2 by lia. rewrite app_nil_r. f_equal. lia.
Qed.

Lemma mix_keeps_format h in_buf out_buf len :
  o_channels (m_output (mix h in_buf out_buf len)) = o_channels h
  /\ o_samplerate (m_output (mix h in_buf out_buf len)) = o_samplerate h.
Proof.
  unfold output_alsa_mix_streams.
  destruct (mix_loop VMAX len (streams h) _) as [ss m]. split; reflexivity.
Qed.

(** An iteration that finds the device running and nothing to play,
    once the silence has lasted too long. *)
Lemma body_drains h (v : thread_vars) (a : answers) :
  stopped v = false ->
  forallb passed_over (streams h) = true ->
  MAX_SILENCE
  < now_check a - (if start v =? 0 then now_start a else start v) ->
  body h v a
  = {| it_output := h;
       it_vars := set_stopped
                    (if start v =? 0 then set_start v (now_start a) else v)
                    true;
       it_calls := [snd_pcm_drain]; it_events := []; it_break := false |}.
Proof.
  intros Hst Hidle Hlong.
  unfold output_alsa_thread_body, output_alsa_mix_streams.
  rewrite (mix_loop_passed_over _ _ _ Hidle).
  cbn [m_ret m_output m_in_buffer m_out_buffer m_events in_buffer
       out_buffer out_size events].
  rewrite set_streams_same, thread_vars_same.
  change (Z.quot 0 (o_channels h)) with 0. rewrite Hst. cbn [Z.eqb].
  destruct (start v =? 0); cbn [start set_start] in *.
  - destruct (Z.gtb_spec (now_check a - now_start a) MAX_SILENCE);
      [reflexivity | lia].
  - destruct (Z.gtb_spec (now_check a - start v) MAX_SILENCE);
      [reflexivity | lia].
Qed.

(** X19: what the output thread does while the device runs and no
    stream is played.  The silence is timed from [start], which is set
    to the current time when it is 0.  Once more than MAX_SILENCE seconds
    have passed the iteration drains the device, marks it stopped and
    writes nothing; until then it clears the whole output buffer and
    writes BUFFER_SIZE / channels frames of zeros. *)
Theorem output_alsa_thread_silence h (v : thread_vars) (a : answers) :
  stopped v = false ->
  forallb passed_over (streams h) = true ->
  Z.of_nat (length (w_out_buffer v)) = BUFFER_SIZE ->
  let t0 := if start v =? 0 then now_start a else start v in
  let i := body h v a in
  start (it_vars i) = t0
  /\ (MAX_SILENCE < now_check a - t0 ->
      it_calls i = [snd_pcm_drain] /\ stopped (it_vars i) = true
      /\ w_out_buffer (it_vars i) = w_out_buffer v)
  /\ (now_check a - t0 <= MAX_SILENCE ->
      stopped (it_vars i) = false
      /\ w_out_buffer (it_vars i) = repeat 0 (Z.to_nat BUFFER_SIZE)
      /\ exists rest,
           it_calls i
           = snd_pcm_writei (repeat 0 (Z.to_nat BUFFER_SIZE))
               (Z.quot BUFFER_SIZE (o_channels h)) :: rest).
Proof.
  intros Hst Hidle Hlen. cbv zeta.
  destruct (Z.ltb_spec MAX_SILENCE
              (now_check a
               - (if start v =? 0 then now_start a else start v)))
    as [Hlong|Hshort].
  { rewrite (body_drains h v a Hst Hidle Hlong).
    cbn [it_vars it_calls]. split; [|split; [|lia]].
    - destruct (start v =? 0); reflexivity.
    - intros _. destruct (start v =? 0); repeat split. }
  unfold output_alsa_thread_body, output_alsa_mix_streams.
  rewrite (mix_loop_passed_over _ _ _ Hidle).
  cbn [m_ret m_output m_in_buffer m_out_buffer m_events in_buffer
       out_buffer out_size events].
  rewrite set_streams_same, thread_vars_same.
  change (Z.quot 0 (o_channels h)) with 0. rewrite Hst.
  cbn [Z.eqb].
  set (v1 := if start v =? 0 then set_start v (now_start a) else v).
  assert (Hv1 : start v1 = (if start v =? 0 then now_start a else start v)
                /\ w_out_buffer v1 = w_out_buffer v
                /\ stopped v1 = false).
  { subst v1. destruct (start v =? 0); cbn; auto. }
  destruct Hv1 as (Hs1 & Hb1 & Hp1). rewrite <- Hs1 in *.
  destruct (Z.gtb_spec (now_check a - start v1) MAX_SILENCE); [lia|].
  rewrite Hb1, (memset_zero_all _ Hlen).
  split.
  { repeat match goal with
           | |- context [if ?c then _ else _] => destruct c
           end; reflexivity. }
  split; [lia|]. intros _.
  repeat match goal with
         | |- context [if ?c then _ else _] => destruct c
         end;
    cbn [it_vars it_calls start stopped set_w_out_buffer w_out_buffer app];
    (split; [exact Hp1|]); (split; [reflexivity|]); eexists; reflexivity.
Qed.

(** X20: the silence timer is not reset when data comes back.  An
    iteration that plays data on a running device leaves [start] as it
    was, so when [start] dates from an earlier silence, the first silent
    iteration that follows more than MAX_SILENCE seconds after that
    earlier moment drains the device at once, without writing any
    silence. *)
Theorem output_alsa_thread_stale_timer h1 (v : thread_vars) (a1 : answers)
    h2 (a2 : answers) :
  stopped v = false -> start v <> 0 ->
  Z.quot (m_ret (mix h1 (w_in_buffer v) (w_out_buffer v) BUFFER_SIZE))
    (o_channels h1) <> 0 ->
  forallb passed_over (streams h2) = true ->
  MAX_SILENCE < now_check a2 - start v ->
  let i1 := body h1 v a1 in
  stopped (it_vars i1) = false /\ start (it_vars i1) = start v
  /\ it_calls (body h2 (it_vars i1) a2) = [snd_pcm_drain].
Proof.
  intros Hst Hstart Hdata Hidle Hlong. cbv zeta.
  assert (H1 : stopped (it_vars (body h1 v a1)) = false
               /\ start (it_vars (body h1 v a1)) = start v).
  { unfold output_alsa_thread_body.
    destruct (mix_keeps_format h1 (w_in_buffer v) (w_out_buffer v)
                BUFFER_SIZE) as [Hch _].
    rewrite Hch.
    destruct (Z.eqb_spec
                (Z.quot
                   (m_ret (mix h1 (w_in_buffer v) (w_out_buffer v)
                             BUFFER_SIZE))
                   (o_channels h1)) 0) as [E|_]; [contradiction|].
    cbn [stopped]. rewrite Hst.
    repeat match goal with
           | |- context [if ?c then _ else _] => destruct c
           end; cbn [it_vars stopped start]; split; auto. }
  destruct H1 as [Hst1 Hs1]. split; [exact Hst1|]. split; [exact Hs1|].
  assert (Hne : (start (it_vars (body h1 v a1)) =? 0) = false).
  { rewrite Hs1. now apply Z.eqb_neq. }
  rewrite (body_drains h2 _ a2 Hst1 Hidle); [reflexivity|].
  rewrite Hne, Hs1. exact Hlong.
Qed.

(** X21: the output thread never hands the device more than its buffer
    holds.  With a positive channel count, consistent stream caches of at
    most INT32_MAX frames and an output buffer of BUFFER_SIZE samples,
    every snd_pcm_writei of an iteration passes a frame count that is not
    negative and whose samples (frames times channels) fit the buffer
    passed, and the output buffer keeps its length. *)
Theorem output_alsa_thread_within_buffer h (v : thread_vars) (a : answers) :
  0 < o_channels h -> Forall sound (streams h) ->
  Z.of_nat (length (w_out_buffer v)) = BUFFER_SIZE ->
  let i := body h v a in
  Forall (within_buffer (o_channels h)) (it_calls i)
  /\ length (w_out_buffer (it_vars i)) = length (w_out_buffer v).
Proof.
  intros Hch Hss Hlen. cbv zeta.
  unfold output_alsa_thread_body, output_alsa_mix_streams.
  pose proof (mix_loop_bounds BUFFER_SIZE (streams h)
                {| in_buffer := w_in_buffer v;
                   out_buffer := w_out_buffer v;
                   fmt := A_FORMAT_INIT; out_size := 0; first := true;
                   events := [] |} ltac:(cbn; lia) Hss
                ltac:(cbn; lia)) as Hb.
  cbv zeta in Hb.
  destruct (mix_loop VMAX BUFFER_SIZE (streams h) _) as [ss m].
  cbn [fst snd out_buffer] in Hb. destruct Hb as (Hm & Hl & _).
  cbn [m_ret m_output m_in_buffer m_out_buffer m_events o_channels
       set_streams stopped start w_out_buffer].
  assert (Hq : forall n, 0 <= n <= BUFFER_SIZE ->
             0 <= Z.quot n (o_channels h)
             /\ Z.quot n (o_channels h) * o_channels h <= BUFFER_SIZE).
  { intros n Hn. rewrite Z.quot_div_nonneg by lia.
    split; [apply Z.div_pos; lia|].
    pose proof (Z.mul_div_le n (o_channels h) Hch). lia. }
  destruct (Hq (out_size m) Hm) as [Q1 Q2].
  destruct (Hq BUFFER_SIZE ltac:(cbn; lia)) as [Q3 Q4].
  assert (Hz : Z.of_nat (length (memset_zero (out_buffer m) BUFFER_SIZE))
               = BUFFER_SIZE).
  { rewrite length_memset_zero. lia. }
  assert (Ho : Z.of_nat (length (out_buffer m)) = BUFFER_SIZE) by lia.
  destruct (Z.quot (out_size m) (o_channels h) =? 0);
    destruct (stopped v);
    repeat match goal with
           | |- context [if ?c then _ else _] => destruct c
           end;
    cbn [it_vars it_calls app w_out_buffer set_w_out_buffer set_stopped
         set_start stopped start];
    rewrite ?length_memset_zero;
    (split; [|congruence]);
    repeat (apply Forall_cons || apply Forall_nil);
    cbn [within_buffer]; auto; split; lia.
Qed.

(** *** output_alsa_open *)

(** X22: output_alsa_open raises a latency below MIN_LATENCY to
    MIN_LATENCY and hands it to snd_pcm_set_params in microseconds; up to
    4294967 ms the product does not wrap.  Once the device is open the
    call returns 0 exactly when snd_pcm_set_params and pthread_create
    succeed and -1 otherwise, and the handle has no stream and the
    general volume OUTPUT_VOLUME_MAX. *)
Theorem output_alsa_open_latency samplerate channels latency
    snd_pcm_open_ret snd_pcm_set_params_ret pthread_create_ret :
  0 <= latency <= 4294967 -> 0 <= snd_pcm_open_ret ->
  let r := output_alsa_open U R VMAX samplerate channels latency
             snd_pcm_open_ret snd_pcm_set_params_ret pthread_create_ret in
  snd r = Some (Z.max latency MIN_LATENCY * 1000)
  /\ (fst (fst r) = 0
      <-> 0 <= snd_pcm_set_params_ret /\ pthread_create_ret = 0)
  /\ (fst (fst r) <> 0 -> fst (fst r) = -1)
  /\ streams (snd (fst r)) = []
  /\ output_alsa_get_volume (snd (fst r)) = VMAX.
Proof.
  intros Hl Ho. cbv zeta. unfold output_alsa_open, MIN_LATENCY.
  destruct (Z.ltb_spec snd_pcm_open_ret 0); [lia|].
  assert (Hu : uint ((if latency <? 10 then 10 else latency) * 1000)
               = Z.max latency 10 * 1000).
  { destruct (Z.ltb_spec latency 10).
    - rewrite Z.max_r by lia. reflexivity.
    - rewrite Z.max_l by lia. unfold uint. apply Z.mod_small. lia. }
  rewrite Hu.
  destruct (Z.ltb_spec snd_pcm_set_params_ret 0);
    [|destruct (Z.eqb_spec pthread_create_ret 0)];
    cbn [negb fst snd streams output_alsa_get_volume o_volume];
    repeat split; try lia; try discriminate; intros []; lia.
Qed.

(** *** The cache keys of get_status_stream *)

(** X23: the cache keys of get_status_stream agree.  For a stream with
    a consistent cache whose size times 100 fits an unsigned long, the
    filling reported lies between 0 and 100, it is 100 whenever the
    status reported is CACHE_READY, and it is the integer part of
    100 * len / size whenever the status is CACHE_BUFFERING. *)
Theorem cache_status_filling h s c :
  cache s = Some c -> Cache.cache_inv c -> Cache.size c * 100 < 2 ^ 64 ->
  CACHE_BUFFERING <> CACHE_READY ->
  0 <= status h s OUTPUT_STREAM_CACHE_FILLING <= 100
  /\ (status h s OUTPUT_STREAM_CACHE_STATUS = CACHE_READY ->
      status h s OUTPUT_STREAM_CACHE_FILLING = 100)
  /\ (status h s OUTPUT_STREAM_CACHE_STATUS = CACHE_BUFFERING ->
      status h s OUTPUT_STREAM_CACHE_FILLING
      = Cache.len c * 100 / Cache.size c).
Proof.
  intros Ec Hinv Hmax Hne. unfold output_alsa_get_status_stream.
  rewrite Ec. unfold Cache.cache_is_ready.
  pose proof Hinv as [Hsz Hlen _ _ _ _ _ _].
  assert (Hp : 0 <= Cache.len c * 100 / Cache.size c <= 100).
  { split; [apply Z.div_pos; lia|].
    apply Z.div_le_upper_bound; lia. }
  assert (Hf : Cache.cache_get_filling c
               = if Cache.is_ready c then 100
                 else Cache.len c * 100 / Cache.size c).
  { unfold Cache.cache_get_filling.
    rewrite (ulong_small (Cache.len c * 100)) by nia.
    destruct (Cache.is_ready c); [reflexivity|].
    apply Z.mod_small. lia. }
  rewrite Hf.
  destruct (delay s >? 0); destruct (Cache.is_ready c); cbn [negb andb];
    repeat split; try lia; try congruence.
Qed.

(** *** A single stream *)

Lemma mix_first_full n : forall p_in p_out : list sample,
  0 < VMAX < 2 ^ 32 -> Forall in_int32 p_in ->
  (n <= length p_in)%nat -> (n <= length p_out)%nat ->
  mix_first VMAX VMAX n p_in p_out = firstn n p_in ++ skipn n p_out.
Proof.
  induction n as [|n IH]; intros p_in p_out HV Hin Hl1 Hl2.
  - now destruct p_in, p_out.
  - destruct p_in as [|x p_in]; [cbn in Hl1; lia|].
    destruct p_out as [|y p_out]; [cbn in Hl2; lia|].
    cbn [mix_first firstn skipn app].
    rewrite (output_alsa_vol_full VMAX x HV (Forall_inv Hin)).
    f_equal. apply IH; [exact HV | exact (Forall_inv_tail Hin) | |];
      cbn in *; lia.
Qed.

(** X24: a single played stream at full volume passes through the
    mixer unchanged.  The count returned is the count cache_read
    returned, the first samples of the output buffer are the int32
    samples read, the rest of the output buffer is untouched, and the
    stream's played count grows by the count read. *)
Theorem output_alsa_mix_single_stream h s in_buf out_buf len :
  0 < VMAX < 2 ^ 32 ->
  streams h = [s] ->
  is_playing s = true -> end_of_stream s = false -> s_volume s = VMAX ->
  let r := Cache.cache_read (cache s) in_buf len A_FORMAT_INIT in
  let n := Z.to_nat (Cache.r_ret r) in
  0 < Cache.r_ret r ->
  Forall in_int32 (Cache.r_buffer r) ->
  (n <= length (Cache.r_buffer r))%nat -> (n <= length out_buf)%nat ->
  let res := mix h in_buf out_buf len in
  m_ret res = Cache.r_ret r
  /\ m_out_buffer res = firstn n (Cache.r_buffer r) ++ skipn n out_buf
  /\ option_map played (nth_error (streams (m_output res)) 0)
     = Some (ulong (played s + Cache.r_ret r)).
Proof.
  intros HV Hss Hp He Hvol r n Hpos Hint Hl1 Hl2. cbv zeta.
  unfold output_alsa_mix_streams. rewrite Hss. cbn [mix_loop].
  pose proof (mix_stream_data U R VMAX len s
                {| in_buffer := in_buf; out_buffer := out_buf;
                   fmt := A_FORMAT_INIT; out_size := 0; first := true;
                   events := [] |} Hp He Hpos) as Hd.
  cbv zeta in Hd. cbn [in_buffer fmt out_buffer first events] in Hd.
  rewrite Hd. cbn [m_ret m_out_buffer m_output out_size out_buffer streams
                   set_streams nth_error option_map].
  fold r. rewrite Hvol. fold n.
  split; [reflexivity|]. split.
  - apply mix_first_full; assumption.
  - destruct ((delay s >? 0) && (buffering s =? 1)); reflexivity.
Qed.

(** *** A write that fails *)

(** X25: what the output thread does when snd_pcm_writei fails on a
    running device.  It calls snd_pcm_recover with the error; when that
    fails too it prints a message and leaves the loop, whatever
    iterations would follow; when it succeeds the loop goes on, and the
    frames of this iteration are not written again. *)
Theorem output_alsa_thread_write_failure h (v : thread_vars) (a : answers)
    (its : list (output U R * answers)) :
  o_stop h = false -> stopped v = false ->
  Z.quot (m_ret (mix h (w_in_buffer v) (w_out_buffer v) BUFFER_SIZE))
    (o_channels h) <> 0 ->
  writei_ret a < 0 ->
  let r := mix h (w_in_buffer v) (w_out_buffer v) BUFFER_SIZE in
  let wr := snd_pcm_writei (m_out_buffer r)
              (Z.quot (m_ret r) (o_channels h)) in
  (recover_ret a < 0 ->
   fst (thread v ((h, a) :: its))
   = [wr; snd_pcm_recover (writei_ret a); printf_failed])
  /\ (0 <= recover_ret a ->
      exists rest,
        it_calls (body h v a)
        = wr :: snd_pcm_recover (writei_ret a) :: rest
        /\ Forall (fun c => match c with
                            | snd_pcm_writei _ _ => False
                            | _ => True
                            end) rest
        /\ it_break (body h v a) = false).
Proof.
  intros Hstop Hst Hdata Hw. cbv zeta.
  destruct (mix_keeps_format h (w_in_buffer v) (w_out_buffer v)
              BUFFER_SIZE) as [Hch _].
  assert (Hb : body h v a
               = let r := mix h (w_in_buffer v) (w_out_buffer v)
                            BUFFER_SIZE in
                 let out_size := Z.quot (m_ret r) (o_channels h) in
                 let v1 := {| w_in_buffer := m_in_buffer r;
                              w_out_buffer := m_out_buffer r;
                              start := start v; stopped := stopped v |} in
                 let calls := [snd_pcm_writei (m_out_buffer r) out_size;
                               snd_pcm_recover (writei_ret a)] in
                 if recover_ret a <? 0
                 then {| it_output := m_output r; it_vars := v1;
                         it_calls := calls ++ [printf_failed];
                         it_events := m_events r; it_break := true |}
                 else if (0 <? recover_ret a) && (recover_ret a <? out_size)
                 then {| it_output := m_output r; it_vars := v1;
                         it_calls :=
                           calls ++ [printf_short out_size (recover_ret a)];
                         it_events := m_events r; it_break := false |}
                 else {| it_output := m_output r; it_vars := v1;
                         it_calls := calls;
                         it_events := m_events r; it_break := false |}).
  { unfold output_alsa_thread_body. rewrite Hch. cbv zeta.
    destruct (Z.eqb_spec
                (Z.quot
                   (m_ret (mix h (w_in_buffer v) (w_out_buffer v)
                             BUFFER_SIZE))
                   (o_channels h)) 0) as [E|_]; [contradiction|].
    cbn [stopped]. rewrite Hst.
    destruct (Z.ltb_spec (writei_ret a) 0); [|lia].
    cbn [w_out_buffer app]. reflexivity. }
  split.
  - intros Hr. cbn [output_alsa_thread]. rewrite Hstop, Hb. cbv zeta.
    destruct (Z.ltb_spec (recover_ret a) 0); [|lia]. reflexivity.
  - intros Hr. rewrite Hb. cbv zeta.
    destruct (Z.ltb_spec (recover_ret a) 0); [lia|].
    destruct ((0 <? recover_ret a) && (recover_ret a <? _));
      cbn [it_calls it_break app]; eexists; split; try reflexivity;
      split; try reflexivity; repeat constructor.
Qed.

End WithExternals.

(** *** The properties at work on concrete streams *)

Abbreviation VMAX := Examples.OUTPUT_VOLUME_MAX.

Lemma sound_stream c d :
  Cache.cache_inv c -> Cache.size c <= INT32_MAX ->
  sound (Examples.stream c d).
Proof. intros Hinv Hsz c' [= <-]. now split. Qed.

Lemma sound_full4 : sound (Examples.stream Examples.full4 0).
Proof.
  apply sound_stream; [exact CacheRunFacts.full4_inv|].
  unfold INT32_MAX. cbn. lia.
Qed.

Lemma sound_full2 : sound (Examples.stream Examples.full2 0).
Proof.
  apply sound_stream; [exact CacheRunFacts.full2_inv|].
  unfold INT32_MAX. cbn. lia.
Qed.

Lemma output_alsa_vol_attenuates_witness :
  let vol := output_alsa_vol VMAX in
  vol (-1000) 32768 = Z.quot (-1000 * 32768) VMAX
  /\ Z.abs (vol (-1000) 32768) <= Z.abs (-1000)
  /\ (0 <= -1000 -> 0 <= vol (-1000) 32768)
  /\ (-1000 <= 0 -> vol (-1000) 32768 <= 0)
  /\ vol (-1000) 0 = 0 /\ vol (-1000) VMAX = -1000.
Proof.
  refine (output_alsa_vol_attenuates VMAX (-1000) 32768 _ _ _).
  - unfold VMAX. lia.
  - unfold in_int32, INT32_MIN, INT32_MAX. lia.
  - unfold VMAX. lia.
Defined.

Lemma output_alsa_mix_streams_idle_witness :
  let h := Examples.out [Examples.paused Examples.full4 0] in
  output_alsa_mix_streams VMAX h [0; 0; 0; 0] [9; 9; 9; 9] 4
  = {| m_ret := 0; m_output := h; m_in_buffer := [0; 0; 0; 0];
       m_out_buffer := [9; 9; 9; 9]; m_events := [] |}.
Proof.
  exact (output_alsa_mix_streams_idle unit unit VMAX
           (Examples.out [Examples.paused Examples.full4 0])
           [0; 0; 0; 0] [9; 9; 9; 9] 4 eq_refl).
Defined.

Lemma output_alsa_mix_streams_bounds_witness :
  let h := Examples.out [Examples.stream Examples.full4 0;
                         Examples.stream Examples.full2 0] in
  let r := output_alsa_mix_streams VMAX h [0; 0; 0; 0] [9; 9; 9; 9] 4 in
  0 <= m_ret r <= 4
  /\ length (m_out_buffer r) = length [9; 9; 9; 9]
  /\ length (streams (m_output r)) = length (streams h).
Proof.
  refine (output_alsa_mix_streams_bounds unit unit VMAX
            (Examples.out [Examples.stream Examples.full4 0;
                           Examples.stream Examples.full2 0])
            [0; 0; 0; 0] [9; 9; 9; 9] 4 _ _).
  - lia.
  - exact (Forall_cons _ sound_full4 (Forall_cons _ sound_full2
                                        (Forall_nil _))).
Defined.


Lemma flush_stream_paused_witness :
  let h := Examples.out [] in
  let s := Examples.paused Examples.half 0 in
  exists s1,
    output_alsa_flush_stream Examples.resample_flush h s = Some s1
    /\ played s1 = 0 /\ is_playing s1 = is_playing s
    /\ option_map (@Cache.input_lock unit) (cache s1)
       = Some (negb (is_playing s))
    /\ (is_playing s = false ->
        output_alsa_flush_stream Examples.resample_flush h s1 = None
        /\ output_alsa_abort_stream Examples.resample_delay
             Examples.cache_delay h s1 = None
        /\ exists s2 s3,
             output_alsa_play_stream h s1 = Some (0, s2)
             /\ output_alsa_flush_stream Examples.resample_flush h s2
                = Some s3)
    /\ (is_playing s = true ->
        exists s2,
          output_alsa_flush_stream Examples.resample_flush h s1 = Some s2).
Proof.
  cbv zeta. eexists. split; [reflexivity|].
  exact (flush_stream_paused unit unit Examples.resample_flush
           Examples.resample_delay Examples.cache_delay (Examples.out [])
           (Examples.paused Examples.half 0) _ eq_refl).
Defined.

Lemma abort_stream_holds_lock_witness :
  let h := Examples.out [] in
  let s := Examples.stream Examples.full4 0 in
  exists p s1,
    output_alsa_abort_stream Examples.resample_delay Examples.cache_delay
      h s = Some (p, s1)
    /\ is_playing s1 = false /\ abort s1 = true
    /\ option_map (@Cache.input_lock unit) (cache s1) = Some true
    /\ (forall len m, mix_stream VMAX len s1 m = (s1, m))
    /\ output_alsa_abort_stream Examples.resample_delay
         Examples.cache_delay h s1 = None
    /\ output_alsa_flush_stream Examples.resample_flush h s1 = None
    /\ (exists s2,
          output_alsa_play_stream h s1 = Some (0, s2)
          /\ is_playing s2 = true /\ abort s2 = true
          /\ option_map (@Cache.input_lock unit) (cache s2) = Some false).
Proof.
  cbv zeta. eexists _, _. split; [reflexivity|].
  exact (abort_stream_holds_lock unit unit VMAX Examples.resample_flush
           Examples.resample_delay Examples.cache_delay (Examples.out [])
           (Examples.stream Examples.full4 0) _ _ eq_refl).
Defined.

Lemma add_then_remove_stream_witness :
  let h := Examples.out [Examples.stream Examples.full2 0] in
  exists h1 s,
    output_alsa_add_stream VMAX h 48000 2 100
      (Some (Some tt, Some (Examples.fresh 4 false))) = (h1, Some s)
    /\ nth_error (streams h1) 0 = Some s
    /\ is_playing s = false /\ s_volume s = VMAX /\ delay s = 100
    /\ (forall j, nth_error (streams h1) (S j) = nth_error (streams h) j)
    /\ output_alsa_remove_stream h1 0 = (0, h).
Proof.
  cbv zeta. eexists _, _. split; [reflexivity|].
  exact (add_then_remove_stream unit unit VMAX
           (Examples.out [Examples.stream Examples.full2 0]) 48000 2 100
           (Some tt) (Some (Examples.fresh 4 false)) _ _ eq_refl).
Defined.

Lemma cache_status_filling_witness :
  let h := Examples.out [] in
  let s := Examples.stream Examples.half 100 in
  let status :=
    output_alsa_get_status_stream 0 1 2 0 1 Examples.cache_delay h s in
  status OUTPUT_STREAM_CACHE_STATUS = 0
  /\ status OUTPUT_STREAM_CACHE_FILLING = 50
  /\ 0 <= status OUTPUT_STREAM_CACHE_FILLING <= 100
  /\ (status OUTPUT_STREAM_CACHE_STATUS = 1 ->
      status OUTPUT_STREAM_CACHE_FILLING = 100)
  /\ (status OUTPUT_STREAM_CACHE_STATUS = 0 ->
      status OUTPUT_STREAM_CACHE_FILLING
      = Cache.len Examples.half * 100 / Cache.size Examples.half).
Proof.
  cbv zeta. split; [reflexivity|]. split; [reflexivity|].
  refine (cache_status_filling unit unit 0 1 2 0 1 Examples.cache_delay
            (Examples.out []) (Examples.stream Examples.half 100)
            Examples.half eq_refl CacheRunFacts.half_inv _ _).
  - cbn. lia.
  - discriminate.
Defined.

Lemma output_alsa_mix_single_stream_witness :
  let h := Examples.out [Examples.stream Examples.full4 0] in
  let res := output_alsa_mix_streams VMAX h [0; 0; 0; 0] [9; 9; 9; 9; 9] 4 in
  m_ret res = 4
  /\ m_out_buffer res = [10; 20; 30; 40; 9]
  /\ option_map played (nth_error (streams (m_output res)) 0) = Some 4.
Proof.
  refine (output_alsa_mix_single_stream unit unit VMAX
            (Examples.out [Examples.stream Examples.full4 0])
            (Examples.stream Examples.full4 0)
            [0; 0; 0; 0] [9; 9; 9; 9; 9] 4 _ eq_refl eq_refl eq_refl eq_refl
            _ _ _ _).
  - unfold VMAX. lia.
  - vm_compute. reflexivity.
  - change (Forall in_int32 [10; 20; 30; 40]).
    repeat constructor; unfold INT32_MIN, INT32_MAX; lia.
  - vm_compute. lia.
  - vm_compute. lia.
Defined.

Lemma output_alsa_thread_idle_witness :
  let its := [(Examples.out [], Examples.answer 7 0);
              (Examples.out [Examples.paused Examples.full4 0],
               Examples.answer 8 0)] in
  output_alsa_thread VMAX Examples.entry its
  = (repeat (usleep (MIN_LATENCY * 1000)) (length its), Examples.entry).
Proof.
  refine (output_alsa_thread_idle unit unit VMAX Examples.entry
            [(Examples.out [], Examples.answer 7 0);
             (Examples.out [Examples.paused Examples.full4 0],
              Examples.answer 8 0)] eq_refl _).
  repeat constructor.
Defined.

Lemma output_alsa_thread_silence_witness :
  let h := Examples.out [Examples.paused Examples.full4 0] in
  let v := Examples.running 0 in
  let a := Examples.answer 100 2048 in
  let t0 := if start v =? 0 then now_start a else start v in
  let i := output_alsa_thread_body VMAX h v a in
  start (it_vars i) = t0
  /\ (MAX_SILENCE < now_check a - t0 ->
      it_calls i = [snd_pcm_drain] /\ stopped (it_vars i) = true
      /\ w_out_buffer (it_vars i) = w_out_buffer v)
  /\ (now_check a - t0 <= MAX_SILENCE ->
      stopped (it_vars i) = false
      /\ w_out_buffer (it_vars i) = repeat 0 (Z.to_nat BUFFER_SIZE)
      /\ exists rest,
           it_calls i
           = snd_pcm_writei (repeat 0 (Z.to_nat BUFFER_SIZE))
               (Z.quot BUFFER_SIZE (o_channels h)) :: rest).
Proof.
  refine (output_alsa_thread_silence unit unit VMAX
            (Examples.out [Examples.paused Examples.full4 0])
            (Examples.running 0) (Examples.answer 100 2048)
            eq_refl eq_refl _).
  vm_compute. reflexivity.
Defined.

Lemma output_alsa_thread_stale_timer_witness :
  let h1 := Examples.out [Examples.stream Examples.full4 0] in
  let h2 := Examples.out [Examples.paused Examples.full4 0] in
  let v := Examples.running 100 in
  let i1 := output_alsa_thread_body VMAX h1 v (Examples.answer 3600 2) in
  stopped (it_vars i1) = false /\ start (it_vars i1) = start v
  /\ it_calls (output_alsa_thread_body VMAX h2 (it_vars i1)
                 (Examples.answer 3601 0))
     = [snd_pcm_drain].
Proof.
  refine (output_alsa_thread_stale_timer unit unit VMAX
            (Examples.out [Examples.stream Examples.full4 0])
            (Examples.running 100) (Examples.answer 3600 2)
            (Examples.out [Examples.paused Examples.full4 0])
            (Examples.answer 3601 0) eq_refl _ _ eq_refl _).
  - discriminate.
  - vm_compute. discriminate.
  - vm_compute. reflexivity.
Defined.

Lemma output_alsa_thread_within_buffer_witness :
  let h := Examples.out [Examples.stream Examples.full4 0;
                         Examples.stream Examples.full2 0] in
  let i := output_alsa_thread_body VMAX h Examples.entry
             (Examples.answer 7 1) in
  Forall (within_buffer (o_channels h)) (it_calls i)
  /\ length (w_out_buffer (it_vars i))
     = length (w_out_buffer Examples.entry).
Proof.
  refine (output_alsa_thread_within_buffer unit unit VMAX
            (Examples.out [Examples.stream Examples.full4 0;
                           Examples.stream Examples.full2 0])
            Examples.entry (Examples.answer 7 1) _ _ _).
  - cbn. lia.
  - exact (Forall_cons _ sound_full4 (Forall_cons _ sound_full2
                                        (Forall_nil _))).
  - vm_compute. reflexivity.
Defined.

Lemma output_alsa_open_latency_witness :
  let r := output_alsa_open unit unit VMAX 44100 2 3 0 0 0 in
  snd r = Some 10000
  /\ snd r = Some (Z.max 3 MIN_LATENCY * 1000)
  /\ (fst (fst r) = 0 <-> 0 <= 0 /\ 0 = 0)
  /\ (fst (fst r) <> 0 -> fst (fst r) = -1)
  /\ streams (snd (fst r)) = []
  /\ output_alsa_get_volume (snd (fst r)) = VMAX.
Proof.
  split; [reflexivity|].
  refine (output_alsa_open_latency unit unit VMAX 44100 2 3 0 0 0 _ _); lia.
Defined.

Lemma output_alsa_thread_write_failure_witness :
  let h := Examples.out [Examples.stream Examples.full4 0] in
  let v := Examples.running 0 in
  let a := Examples.answer 7 (-32) in
  let its := [(h, Examples.answer 8 2)] in
  let r := output_alsa_mix_streams VMAX h (w_in_buffer v) (w_out_buffer v)
             BUFFER_SIZE in
  let wr := snd_pcm_writei (m_out_buffer r)
              (Z.quot (m_ret r) (o_channels h)) in
  (recover_ret a < 0 ->
   fst (output_alsa_thread VMAX v ((h, a) :: its))
   = [wr; snd_pcm_recover (writei_ret a); printf_failed])
  /\ (0 <= recover_ret a ->
      exists rest,
        it_calls (output_alsa_thread_body VMAX h v a)
        = wr :: snd_pcm_recover (writei_ret a) :: rest
        /\ Forall (fun c => match c with
                            | snd_pcm_writei _ _ => False
                            | _ => True
                            end) rest
        /\ it_break (output_alsa_thread_body VMAX h v a) = false).
Proof.
  refine (output_alsa_thread_write_failure unit unit VMAX
            (Examples.out [Examples.stream Examples.full4 0])
            (Examples.running 0) (Examples.answer 7 (-32))
            [(Examples.out [Examples.stream Examples.full4 0],
              Examples.answer 8 2)] eq_refl eq_refl _ _).
  - vm_compute. discriminate.
  - cbn. lia.
Defined.

Lemma remove_stream_unlinks_witness :
  let h := Examples.out [Examples.stream Examples.full4 0;
                         Examples.stream Examples.full2 0] in
  let h1 := snd (output_alsa_remove_stream h 0) in
  streams h1 = [Examples.stream Examples.full2 0]
  /\ (forall j, (j < 0)%nat ->
                nth_error (streams h1) j = nth_error (streams h) j)
  /\ (forall j, (0 <= j)%nat ->
                nth_error (streams h1) j = nth_error (streams h) (S j))
  /\ ((length (streams h) <= 0)%nat -> h1 = h)
  /\ ((0 < length (streams h))%nat ->
      S (length (streams h1)) = length (streams h)).
Proof.
  split; [reflexivity|].
  exact (remove_stream_unlinks unit unit
           (Examples.out [Examples.stream Examples.full4 0;
                          Examples.stream Examples.full2 0]) 0).
Defined.

End OutputRunFacts.
